(** * fireant: the ReactTable widget and the dimension/filter modifiers

    A shallow embedding of [fireant/slicer/widgets/reacttable.py] and
    [fireant/dataset/modifiers.py].

    Python values are an inductive type, exceptions are an explicit error
    result, dictionaries whose order is observable are association lists,
    the object heap is a finite map from locations to objects.  Data frames
    are records holding a row index, a column index and a matrix of cells. *)

From Stdlib Require Import ZArith NArith QArith Qround Strings.String Strings.Ascii
  DecimalString SpecFloat Lia List.
From stdpp Require Import gmap strings list.

Local Open Scope Z_scope.
Local Open Scope string_scope.

#[local] Set Warnings "-clear-no-such-hyp".

(* ===================================================================== *)
(** * Python exceptions *)
(* ===================================================================== *)

Inductive exn :=
  KeyError | IndexError | TypeError | ValueError | AttributeError | AssertionError
  | RecursionError.

Inductive result (A : Type) : Type :=
| Ok (a : A)
| Raise (e : exn).
Arguments Ok {A} a.
Arguments Raise {A} e.

#[global] Instance result_ret : MRet result := λ A a, Ok a.
#[global] Instance result_bind : MBind result :=
  λ A B f r, match r with Ok a => f a | Raise e => Raise e end.
#[global] Instance result_fmap : FMap result :=
  λ A B f r, match r with Ok a => Ok (f a) | Raise e => Raise e end.

(** [for x in xs: ys.append(f(x))], stopping at the first exception. *)
Fixpoint mapR {A B} (f : A → result B) (xs : list A) : result (list B) :=
  match xs with
  | [] => Ok []
  | x :: xs' => y ← f x; ys ← mapR f xs'; Ok (y :: ys)
  end.

(** [for x in xs: acc = f(acc, x)], stopping at the first exception. *)
Fixpoint foldR {A B} (f : B → A → result B) (acc : B) (xs : list A) : result B :=
  match xs with
  | [] => Ok acc
  | x :: xs' => acc' ← f acc x; foldR f acc' xs'
  end.

(* ===================================================================== *)
(** * Python scalars *)
(* ===================================================================== *)

(** A pandas [Timestamp], to the second. *)
Record timestamp := Timestamp {
  ts_year : Z; ts_month : Z; ts_day : Z;
  ts_hour : Z; ts_minute : Z; ts_second : Z
}.

(** The scalars a result set holds: [None], [bool], [int], [float]
    (binary64, [S754_nan] is NaN), [str] and timestamps. *)
Inductive scalar :=
| VNone
| VBool (b : bool)
| VInt (n : Z)
| VFloat (f : spec_float)
| VStr (s : string)
| VTimestamp (t : timestamp).

#[global] Instance spec_float_eq_dec : EqDecision spec_float.
Proof. solve_decision. Defined.
#[global] Instance timestamp_eq_dec : EqDecision timestamp.
Proof. solve_decision. Defined.
#[global] Instance scalar_eq_dec : EqDecision scalar.
Proof. solve_decision. Defined.
#[global] Instance exn_eq_dec : EqDecision exn.
Proof. solve_decision. Defined.

(** [pd.isnull(x)]: [None] and NaN. *)
Definition isnull (x : scalar) : bool :=
  match x with
  | VNone => true
  | VFloat S754_nan => true
  | _ => false
  end.

(** ** Decimal rendering of integers *)

Definition str_of_N (n : N) : string := NilZero.string_of_uint (N.to_uint n).

(** [str(n)] for an [int]. *)
Definition str_of_Z (n : Z) : string :=
  match n with
  | Zneg p => "-" +:+ str_of_N (Npos p)
  | _ => str_of_N (Z.to_N n)
  end.

(** Groups of three digits from the right, separated by [sep]; the argument
    is the digit string reversed, [k] counts the digits already in the
    current group. *)
Fixpoint group3_rev (k : nat) (rev_digits : list ascii) : list ascii :=
  match rev_digits with
  | [] => []
  | d :: ds =>
      match k with
      | 3%nat => "," %char :: d :: group3_rev 1 ds
      | _ => d :: group3_rev (S k) ds
      end
  end.

Definition string_of_chars (l : list ascii) : string := string_of_list_ascii l.
Definition chars_of_string (s : string) : list ascii := list_ascii_of_string s.

(** ['{:,}'.format(n)] for an [int]. *)
Definition format_thousands (n : Z) : string :=
  let digits := chars_of_string (str_of_N (Z.abs_N n)) in
  let grouped := string_of_chars (rev (group3_rev 0 (rev digits))) in
  if (n <? 0)%Z then "-" +:+ grouped else grouped.

(** ** Fixed-point rendering of floats *)

(** The last [p] decimal digits of [r], zero padded. *)
Fixpoint frac_digits (p : nat) (r : N) : string :=
  match p with
  | O => ""
  | S p' => frac_digits p' (r / 10) +:+ str_of_N (r mod 10)
  end.

(** Round half to even of the non-negative rational [num / den]. *)
Definition round_half_even (num den : N) : N :=
  let q := (num / den)%N in
  let r := (num mod den)%N in
  match (2 * r ?= den)%N with
  | Lt => q
  | Gt => (q + 1)%N
  | Eq => if N.even q then q else (q + 1)%N
  end.

(** [m * 2^e * 10^p] rounded to the nearest integer, ties to even: the
    correctly rounded decimal that CPython prints. *)
Definition scaled_round (m : positive) (e : Z) (p : nat) : N :=
  let scale := (10 ^ N.of_nat p)%N in
  if (0 <=? e)%Z
  then (Npos m * 2 ^ Z.to_N e * scale)%N
  else round_half_even (Npos m * scale) (2 ^ Z.to_N (- e)).

Definition sign_str (s : bool) : string := if s then "-" else "".

Definition fixed_of_N (s : bool) (n : N) (p : nat) : string :=
  let scale := (10 ^ N.of_nat p)%N in
  sign_str s +:+ str_of_N (n / scale) +:+
  match p with O => "" | _ => "." +:+ frac_digits p (n mod scale) end.

(** ['{:.{p}f}'.format(f)] for a [float] and a digit count [p]. *)
Definition format_fixed (f : spec_float) (p : nat) : string :=
  match f with
  | S754_nan => "nan"
  | S754_infinity s => sign_str s +:+ "inf"
  | S754_zero s => fixed_of_N s 0 p
  | S754_finite s m e => fixed_of_N s (scaled_round m e p) p
  end.

(** ** Shortest round-trip rendering of floats

    [repr(x)] of a finite binary64 [x] is the shortest decimal that reads
    back as [x]; among the shortest, the one nearest to [x]. *)

Local Open Scope Q_scope.

Definition pow10Q (x : Z) : Q := Qpower (10 # 1) x.
Definition pow2Q (x : Z) : Q := Qpower (2 # 1) x.

(** The binary64 form of [m * 2^e]: 53 mantissa bits, or exponent -1074. *)
Definition normalize (m : positive) (e : Z) : positive * Z :=
  let bits := Z.of_nat (Pos.size_nat m) in
  let shift := Z.max 0 (Z.min (53 - bits) (e + 1074)) in
  (Pos.shiftl m (Z.to_N shift), (e - shift)%Z).

(** The open or closed interval of the reals that round to [m * 2^e]. *)
Definition rounding_interval (m : positive) (e : Z) : Q * Q * bool :=
  let v := inject_Z (Zpos m) * pow2Q e in
  let up := pow2Q (e - 1) in
  let down := if decide (m = 4503599627370496%positive ∧ (-1074 < e)%Z)
              then pow2Q (e - 2) else up in
  (Qred (v - down), Qred (v + up), Z.even (Zpos m)).

Definition inside (iv : Q * Q * bool) (c : Q) : bool :=
  let '(lo, hi, closed) := iv in
  if closed then Qle_bool lo c && Qle_bool c hi
  else negb (Qle_bool c lo) && negb (Qle_bool hi c).

(** The [x] with [10^x <= v < 10^(x+1)], from an estimate. *)
Fixpoint adjust_exp10 (fuel : nat) (v : Q) (x : Z) : Z :=
  match fuel with
  | O => x
  | S fuel' =>
      if negb (Qle_bool (pow10Q x) v) then adjust_exp10 fuel' v (x - 1)%Z
      else if Qle_bool (pow10Q (x + 1)) v then adjust_exp10 fuel' v (x + 1)%Z
      else x
  end.

Definition exp10 (v : Q) : Z :=
  let est := ((Z.log2 (Qnum v) - Z.log2 (Zpos (Qden v))) * 30103 / 100000)%Z in
  adjust_exp10 8 v est.

(** The nearest decimal of [k] digits inside the interval, if there is one:
    digits and the exponent of the last digit. *)
Definition candidate (iv : Q * Q * bool) (v : Q) (x0 k : Z) : option (Z * Z) :=
  let x := (x0 - k + 1)%Z in
  let scale := pow10Q x in
  let t := Qred (v / scale) in
  let dlo := Qfloor t in
  let dhi := (dlo + 1)%Z in
  let in_lo := inside iv (inject_Z dlo * scale) in
  let in_hi := inside iv (inject_Z dhi * scale) in
  match in_lo, in_hi with
  | true, true =>
      match Qcompare (t - inject_Z dlo) (inject_Z dhi - t) with
      | Lt => Some (dlo, x)
      | Gt => Some (dhi, x)
      | Eq => Some (if Z.even dlo then dlo else dhi, x)
      end
  | true, false => Some (dlo, x)
  | false, true => Some (dhi, x)
  | false, false => None
  end.

Fixpoint shortest (fuel : nat) (iv : Q * Q * bool) (v : Q) (x0 k : Z) : Z * Z :=
  match fuel with
  | O => (Qfloor (v / pow10Q (x0 - k + 1)), (x0 - k + 1)%Z)
  | S fuel' =>
      match candidate iv v x0 k with
      | Some r => r
      | None => shortest fuel' iv v x0 (k + 1)%Z
      end
  end.

Fixpoint strip_zeros (fuel : nat) (d x : Z) : Z * Z :=
  match fuel with
  | O => (d, x)
  | S fuel' =>
      if decide (d ≠ 0%Z ∧ (d mod 10 = 0)%Z)
      then strip_zeros fuel' (d / 10)%Z (x + 1)%Z else (d, x)
  end.

Local Close Scope Q_scope.

Fixpoint zeros (n : nat) : string :=
  match n with O => "" | S n' => "0" +:+ zeros n' end.

Definition pad2 (n : Z) : string :=
  (if (n <? 10)%Z then "0" else "") +:+ str_of_Z n.

(** The digits [ds] with the decimal point after [decpt] of them, as
    [float.__repr__] lays them out. *)
Definition layout_repr (ds : string) (decpt : Z) : string :=
  let n := Z.of_nat (String.length ds) in
  if ((decpt <=? -4) || (16 <? decpt))%Z then
    let rest := substring 1 (String.length ds - 1) ds in
    let ex := (decpt - 1)%Z in
    substring 0 1 ds +:+ (if decide (rest = "") then "" else "." +:+ rest) +:+
    "e" +:+ (if (ex <? 0)%Z then "-" else "+") +:+ pad2 (Z.abs ex)
  else if (decpt <=? 0)%Z then "0." +:+ zeros (Z.to_nat (- decpt)) +:+ ds
  else if (n <=? decpt)%Z then ds +:+ zeros (Z.to_nat (decpt - n)) +:+ ".0"
  else substring 0 (Z.to_nat decpt) ds +:+ "." +:+
       substring (Z.to_nat decpt) (String.length ds - Z.to_nat decpt) ds.

(** [repr(f)] (and [str(f)], ['{}'.format(f)]) for a [float]. *)
Definition float_repr (f : spec_float) : string :=
  match f with
  | S754_nan => "nan"
  | S754_infinity s => sign_str s +:+ "inf"
  | S754_zero s => sign_str s +:+ "0.0"
  | S754_finite s m e =>
      let '(m', e') := normalize m e in
      let v := Qred (inject_Z (Zpos m') * pow2Q e')%Q in
      let x0 := exp10 v in
      let '(d, x) := shortest 17 (rounding_interval m' e') v x0 1 in
      let '(d', x') := strip_zeros 20 d x in
      let ds := str_of_Z d' in
      sign_str s +:+ layout_repr ds (x' + Z.of_nat (String.length ds))
  end.

(** ** Timestamps *)

Definition pad4 (n : Z) : string :=
  (if (n <? 10)%Z then "000" else if (n <? 100)%Z then "00"
   else if (n <? 1000)%Z then "0" else "") +:+ str_of_Z n.

(** [str(t)] for a [Timestamp]. *)
Definition timestamp_str (t : timestamp) : string :=
  pad4 (ts_year t) +:+ "-" +:+ pad2 (ts_month t) +:+ "-" +:+ pad2 (ts_day t) +:+ " " +:+
  pad2 (ts_hour t) +:+ ":" +:+ pad2 (ts_minute t) +:+ ":" +:+ pad2 (ts_second t).

Definition month_abbr (m : Z) : string :=
  nth (Z.to_nat (m - 1))
    ["Jan"; "Feb"; "Mar"; "Apr"; "May"; "Jun"; "Jul"; "Aug"; "Sep"; "Oct"; "Nov"; "Dec"] "".

(** [t.strftime(fmt)]: the directives the date formats of this module use,
    [%h] being the abbreviated month name; a directive the C library does
    not know ([%q]) is left in place. *)
Fixpoint strftime_chars (fmt : list ascii) (t : timestamp) : string :=
  match fmt with
  | [] => ""
  | "%"%char :: c :: rest =>
      (if decide (c = "Y"%char) then pad4 (ts_year t)
       else if decide (c = "m"%char) then pad2 (ts_month t)
       else if decide (c = "d"%char) then pad2 (ts_day t)
       else if decide (c = "H"%char) then pad2 (ts_hour t)
       else if decide (c = "M"%char) then pad2 (ts_minute t)
       else if decide (c = "S"%char) then pad2 (ts_second t)
       else if decide (c = "h"%char) then month_abbr (ts_month t)
       else if decide (c = "%"%char) then "%"
       else String "%" (String c ""))
      +:+ strftime_chars rest t
  | c :: rest => String c (strftime_chars rest t)
  end.

Definition strftime (fmt : string) (t : timestamp) : string :=
  strftime_chars (chars_of_string fmt) t.

(** ** String conversion *)

(** [str(v)], which is also ['{}'.format(v)]. *)
Definition py_str (v : scalar) : string :=
  match v with
  | VNone => "None"
  | VBool true => "True"
  | VBool false => "False"
  | VInt n => str_of_Z n
  | VFloat f => float_repr f
  | VStr s => s
  | VTimestamp t => timestamp_str t
  end.

(* ===================================================================== *)
(** * The value formatter *)
(* ===================================================================== *)

(** [s.lower()] on ASCII letters. *)
Definition lower_char (c : ascii) : ascii :=
  let n := nat_of_ascii c in
  if ((65 <=? n) && (n <=? 90))%nat then ascii_of_nat (n + 32) else c.

Fixpoint str_lower (s : string) : string :=
  match s with
  | EmptyString => EmptyString
  | String c s' => String (lower_char c) (str_lower s')
  end.

(** [prefix or ""]. *)
Definition or_empty (s : option string) : string := default "" s.

(** The largest precision a format specifier accepts. *)
Definition INT_MAX : Z := 2147483647.

(** The inner [format_numeric_value] of [display_value].  A negative or
    oversized precision is a [ValueError] of [str.format]. *)
Definition format_numeric_value (precision : option Z) (value : scalar) : result string :=
  match precision, value with
  | Some p, VFloat f =>
      if decide (0 ≤ p ≤ INT_MAX)%Z then Ok (format_fixed f (Z.to_nat p)) else Raise ValueError
  | _, _ =>
      match value with
      | VInt n => Ok (format_thousands n)
      | VBool b => Ok (format_thousands (Z.b2z b))
      | _ => Ok (py_str value)
      end
  end.

Definition display_value (value : scalar) (prefix suffix : option string)
    (precision : option Z) : result string :=
  let value := match value with
               | VBool _ => VStr (str_lower (py_str value))
               | _ => value
               end in
  formatted ← format_numeric_value precision value;
  Ok (or_empty prefix +:+ formatted +:+ or_empty suffix).

(* ===================================================================== *)
(** * Dictionaries *)
(* ===================================================================== *)

(** A [dict] with [str] keys, in insertion order. *)
Definition dict (V : Type) : Type := list (string * V).

Fixpoint dict_get {V} (d : dict V) (k : string) : option V :=
  match d with
  | [] => None
  | (k', v) :: d' => if decide (k = k') then Some v else dict_get d' k
  end.

(** [d[k] = v]: an existing key keeps its place. *)
Fixpoint dict_set {V} (d : dict V) (k : string) (v : V) : dict V :=
  match d with
  | [] => [(k, v)]
  | (k', v') :: d' =>
      if decide (k = k') then (k, v) :: d' else (k', v') :: dict_set d' k v
  end.

Definition dict_keys {V} (d : dict V) : list string := d.*1.

(** [a == b] on scalars: numbers compare by value across [bool], [int] and
    [float]; NaN equals nothing. *)
Definition num_val (v : scalar) : option Q :=
  match v with
  | VBool b => Some (inject_Z (Z.b2z b))
  | VInt n => Some (inject_Z n)
  | VFloat (S754_zero _) => Some (inject_Z 0)
  | VFloat (S754_finite s m e) =>
      Some (inject_Z (if s then Zneg m else Zpos m) * pow2Q e)%Q
  | _ => None
  end.

Definition py_eq (a b : scalar) : bool :=
  match num_val a, num_val b with
  | Some x, Some y => Qeq_bool x y
  | None, None =>
      match a, b with
      | VFloat S754_nan, _ | _, VFloat S754_nan => false
      | _, _ => bool_decide (a = b)
      end
  | _, _ => false
  end.

(** A [dict] keyed by scalars, read only. *)
Fixpoint vdict_get (d : list (scalar * scalar)) (k : scalar) : option scalar :=
  match d with
  | [] => None
  | (k', v) :: d' => if py_eq k k' then Some v else vdict_get d' k
  end.

(** For every dimension key, the display value of each raw value. *)
Definition display_values_map : Type := dict (list (scalar * scalar)).

(** Modelled from the spec: [fireant.utils.getdeepattr], the look-up of a
    key path in nested mappings, at the two-component paths
    [(level name, value)] this module uses; the default is returned when a
    component is missing. *)
Definition getdeepattr (d : display_values_map) (key : option string) (v : scalar)
    (default_value : scalar) : scalar :=
  match key with
  | None => default_value
  | Some k =>
      match dict_get d k with
      | None => default_value
      | Some d_level => default default_value (vdict_get d_level v)
      end
  end.

(** A row record: nested mappings with scalars at the leaves. *)
#[warnings="-register-all"]
Inductive node :=
| Leaf (v : scalar)
| Dict (entries : list (string * node)).

(** Modelled from the spec: [fireant.utils.setdeepattr], the assignment at a
    key path that creates the intermediate mappings it needs. *)
Fixpoint setdeepattr (d : dict node) (keys : list string) (value : node)
    : result (dict node) :=
  match keys with
  | [] => Raise ValueError
  | [top] => Ok (dict_set d top value)
  | top :: rest =>
      sub ← match dict_get d top with
            | None => Ok []
            | Some (Dict entries) => Ok entries
            | Some (Leaf _) => Raise TypeError
            end;
      sub' ← setdeepattr sub rest value;
      Ok (dict_set d top (Dict sub'))
  end.

(** The node at a key path. *)
Fixpoint getdeep (d : dict node) (keys : list string) : option node :=
  match keys with
  | [] => Some (Dict d)
  | top :: rest =>
      match dict_get d top, rest with
      | Some n, [] => Some n
      | Some (Dict entries), _ => getdeep entries rest
      | _, _ => None
      end
  end.

(* ===================================================================== *)
(** * Data frames *)
(* ===================================================================== *)

(** The row index of a frame. *)
Inductive Index :=
| RangeIndex (n : nat)
| FlatIndex (name : option string) (values : list scalar)
| MultiIndex (names : list (option string)) (tuples : list (list scalar)).

(** The column index of a frame; column labels are [str], the type
    ['.'.join] accepts. *)
Inductive Columns :=
| FlatColumns (name : option string) (labels : list string)
| MultiColumns (names : list (option string)) (tuples : list (list string)).

Record DataFrame := mkDataFrame {
  df_index : Index;
  df_columns : Columns;
  df_values : list (list scalar);    (* one list of cells per row *)
  df_name : option string           (* the attribute [name], when set *)
}.

Definition index_size (index : Index) : nat :=
  match index with
  | RangeIndex n => n
  | FlatIndex _ values => length values
  | MultiIndex _ tuples => length tuples
  end.

Definition index_names (index : Index) : list (option string) :=
  match index with
  | RangeIndex _ => [None]
  | FlatIndex name _ => [name]
  | MultiIndex names _ => names
  end.

(** The entries of an index as tuples (a scalar entry is wrapped). *)
Definition index_tuples (index : Index) : list (list scalar) :=
  match index with
  | RangeIndex n => (λ i, [VInt (Z.of_nat i)]) <$> seq 0 n
  | FlatIndex _ values => (λ v, [v]) <$> values
  | MultiIndex _ tuples => tuples
  end.

Definition columns_names (c : Columns) : list (option string) :=
  match c with
  | FlatColumns name _ => [name]
  | MultiColumns names _ => names
  end.

Definition columns_tuples (c : Columns) : list (list string) :=
  match c with
  | FlatColumns _ labels => (λ l, [l]) <$> labels
  | MultiColumns _ tuples => tuples
  end.

(** Every column tuple has one label per level; a multi-level column index
    has at least two levels. *)
Definition wf_columns (c : Columns) : Prop :=
  match c with
  | FlatColumns _ _ => True
  | MultiColumns names tuples =>
      (2 ≤ length names)%nat ∧ Forall (λ t, length t = length names) tuples
  end.

#[global] Instance wf_columns_dec c : Decision (wf_columns c).
Proof. destruct c; simpl; apply _. Defined.

(** ** Index normalisation *)

(** [func] applied at position [level] of a tuple; a missing entry is not a
    level value and stays as it is. *)
Definition map_tuple_level (level : nat) (func : scalar → result scalar)
    (row : list scalar) : result (list scalar) :=
  match row !! level with
  | None => Raise IndexError
  | Some x => if isnull x then Ok row else y ← func x; Ok (<[level := y]> row)
  end.

(** A single-level index whose entries are timestamps is a
    [DatetimeIndex]; [VNone] is its [NaT]. *)
Definition is_datetime_entry (x : scalar) : bool :=
  match x with VTimestamp _ | VNone => true | _ => false end.

Definition is_DatetimeIndex (values : list scalar) : bool :=
  forallb is_datetime_entry values.

(** [func] on an entry of a [DatetimeIndex]: a missing entry stays
    missing. *)
Definition map_present (func : scalar → result scalar) (x : scalar)
    : result scalar :=
  if isnull x then Ok x else func x.

Definition map_index_level (index : Index) (level : nat)
    (func : scalar → result scalar) : result Index :=
  (* If the index is empty, do not do anything *)
  if decide (0%nat = index_size index) then Ok index else
  match index with
  | MultiIndex names tuples =>
      tuples' ← mapR (map_tuple_level level func) tuples;
      Ok (MultiIndex names tuples')
  | FlatIndex name values =>
      if decide (level = 0%nat) then
        (* index.map(func): a DatetimeIndex is mapped as a whole and its
           missing entries stay missing for fillna_index; any other index
           is mapped entry by entry, missing entries included *)
        values' ← mapR (if is_DatetimeIndex values then map_present func else func)
                    values;
        Ok (FlatIndex name values')
      else Raise AssertionError
  | RangeIndex n =>
      if decide (level = 0%nat) then
        values' ← mapR func ((λ i, VInt (Z.of_nat i)) <$> seq 0 n);
        Ok (FlatIndex None values')
      else Raise AssertionError
  end.

Definition fillna_index (index : Index) (value : scalar) : Index :=
  let fill := λ x : scalar, if isnull x then value else x in
  match index with
  | MultiIndex names tuples => MultiIndex names (map (map fill) tuples)
  | FlatIndex name values => FlatIndex name (map fill values)
  | RangeIndex n => RangeIndex n
  end.

(** ** The pandas operations the transform applies to its input *)

(** The positions of the columns whose outermost label is [k]. *)
Fixpoint positions_from (i : nat) (tuples : list (list string)) (k : string) : list nat :=
  match tuples with
  | [] => []
  | t :: tuples' =>
      if decide (head t = Some k) then i :: positions_from (S i) tuples' k
      else positions_from (S i) tuples' k
  end.

Definition positions_of (c : Columns) (k : string) : list nat :=
  positions_from 0 (columns_tuples c) k.

Definition pick {A} (positions : list nat) (l : list A) : list A :=
  omap (λ i, l !! i) positions.

Definition take_columns (c : Columns) (positions : list nat) : Columns :=
  match c with
  | FlatColumns name labels => FlatColumns name (pick positions labels)
  | MultiColumns names tuples => MultiColumns names (pick positions tuples)
  end.

(** [df[labels]]: a new frame holding the requested columns, in the
    requested order; a label the frame does not have is a [KeyError]. *)
Definition getitem_list (df : DataFrame) (labels : list string) : result DataFrame :=
  positions ← mapR (λ k, match positions_of (df_columns df) k with
                         | [] => Raise KeyError
                         | ps => Ok ps
                         end) labels;
  let positions := concat positions in
  Ok {| df_index := df_index df;
        df_columns := take_columns (df_columns df) positions;
        df_values := pick positions <$> df_values df;
        df_name := None |}.

(** What the attribute look-up [data_frame.name] finds: nothing, the text
    the attribute was set to, or, when the frame has no such attribute of
    its own, the column labelled ['name'], which pandas hands out as an
    attribute. *)
Inductive name_attribute :=
| NoName
| NameText (name : string)
| NameColumn.

Definition getattr_name (df : DataFrame) : name_attribute :=
  match df_name df with
  | Some name => NameText name
  | None =>
      match positions_of (df_columns df) "name" with
      | [] => NoName
      | _ => NameColumn
      end
  end.

(** ** Row iteration *)

(** The element types of the cells of a frame. *)
Inductive dtype := int64 | float64 | bool_dtype | object_dtype.

#[global] Instance dtype_eq_dec : EqDecision dtype.
Proof. solve_decision. Defined.

Definition cell_dtype (x : scalar) : dtype :=
  match x with
  | VInt n =>
      if decide (- 2 ^ 63 ≤ n < 2 ^ 63)%Z then int64 else object_dtype
  | VFloat _ => float64
  | VBool _ => bool_dtype
  | _ => object_dtype
  end.

(** The element type of a column: that of its cells when they agree,
    [object] when they do not. *)
Definition column_dtype (cells : list scalar) : dtype :=
  match cells with
  | [] => object_dtype
  | x :: cells' =>
      if forallb (λ y, bool_decide (cell_dtype y = cell_dtype x)) cells'
      then cell_dtype x else object_dtype
  end.

(** The element type two columns have in common: integers beside floats
    are floats, any other mixture is [object]. *)
Definition common_dtype (a b : dtype) : dtype :=
  match a, b with
  | int64, int64 => int64
  | int64, float64 | float64, int64 | float64, float64 => float64
  | bool_dtype, bool_dtype => bool_dtype
  | _, _ => object_dtype
  end.

Definition column_cells (df : DataFrame) (j : nat) : list scalar :=
  (λ row, default VNone (row !! j)) <$> df_values df.

(** The element type of [data_frame.values], the one array that holds
    all cells. *)
Definition values_dtype (df : DataFrame) : dtype :=
  match (λ j, column_dtype (column_cells df j)) <$>
          seq 0 (length (columns_tuples (df_columns df))) with
  | [] => object_dtype
  | d :: ds => foldl common_dtype d ds
  end.

(** The binary64 nearest to an integer. *)
Definition float_of_int (n : Z) : spec_float := binary_normalize 53 1024 n 0 false.

(** A cell as an element of an array of type [d]. *)
Definition astype (d : dtype) (x : scalar) : scalar :=
  match d, x with
  | float64, VInt n => VFloat (float_of_int n)
  | _, _ => x
  end.

(** [data_frame.iterrows()]: every index entry with its row as one
    Series, built from the row of [data_frame.values]; the cells of a row
    have the element type of the whole array, so an integer cell of a frame
    that also has a column of floats arrives as a float. *)
Definition iterrows (df : DataFrame) : list (list scalar * list scalar) :=
  zip (index_tuples (df_index df))
      ((λ row : list scalar, astype (values_dtype df) <$> row) <$> df_values df).

(** [df.copy()]: a new frame; an ad-hoc attribute is not carried over. *)
Definition copy (df : DataFrame) : DataFrame :=
  {| df_index := df_index df; df_columns := df_columns df;
     df_values := df_values df; df_name := None |}.

Definition map_cells (f : scalar → scalar) (df : DataFrame) : DataFrame :=
  {| df_index := df_index df; df_columns := df_columns df;
     df_values := map (map f) (df_values df); df_name := None |}.

(** [df.fillna(value=v)]: a new frame. *)
Definition fillna (v : scalar) (df : DataFrame) : DataFrame :=
  map_cells (λ x, if isnull x then v else x) df.

Definition is_inf (x : scalar) : bool :=
  match x with VFloat (S754_infinity _) => true | _ => false end.

(** [df.replace([np.inf, -np.inf], v)]: a new frame. *)
Definition replace_inf (v : scalar) (df : DataFrame) : DataFrame :=
  map_cells (λ x, if is_inf x then v else x) df.

(** [df[k]] for one label: the cells of the column, or a [KeyError]. *)
Definition getitem (df : DataFrame) (k : string) : result (list scalar) :=
  match positions_of (df_columns df) k with
  | [] => Raise KeyError
  | i :: _ => Ok ((λ row, default VNone (row !! i)) <$> df_values df)
  end.

(** [del df[k]]: the frame without the columns labelled [k]. *)
Definition delitem (df : DataFrame) (k : string) : result DataFrame :=
  match positions_of (df_columns df) k with
  | [] => Raise KeyError
  | _ =>
      let keep := filter (λ i, i ∉ positions_of (df_columns df) k)
                    (seq 0 (length (columns_tuples (df_columns df)))) in
      Ok {| df_index := df_index df;
            df_columns := take_columns (df_columns df) keep;
            df_values := pick keep <$> df_values df;
            df_name := df_name df |}
  end.

(** The values of the index level called [k], or a [KeyError]. *)
Definition level_values (index : Index) (k : string) : result (list scalar) :=
  match index with
  | RangeIndex _ => Raise KeyError
  | FlatIndex name values =>
      if decide (name = Some k) then Ok values else Raise KeyError
  | MultiIndex names tuples =>
      match list_find (λ n, n = Some k) names with
      | None => Raise KeyError
      | Some (i, _) => Ok ((λ t, default VNone (t !! i)) <$> tuples)
      end
  end.

(** [series.groupby(level).first()]: for every level value that is not
    missing, the first cell of its rows that is not missing, NaN when
    there is none. *)
Fixpoint group_first (acc : list (scalar * scalar)) (rows : list (scalar * scalar))
    : list (scalar * scalar) :=
  match rows with
  | [] => acc
  | (k, x) :: rows' =>
      if isnull k then group_first acc rows' else
      match vdict_get acc k with
      | None => group_first (acc ++ [(k, x)]) rows'
      | Some old =>
          if isnull old && negb (isnull x)
          then group_first ((λ e, if py_eq k e.1 then (e.1, x) else e) <$> acc) rows'
          else group_first acc rows'
      end
  end.

Definition fill_first (d : list (scalar * scalar)) : list (scalar * scalar) :=
  (λ e, (e.1, if isnull e.2 then VStr "null" else e.2)) <$> d.

(* ===================================================================== *)
(** * Descriptors *)
(* ===================================================================== *)

Inductive interval :=
  hourly | daily | weekly | monthly | quarterly | annually | other_interval (n : nat).

#[global] Instance interval_eq_dec : EqDecision interval.
Proof. solve_decision. Defined.

(** What the transform reads of a dimension. *)
Record Dimension := mkDimension {
  d_key : string;
  d_label : option string;            (* [None]: no attribute [label] *)
  d_has_display_field : bool;
  d_display_key : string;
  d_display_values : option (list (scalar * scalar));
                                      (* [None]: no attribute [display_values] *)
  d_interval : option interval        (* [Some i]: a [DatetimeDimension] *)
}.

(** What the transform reads of a metric. *)
Record Metric := mkMetric {
  m_key : string;
  m_label : string;
  m_prefix : option string;
  m_suffix : option string;
  m_precision : option Z
}.

(** The entries of the item map: a [ReferenceItem] or [TotalsItem]. *)
Record Item := mkItem {
  i_key : string;
  i_label : string;
  i_prefix : option string;
  i_suffix : option string;
  i_precision : option Z
}.

Definition DATE_FORMATS : list (interval * string) :=
  [ (hourly, "%Y-%m-%d %h");
    (daily, "%Y-%m-%d");
    (weekly, "%Y-%m");
    (monthly, "%Y");
    (quarterly, "%Y-%q");
    (annually, "%Y") ].

Fixpoint DATE_FORMATS_get (table : list (interval * string)) (i : interval)
    (default_value : string) : string :=
  match table with
  | [] => default_value
  | (i', fmt) :: table' =>
      if decide (i = i') then fmt else DATE_FORMATS_get table' i default_value
  end.

(** A node of the column header tree: [Header], and [columns] for a group
    or [accessor] for a leaf, and [className] on a totals node. *)
#[warnings="-register-all"]
Inductive column :=
  mkColumn (Header : scalar) (columns : option (list column))
           (accessor : option string) (className : option string).

Definition Header (c : column) : scalar := let 'mkColumn h _ _ _ := c in h.
Definition columns (c : column) : option (list column) := let 'mkColumn _ s _ _ := c in s.
Definition accessor (c : column) : option string := let 'mkColumn _ _ a _ := c in a.
Definition className (c : column) : option string := let 'mkColumn _ _ _ n := c in n.

(** The accessors of the leaves below a node. *)
Fixpoint leaf_accessors (c : column) : list string :=
  match c with
  | mkColumn _ (Some cs) _ _ => concat (map leaf_accessors cs)
  | mkColumn _ None (Some a) _ => [a]
  | mkColumn _ None None _ => []
  end.

(** The result of the transform. *)
Record Output := mkOutput {
  out_columns : list column;
  out_data : list (dict node)
}.

(** ** Grouping a column index by its outermost level *)

(** The distinct keys, in increasing order. *)
Fixpoint insert_key (k : string) (ks : list string) : list string :=
  match ks with
  | [] => [k]
  | k' :: ks' =>
      if decide (k = k') then ks
      else if String.ltb k k' then k :: ks
      else k' :: insert_key k ks'
  end.

Definition group_keys (tuples : list (list string)) : list string :=
  foldr insert_key [] (omap head tuples).

(** [frame.groupby(level=0)]: one group per key, holding the tuples under
    that key in their order. *)
Definition groupby_level0 (tuples : list (list string))
    : list (string * list (list string)) :=
  (λ k, (k, filter (λ t, head t = Some k) tuples)) <$> group_keys tuples.

(** [group.reset_index(level=0, drop=True)]. *)
Definition drop_level0 (tuples : list (list string)) : list (list string) :=
  tail <$> tuples.

(** The [groups] of [_make_columns]: the groups of the outermost level when
    levels remain below it ([names'] is not empty), else every entry of the
    flat index with no group. *)
Definition level_groups (names' : list (option string)) (tuples : list (list string))
    : list (string * option (list (list string))) :=
  match names' with
  | [] => (λ t, (default "" (head t), None)) <$> tuples
  | _ => (λ g, (g.1, Some g.2)) <$> groupby_level0 tuples
  end.

(* ===================================================================== *)
(** * Modifiers: objects, attribute reads and writes *)
(* ===================================================================== *)

(** What an attribute can hold: a scalar, a reference to an object,
    pypika's [NullValue()], or a member a class defines (a method). *)
Inductive attr :=
| AScalar (v : scalar)
| ARef (l : positive)
| ANullValue
| AMember (name : string).

(** An ordinary class, given by its class attributes, or one of the
    classes of the module. *)
Inductive pyclass :=
| Plain (members : list (string * attr))
| Modifier
| DimensionModifier
| FilterModifier
| Rollup
| OmitFromRollup.

(** An object: its class and its own state, [__dict__]. *)
Record pyobject := mkObject {
  ob_class : pyclass;
  ob_dict : gmap string attr
}.

Abbreviation objects := (gmap positive pyobject).

Definition is_modifier (c : pyclass) : bool :=
  match c with Plain _ => false | _ => true end.

(** The class attribute [wrapped_key]. *)
Definition wrapped_key (c : pyclass) : string :=
  match c with
  | DimensionModifier | Rollup => "dimension"
  | FilterModifier | OmitFromRollup => "filter"
  | _ => "wrapped"
  end.

(** The names every object finds on its class. *)
Definition object_members : list string :=
  [ "__class__"; "__delattr__"; "__dict__"; "__dir__"; "__doc__"; "__eq__";
    "__format__"; "__ge__"; "__getattribute__"; "__gt__"; "__hash__";
    "__init__"; "__init_subclass__"; "__le__"; "__lt__"; "__module__";
    "__ne__"; "__new__"; "__reduce__"; "__reduce_ex__"; "__repr__";
    "__setattr__"; "__sizeof__"; "__str__"; "__subclasshook__"; "__weakref__" ].

(** The names the body of [Modifier] defines, besides [wrapped_key]. *)
Definition modifier_members : list string :=
  [ "__init__"; "__copy__"; "__deepcopy__"; "__getattr__"; "__setattr__";
    "__hash__"; "__repr__"; "for_" ].

(** A property of the class: it is found before the state of the object. *)
Definition class_property (c : pyclass) (name : string) : option attr :=
  match c with
  | Rollup => if decide (name = "definition") then Some ANullValue else None
  | _ => None
  end.

(** An attribute of the class that is not a property. *)
Definition class_attribute (c : pyclass) (name : string) : option attr :=
  match c with
  | Plain members =>
      match dict_get members name with
      | Some a => Some a
      | None => if decide (name ∈ object_members) then Some (AMember name) else None
      end
  | _ =>
      if decide (name = "wrapped_key") then Some (AScalar (VStr (wrapped_key c)))
      else if decide (name ∈ modifier_members ∨ name ∈ object_members)
           then Some (AMember name) else None
  end.

(** The wrapper class holds the name itself. *)
Definition class_holds (c : pyclass) (name : string) : bool :=
  bool_decide (is_Some (class_property c name) ∨ is_Some (class_attribute c name)).

(** [object.__getattribute__(o, name)], which is also
    [super().__getattribute__(name)]: a property, the own state, the class. *)
Definition object_getattribute (o : pyobject) (name : string) : result attr :=
  match class_property (ob_class o) name with
  | Some a => Ok a
  | None =>
      match ob_dict o !! name with
      | Some a => Ok a
      | None =>
          match class_attribute (ob_class o) name with
          | Some a => Ok a
          | None => Raise AttributeError
          end
      end
  end.

(** [object.__setattr__(o, name, value)]: a property without a setter
    refuses, anything else lands in the own state. *)
Definition object_setattr (o : pyobject) (name : string) (value : attr)
    : result pyobject :=
  match class_property (ob_class o) name with
  | Some _ => Raise AttributeError
  | None => Ok (mkObject (ob_class o) (<[name := value]> (ob_dict o)))
  end.

(** The slot name as the instance sees it. *)
Definition get_wrapped_key (o : pyobject) : result string :=
  a ← object_getattribute o "wrapped_key";
  match a with
  | AScalar (VStr k) => Ok k
  | _ => Raise TypeError
  end.

(** [getattr(target, name)].  [Modifier.__getattr__] runs when the normal
    look-up fails; the fuel is the depth of the interpreter's stack. *)
Fixpoint py_getattr (fuel : nat) (h : objects) (target : attr) (name : string)
    : result attr :=
  match fuel with
  | O => Raise RecursionError
  | S fuel' =>
      match target with
      | ARef l =>
          match h !! l with
          | None => Raise AttributeError
          | Some o =>
              match object_getattribute o name with
              | Ok a => Ok a
              | Raise _ =>
                  if is_modifier (ob_class o) then
                    (* Modifier.__getattr__ *)
                    if decide (is_Some (ob_dict o !! name))
                    then object_getattribute o name
                    else
                      wrapped_key ← get_wrapped_key o;
                      wrapped ← object_getattribute o wrapped_key;
                      py_getattr fuel' h wrapped name
                  else Raise AttributeError
              end
          end
      | _ => Raise AttributeError
      end
  end.

(** [setattr(target, name, value)], with [Modifier.__setattr__] for the
    classes of the module. *)
Fixpoint py_setattr (fuel : nat) (h : objects) (target : attr) (name : string)
    (value : attr) : result objects :=
  match fuel with
  | O => Raise RecursionError
  | S fuel' =>
      match target with
      | ARef l =>
          match h !! l with
          | None => Raise AttributeError
          | Some o =>
              let set_locally := o' ← object_setattr o name value; Ok (<[l := o']> h) in
              if is_modifier (ob_class o) then
                (* Modifier.__setattr__ *)
                wrapped_key ← get_wrapped_key o;
                if decide (name = wrapped_key) then set_locally
                else
                  wrapped ← object_getattribute o wrapped_key;
                  wrapped_dict ← match wrapped with
                                 | ARef lw =>
                                     match h !! lw with
                                     | Some w => Ok (ob_dict w)
                                     | None => Raise AttributeError
                                     end
                                 | _ => Raise AttributeError
                                 end;
                  if decide (is_Some (wrapped_dict !! name))
                  then py_setattr fuel' h wrapped name value
                  else set_locally
              else set_locally
          end
      | _ => Raise AttributeError
      end
  end.

(** The depth of the interpreter's stack. *)
Definition recursion_limit : nat := 1000.

(** [cls(wrapped)]: a new object, then [Modifier.__init__]. *)
Definition new_modifier (c : pyclass) (wrapped : attr) (h : objects)
    : result (positive * objects) :=
  let l := fresh (dom h) in
  let h := <[l := mkObject c ∅]> h in
  wrapped_key ← (o ← match h !! l with Some o => Ok o | None => Raise AttributeError end;
                 get_wrapped_key o);
  h ← py_setattr recursion_limit h (ARef l) wrapped_key wrapped;
  Ok (l, h).

(** [d.update(other)]: the entries of [other] win. *)
Definition dict_update (d other : gmap string attr) : gmap string attr := other ∪ d.

(** [Modifier.__copy__]: a new object of the class of [self], its state
    updated with the state of [self]. *)
Definition modifier_copy (h : objects) (self : positive)
    : result (positive * objects) :=
  o ← match h !! self with Some o => Ok o | None => Raise AttributeError end;
  let cls := ob_class o in
  (* result = cls.__new__(cls) *)
  let result := fresh (dom h) in
  let h := <[result := mkObject cls ∅]> h in
  (* result.__dict__.update(self.__dict__) *)
  r ← match h !! result with Some r => Ok r | None => Raise AttributeError end;
  s ← match h !! self with Some s => Ok s | None => Raise AttributeError end;
  let h := <[result := mkObject (ob_class r) (dict_update (ob_dict r) (ob_dict s))]> h in
  Ok (result, h).

(** [c_n(...c_2(c_1(w)))] for the classes [c_1; c_2; ...; c_n]: the first
    class wraps [w], every further class wraps the wrapper before it. *)
Fixpoint wrap_all (cs : list pyclass) (w : attr) (h : objects)
    : result (attr * objects) :=
  match cs with
  | [] => Ok (w, h)
  | c :: cs' => '(l, h') ← new_modifier c w h; wrap_all cs' (ARef l) h'
  end.
(* ===================================================================== *)
(** * Notions used to state the properties *)
(* ===================================================================== *)

(** A precision the format specifier accepts, or none. *)
Definition valid_precision (precision : option Z) : Prop :=
  match precision with
  | Some p => (0 ≤ p ≤ INT_MAX)%Z
  | None => True
  end.

(** What the formatter puts between prefix and suffix, case by case:
    booleans first, floats with a precision, integers, anything else. *)
Definition formatted_value (v : scalar) (precision : option Z) : string :=
  match v with
  | VBool b => if b then "true" else "false"
  | VFloat f =>
      match precision with
      | Some p => format_fixed f (Z.to_nat p)
      | None => py_str v
      end
  | VInt n => format_thousands n
  | _ => py_str v
  end.

Definition is_digit (c : ascii) : bool :=
  let n := nat_of_ascii c in ((48 <=? n) && (n <=? 57))%nat.

Fixpoint digits_only (s : string) : bool :=
  match s with
  | EmptyString => true
  | String c s' => is_digit c && digits_only s'
  end.

(** The binary64 nearest to 3.14159. *)
Definition float_3_14159 : spec_float := S754_finite false 7074231776675438 (-51).

(** What [fillna('NaN')] followed by [replace([inf, -inf], 'Inf')] makes of
    a cell. *)
Definition fill_cell (x : scalar) : scalar :=
  if isnull x then VStr "NaN" else if is_inf x then VStr "Inf" else x.

(** Every key path of a record, to an inner mapping or to a leaf. *)
Fixpoint node_paths (n : node) : list (list string) :=
  match n with
  | Leaf _ => [[]]
  | Dict entries =>
      [] :: (fix go (es : list (string * node)) : list (list string) :=
               match es with
               | [] => []
               | (k, n') :: es' => (map (cons k) (node_paths n') ++ go es')%list
               end) entries
  end.

Definition key_paths (row : dict node) : list (list string) :=
  filter (λ p, p ≠ []) (node_paths (Dict row)).

(** The accessor is the dot-joined form of a key path of the record. *)
Definition has_key_path (row : dict node) (accessor : string) : Prop :=
  accessor ∈ (String.concat "." <$> key_paths row).

#[global] Instance has_key_path_dec row accessor : Decision (has_key_path row accessor).
Proof. unfold has_key_path. apply _. Defined.

(** The frame has one row of cells per index entry and one cell per
    column in each row. *)
Definition wf_frame (df : DataFrame) : Prop :=
  wf_columns (df_columns df) ∧
  length (df_values df) = index_size (df_index df) ∧
  Forall (λ row, length row = length (columns_tuples (df_columns df))) (df_values df).

#[global] Instance wf_frame_dec df : Decision (wf_frame df).
Proof. unfold wf_frame. apply _. Defined.

(** The accessors of all leaves of a header tree. *)
Definition all_leaf_accessors (cols : list column) : list string :=
  concat (map leaf_accessors cols).

(* ===================================================================== *)
(** * The widget *)
(* ===================================================================== *)

(** The widget: its metrics, the dimensions to pivot, the transpose flag. *)
Record ReactTable := mkReactTable {
  items : list Metric;
  pivot : list Dimension;
  transpose : bool
}.

(** The widget as an object: its metrics and pivoted dimensions are
    references to shared descriptors. *)
Record ReactTableObject := mkReactTableObject {
  items_ref : list positive;
  pivot_ref : list positive;
  transpose_flag : bool
}.

(* ===================================================================== *)
(** * The heap of the transform *)
(* ===================================================================== *)

(** The objects the transform shares with its caller or builds: data
    frames, dimensions and metrics. *)
Inductive object :=
| ODataFrame (df : DataFrame)
| ODimension (d : Dimension)
| OMetric (m : Metric).

Abbreviation heap := (gmap positive object).

(** Row by row, the cells of [A] are cells of [B]. *)
Definition rows_within (A B : list (list scalar)) : Prop :=
  Forall2 (λ a b, ∀ x, x ∈ a → x ∈ b) A B.

(** Every row of the frame has one cell per column. *)
Definition aligned (df : DataFrame) : Prop :=
  Forall (λ row, length row = length (columns_tuples (df_columns df))) (df_values df).

(** Row by row, every cell of [A] is the cell of [B] under the same
    column labels. *)
Definition columns_within (A B : DataFrame) : Prop :=
  Forall2 (λ a b, ∀ e, e ∈ zip (columns_tuples (df_columns A)) a →
                       e ∈ zip (columns_tuples (df_columns B)) b)
          (df_values A) (df_values B).

(** Every entry of the index has one value per level. *)
Definition index_aligned (index : Index) : Prop :=
  Forall (λ t, length t = length (index_names index)) (index_tuples index).

#[global] Instance index_aligned_dec index : Decision (index_aligned index).
Proof. unfold index_aligned. apply _. Defined.

(** A frame without rows, with a flat column index. *)
Definition empty_frame (index : Index) (name : option string)
    (labels : list string) (attr_name : option string) : DataFrame :=
  {| df_index := index; df_columns := FlatColumns name labels;
     df_values := []; df_name := attr_name |}.

(** What a leaf accessor ends with: the name of the frame, when it has one. *)
Definition name_suffix (name : name_attribute) : list string :=
  match name with NameText s => [s] | _ => [] end.

(** Two index entries are missing together or present together. *)
Definition same_nulls (x y : scalar) : Prop := isnull x = isnull y.

(** The text without its thousands separators. *)
Definition remove_separators (s : string) : string :=
  string_of_chars (filter (λ c, c ≠ ","%char) (chars_of_string s)).

(** Read from the right: digits, a separator after every third digit,
    and a digit after every separator.  [k] counts the digits of the
    current group. *)
Fixpoint grouped_rev (k : nat) (l : list ascii) : bool :=
  match l with
  | [] => true
  | c :: l' =>
      match k with
      | 3%nat =>
          bool_decide (c = ","%char) &&
          match l' with
          | d :: l'' => is_digit d && grouped_rev 1 l''
          | [] => false
          end
      | _ => is_digit c && grouped_rev (S k) l'
      end
  end.

Definition well_grouped (s : string) : bool :=
  grouped_rev 0 (rev (chars_of_string s)).

(** [DATE_FORMATS.get(interval, DATE_FORMATS[daily])]. *)
Definition date_format (i : interval) : string :=
  DATE_FORMATS_get DATE_FORMATS i (DATE_FORMATS_get DATE_FORMATS daily "").

(** Two timestamps of the same calendar day. *)
Definition same_day (t t' : timestamp) : Prop :=
  ts_year t = ts_year t' ∧ ts_month t = ts_month t' ∧ ts_day t = ts_day t'.

(* ===================================================================== *)
(** * Concrete instances *)
(* ===================================================================== *)

(** The constants of [fireant.formats] and the key formats of
    [fireant.utils], as instances for the examples below. *)
Definition raw_key : string := "raw".
Definition totals_key : string := "~~totals".
Definition dimension_key_format (k : string) : string := "$d$" +:+ k.
Definition metric_key_format (k : string) : string := "$m$" +:+ k.

(** A reference is given by its tag. *)
Definition tagged_key (item : Metric) (reference : option string) : string :=
  match reference with
  | None => m_key item
  | Some tag => m_key item +:+ "_" +:+ tag
  end.

Definition tagged_label (item : Metric) (reference : option string) : string :=
  match reference with
  | None => m_label item
  | Some tag => m_label item +:+ " (" +:+ tag +:+ ")"
  end.

Definition plain_dimension (k label : string) : Dimension :=
  {| d_key := k; d_label := Some label; d_has_display_field := false;
     d_display_key := ""; d_display_values := None; d_interval := None |}.

(** A pivot stage that has nothing to pivot and does not transpose. *)
Definition no_pivot (df : DataFrame) (keys : list string) (transpose : bool)
    : result DataFrame := Ok df.

(** An ordinary object whose own state has an attribute [wrapped]. *)
Definition object_with_wrapped : pyobject :=
  mkObject (Plain []) {[ "wrapped" := AScalar (VInt 1) ]}.

(** An ordinary object with an attribute [label] in its own state. *)
Definition labelled_object : pyobject :=
  mkObject (Plain [("kind", AScalar (VStr "dimension"))])
           {[ "label" := AScalar (VStr "Region") ]}.

(** One metric, [sales], and the item map the transform builds for it. *)
Definition sales : Metric :=
  {| m_key := "sales"; m_label := "Sales"; m_prefix := Some "$";
     m_suffix := None; m_precision := Some 2%Z |}.

Definition sales_item_map : dict Item :=
  [ ("$m$sales", {| i_key := "sales"; i_label := "Sales"; i_prefix := Some "$";
                    i_suffix := None; i_precision := Some 2%Z |});
    ("~~totals", {| i_key := "~~totals"; i_label := "Totals"; i_prefix := None;
                    i_suffix := None; i_precision := None |}) ].

Definition region : Dimension := plain_dimension "region" "Region".

(** Regions in the rows, dates pivoted into the columns under the metrics
    level; the second row and the second column are totals. *)
Definition pivoted_frame : DataFrame :=
  {| df_index := FlatIndex (Some "$d$region") [VStr "east"; VStr "~~totals"];
     df_columns := MultiColumns [Some "$d$metrics"; Some "$d$date"]
                     [["$m$sales"; "2019"]; ["$m$sales"; "~~totals"]];
     df_values := [[VInt 1200; VInt 1500]; [VInt 7000; VInt 9000]];
     df_name := None |}.

(** The same table with the metrics level collapsed: the columns are the
    dates and the frame is named after the sole metric. *)
Definition collapsed_frame : DataFrame :=
  {| df_index := FlatIndex (Some "$d$region") [VStr "east"];
     df_columns := FlatColumns (Some "$d$date") ["2019"];
     df_values := [[VInt 1200]];
     df_name := Some "$m$sales" |}.


(** The binary64 one half. *)
Definition float_half : spec_float := S754_finite false 4503599627370496 (-53).

(** A table with a column of integers beside a column of floats; only the
    first has a descriptor in the item map. *)
Definition mixed_frame : DataFrame :=
  {| df_index := FlatIndex (Some "$d$region") [VStr "east"];
     df_columns := FlatColumns (Some "$d$metrics") ["$m$sales"; "$m$rate"];
     df_values := [[VInt 1; VFloat float_half]];
     df_name := None |}.

(** A table with a column labelled ['name']. *)
Definition name_column_frame : DataFrame :=
  {| df_index := FlatIndex (Some "$d$region") [VStr "east"];
     df_columns := FlatColumns (Some "$d$kind") ["name"; "size"];
     df_values := [[VStr "a"; VInt 1]];
     df_name := None |}.

(** A result set before the transform: a missing region, a missing and an
    infinite cell. *)
Definition raw_frame : DataFrame :=
  {| df_index := FlatIndex (Some "$d$region") [VStr "east"; VNone];
     df_columns := FlatColumns None ["$m$sales"];
     df_values := [[VFloat S754_nan]; [VFloat (S754_infinity false)]];
     df_name := None |}.

(** A result set without rows. *)
Definition empty_index : Index := FlatIndex (Some "$d$region") [].

(** A widget for the metric, with nothing pivoted and no transposition. *)
Definition sales_table : ReactTable :=
  {| items := [sales]; pivot := []; transpose := false |}.

(** A heap that holds the result set, the dimension and the metric. *)
Definition caller_heap : heap :=
  {[ 1%positive := ODataFrame raw_frame;
     2%positive := ODimension region;
     3%positive := OMetric sales ]}.

Definition sales_table_object : ReactTableObject :=
  {| items_ref := [3%positive]; pivot_ref := []; transpose_flag := false |}.

(** A heap that holds one ordinary object, and one that also holds a
    rollup of it. *)
Definition object_heap : objects := {[ 1%positive := labelled_object ]}.

Definition wrapper_heap : objects :=
  {[ 1%positive := labelled_object;
     2%positive := mkObject Rollup {[ "dimension" := ARef 1%positive ]} ]}.

(** A dimension object with a [definition] in its own state. *)
Definition defined_dimension : pyobject :=
  mkObject (Plain []) {[ "definition" := AScalar (VStr "region_id") ]}.

(** Noon and evening of the same day. *)
Definition new_year_noon : timestamp := Timestamp 2019 1 1 12 0 0.
Definition new_year_evening : timestamp := Timestamp 2019 1 1 18 30 0.

(** An hourly datetime dimension and a result set indexed by it. *)
Definition hour : Dimension :=
  {| d_key := "hour"; d_label := Some "Hour"; d_has_display_field := false;
     d_display_key := ""; d_display_values := None; d_interval := Some hourly |}.

Definition hourly_frame : DataFrame :=
  {| df_index := FlatIndex (Some "$d$hour")
                   (VTimestamp <$> [new_year_noon; new_year_evening]);
     df_columns := FlatColumns None ["$m$sales"];
     df_values := [[VInt 10]; [VInt 20]];
     df_name := None |}.

(** A result set indexed by the hourly dimension with the row of its
    rollup: the index entry of that row is missing. *)
Definition rolled_up_frame : DataFrame :=
  {| df_index := FlatIndex (Some "$d$hour") [VTimestamp new_year_noon; VNone];
     df_columns := FlatColumns None ["$m$sales"];
     df_values := [[VInt 10]; [VInt 30]];
     df_name := None |}.

(** A dimension with a display field, and a result set that carries its
    display column before the metric; the second display is missing. *)
Definition country : Dimension :=
  {| d_key := "country"; d_label := Some "Country"; d_has_display_field := true;
     d_display_key := "country_display"; d_display_values := None;
     d_interval := None |}.

Definition display_frame : DataFrame :=
  {| df_index := FlatIndex (Some "$d$country") [VStr "us"; VStr "de"; VStr "us"];
     df_columns := FlatColumns None ["$m$sales"; "$d$country_display"];
     df_values := [[VInt 10; VStr "United States"];
                   [VInt 20; VNone];
                   [VInt 30; VStr "USA"]];
     df_name := None |}.

(** Display values for the dates of the pivoted table. *)
Definition date_display_values : display_values_map :=
  [("$d$date", [(VStr "2019", VStr "Year 2019")])].
(* ===================================================================== *)
(** * The ReactTable widget *)
(* ===================================================================== *)

Section ReactTable.

(** The constants and helpers of [fireant.formats], [fireant.utils] and
    [fireant.slicer.references] that the module imports. *)
Variable RAW_VALUE : string.
Variable TOTALS_VALUE : string.
Variable format_dimension_key : string → string.
Variable format_metric_key : string → string.
Variable Reference : Type.
Variable reference_key : Metric → option Reference → string.
Variable reference_label : Metric → option Reference → string.

(** The constructor call [Dimension('metrics', '')] of the module. *)
Variable Dimension_init : string → string → Dimension.

(** [Pandas.pivot_data_frame], inherited by the widget. *)
Variable pivot_data_frame : DataFrame → list string → bool → result DataFrame.

Definition metrics : Dimension := Dimension_init "metrics" "".
Definition metrics_dimension_key : string := format_dimension_key (d_key metrics).

Definition ReferenceItem (item : Metric) (reference : option Reference) : Item :=
  {| i_key := match reference with
              | None => m_key item
              | Some _ => reference_key item reference
              end;
     i_label := match reference with
                | None => m_label item
                | Some _ => reference_label item reference
                end;
     i_prefix := m_prefix item;
     i_suffix := m_suffix item;
     i_precision := m_precision item |}.

Definition TotalsItem : Item :=
  {| i_key := TOTALS_VALUE; i_label := "Totals";
     i_prefix := None; i_suffix := None; i_precision := None |}.

(** ** map_display_values *)

Definition map_display_values_step (acc : display_values_map * DataFrame)
    (dimension : Dimension) : result (display_values_map * DataFrame) :=
  let '(dimension_display_values, df) := acc in
  let f_dimension_key := format_dimension_key (d_key dimension) in
  '(dimension_display_values, df) ←
    (if d_has_display_field dimension then
       let f_display_key := format_dimension_key (d_display_key dimension) in
       series ← getitem df f_display_key;
       level ← level_values (df_index df) f_dimension_key;
       let firsts := fill_first (group_first [] (zip level series)) in
       df' ← delitem df f_display_key;
       Ok (dict_set dimension_display_values f_dimension_key firsts, df')
     else Ok (dimension_display_values, df));
  match d_display_values dimension with
  | Some display_values =>
      Ok (dict_set dimension_display_values f_dimension_key display_values, df)
  | None => Ok (dimension_display_values, df)
  end.

(** Returns the display values and the frame as the deletions leave it. *)
Definition map_display_values (df : DataFrame) (dimensions : list Dimension)
    : result (display_values_map * DataFrame) :=
  foldR map_display_values_step ([], df) dimensions.

(** ** format_data_frame *)

Definition set_index (df : DataFrame) (index : Index) : DataFrame :=
  {| df_index := index; df_columns := df_columns df;
     df_values := df_values df; df_name := df_name df |}.

(** [data_frame.columns.name = name]. *)
Definition set_columns_name (df : DataFrame) (name : string) : DataFrame :=
  {| df_index := df_index df;
     df_columns := match df_columns df with
                   | FlatColumns _ labels => FlatColumns (Some name) labels
                   | MultiColumns names tuples => MultiColumns names tuples
                   end;
     df_values := df_values df; df_name := df_name df |}.

(** [lambda dt: dt.strftime(date_format)]. *)
Definition strftime_value (date_format : string) (dt : scalar) : result scalar :=
  match dt with
  | VTimestamp t => Ok (VStr (strftime date_format t))
  | _ => Raise AttributeError
  end.

Definition format_data_frame_step (data_frame : DataFrame)
    (entry : nat * Dimension) : result DataFrame :=
  let '(i, dimension) := entry in
  match d_interval dimension with
  | Some interval =>
      let date_format :=
        DATE_FORMATS_get DATE_FORMATS interval
          (DATE_FORMATS_get DATE_FORMATS daily "") in
      index ← map_index_level (df_index data_frame) i (strftime_value date_format);
      Ok (set_index data_frame index)
  | None => Ok data_frame
  end.

(** Returns the frame as the assignments leave it. *)
Definition format_data_frame (data_frame : DataFrame) (dimensions : list Dimension)
    : result DataFrame :=
  data_frame ← foldR format_data_frame_step data_frame
                 (imap (λ i d, (i, d)) dimensions);
  let data_frame :=
    set_index data_frame (fillna_index (df_index data_frame) (VStr TOTALS_VALUE)) in
  Ok (set_columns_name data_frame metrics_dimension_key).

(** ** transform_dimension_column_headers *)

Definition is_RangeIndex (index : Index) : bool :=
  match index with RangeIndex _ => true | _ => false end.

Definition dimension_label (dimension : Dimension) : string :=
  default (d_key dimension) (d_label dimension).

Definition transform_dimension_column_headers (data_frame : DataFrame)
    (dimensions : list Dimension) : result (list column) :=
  let dimension_map :=
    foldl (λ m d, dict_set m (format_dimension_key (d_key d)) d) []
          (dimensions ++ [metrics])%list in
  if is_RangeIndex (df_index data_frame) then Ok [] else
  mapR (λ name,
          match name ≫= dict_get dimension_map with
          | None => Raise KeyError
          | Some dimension =>
              Ok (mkColumn (VStr (dimension_label dimension)) None name None)
          end)
       (index_names (df_index data_frame)).

(** ** transform_metric_column_headers *)

Section Headers.
(** What [data_frame.name] finds on the frame of the enclosing call. *)
Variable data_frame_name : name_attribute.
Variable item_map : dict Item.
Variable dimension_display_values : display_values_map.

Definition get_header (column_value : string) (f_dimension_key : option string)
    (is_totals : bool) : result scalar :=
  if bool_decide (f_dimension_key = Some metrics_dimension_key) || is_totals then
    match dict_get item_map column_value with
    | None => Raise KeyError
    | Some item => Ok (VStr (i_label item))
    end
  else
    Ok (getdeepattr dimension_display_values f_dimension_key
          (VStr column_value) (VStr column_value)).

(** The body of the loop of [_make_columns] for one group;
    [recurse] is [_make_columns] on the frame one level down. *)
Definition make_column
    (recurse : list (list string) → list string → result (list column))
    (f_dimension_key : option string) (previous_levels : list string)
    (g : string * option (list (list string))) : result column :=
  let '(column_value, group) := g in
  let is_totals := bool_decide (TOTALS_VALUE = column_value) in
  (* All column definitions have a header *)
  header ← get_header column_value f_dimension_key is_totals;
  let levels := (previous_levels ++ [column_value])%list in
  body ← match group with
         | Some group =>
             (* drop this index level from the group and recurse *)
             let next_level_df := drop_level0 group in
             sub ← recurse next_level_df levels;
             Ok (Some sub, None)
         | None =>
             (* a leaf: the accessor of the column *)
             levels ← match data_frame_name with
                      | NameText name => Ok (levels ++ [name])%list
                      | NoName => Ok levels
                      | NameColumn =>
                          (* '.'.join(levels) with a column among the levels *)
                          Raise TypeError
                      end;
             Ok (None, Some (String.concat "." levels))
         end;
  Ok (mkColumn header body.1 body.2
        (if is_totals then Some "fireant-totals" else None)).

(** The column index is given by its level names and its tuples; the
    recursion drops the outermost level. *)
Fixpoint _make_columns (names : list (option string))
    (tuples : list (list string)) (previous_levels : list string)
    {struct names} : result (list column) :=
  match names with
  | [] => Raise IndexError
  | f_dimension_key :: names' =>
      let groups := level_groups names' tuples in
      mapR (make_column (_make_columns names') f_dimension_key previous_levels)
           groups
  end.
End Headers.

Definition transform_metric_column_headers (data_frame : DataFrame)
    (item_map : dict Item) (dimension_display_values : display_values_map)
    : result (list column) :=
  _make_columns (getattr_name data_frame) item_map dimension_display_values
    (columns_names (df_columns data_frame))
    (columns_tuples (df_columns data_frame)) [].

(** ** transform_data *)

(** [{RAW_VALUE: value}], with [display] added when it is not [None]. *)
Definition cell_value (value display : scalar) : node :=
  let data := [(RAW_VALUE, Leaf value)] in
  Dict (match display with
        | VNone => data
        | _ => dict_set data "display" (Leaf display)
        end).

(** [item if item not in item_map else item_map[item].label]. *)
Definition index_item (item_map : dict Item) (item : scalar) : scalar :=
  match item with
  | VStr s =>
      match dict_get item_map s with
      | Some it => VStr (i_label it)
      | None => item
      end
  | _ => item
  end.

Definition add_index_cell (dimension_display_values : display_values_map)
    (row : dict node) (entry : option string * scalar) : dict node :=
  match entry.1 with
  | None => row
  | Some key =>
      let value := entry.2 in
      let display := getdeepattr dimension_display_values (Some key) value VNone in
      dict_set row key (cell_value value display)
  end.

(** [display_value(value, ...) if item is not None else value]. *)
Definition value_display (item : option Item) (value : scalar) : result scalar :=
  match item with
  | Some item =>
      s ← display_value value (i_prefix item) (i_suffix item) (i_precision item);
      Ok (VStr s)
  | None => Ok value
  end.

Definition add_value_cell (item_map : dict Item) (row : dict node)
    (entry : list string * scalar) : result (dict node) :=
  let '(key, value) := entry in
  (* Try to find a display value for the item *)
  top ← match head key with Some k => Ok k | None => Raise IndexError end;
  display ← value_display (dict_get item_map top) value;
  setdeepattr row key (cell_value value display).

Definition transform_row (data_frame : DataFrame) (item_map : dict Item)
    (dimension_display_values : display_values_map)
    (entry : list scalar * list scalar) : result (dict node) :=
  let '(index, series) := entry in
  let index := index_item item_map <$> index in
  (* Add the index to the row *)
  let row := foldl (add_index_cell dimension_display_values) []
               (zip (index_names (df_index data_frame)) index) in
  (* Add the values to the row *)
  foldR (add_value_cell item_map) row
        (zip (columns_tuples (df_columns data_frame)) series).

Definition transform_data (data_frame : DataFrame) (item_map : dict Item)
    (dimension_display_values : display_values_map) : result (list (dict node)) :=
  mapR (transform_row data_frame item_map dimension_display_values)
       (iterrows data_frame).

(** ** transform *)

(** The item map of the call: one entry per metric and reference, in
    order, a later entry of the same key replacing the earlier one. *)
Definition make_item_map (self : ReactTable) (references : list Reference)
    : dict Item :=
  foldl (λ m kv, dict_set m kv.1 kv.2) []
    (i ← items self;
     reference ← None :: (Some <$> references);
     [(format_metric_key (reference_key i reference), ReferenceItem i reference)]).

Definition display_columns (dimensions : list Dimension) : list string :=
  (λ d, format_dimension_key (d_display_key d)) <$>
    filter (λ d, d_has_display_field d = true) dimensions.

(** The private frame: the selected columns, copied, NaN and infinities
    replaced by text. *)
Definition select_and_fill (data_frame : DataFrame) (labels : list string)
    : result DataFrame :=
  df ← getitem_list data_frame labels;
  Ok (replace_inf (VStr "Inf") (fillna (VStr "NaN") (copy df))).

(** The header and row builders applied to the pivoted frame. *)
Definition build_output (df : DataFrame) (dimensions : list Dimension)
    (item_map : dict Item) (dimension_display_values : display_values_map)
    : result Output :=
  dimension_columns ← transform_dimension_column_headers df dimensions;
  metric_columns ← transform_metric_column_headers df item_map dimension_display_values;
  data ← transform_data df item_map dimension_display_values;
  Ok {| out_columns := (dimension_columns ++ metric_columns)%list;
        out_data := data |}.

(** The transform as a function of the values it reads (the parameter
    [slicer] is not used). *)
Definition transform (self : ReactTable) (data_frame : DataFrame)
    (dimensions : list Dimension) (references : list Reference) : result Output :=
  let df_dimension_columns := display_columns dimensions in
  let item_map := make_item_map self references in
  let df_metric_columns := dict_keys item_map in
  (* Add an extra item to map the totals key to it's label *)
  let item_map := dict_set item_map TOTALS_VALUE TotalsItem in
  df ← select_and_fill data_frame (df_dimension_columns ++ df_metric_columns)%list;
  '(dimension_display_values, df) ← map_display_values df dimensions;
  df ← format_data_frame df dimensions;
  let dimension_keys := (λ d, format_dimension_key (d_key d)) <$> pivot self in
  df ← pivot_data_frame df dimension_keys (transpose self);
  build_output df dimensions item_map dimension_display_values.

(** ** The transform on the object heap

    The caller's frame and the descriptors are objects of the heap; an
    expression that builds a pandas object allocates, a statement that
    assigns to an attribute or deletes a column writes in place. *)


(** A computation on the heap that may raise; the heap survives. *)
Definition St (A : Type) : Type := heap → result A * heap.

Definition st_ret {A} (a : A) : St A := λ σ, (Ok a, σ).
Definition st_bind {A B} (c : St A) (f : A → St B) : St B :=
  λ σ, match c σ with
       | (Ok a, σ') => f a σ'
       | (Raise e, σ') => (Raise e, σ')
       end.
Definition st_lift {A} (r : result A) : St A := λ σ, (r, σ).

Notation "'do' x <- c ; k" := (st_bind c (λ x, k))
  (at level 10, x pattern, c at level 100, k at level 200).

Definition alloc (o : object) : St positive :=
  λ σ, let l := fresh (dom σ) in (Ok l, <[l := o]> σ).

Definition read_frame (l : positive) : St DataFrame :=
  λ σ, match σ !! l with
       | Some (ODataFrame df) => (Ok df, σ)
       | _ => (Raise TypeError, σ)
       end.

Definition read_dimension (l : positive) : St Dimension :=
  λ σ, match σ !! l with
       | Some (ODimension d) => (Ok d, σ)
       | _ => (Raise AttributeError, σ)
       end.

Definition read_metric (l : positive) : St Metric :=
  λ σ, match σ !! l with
       | Some (OMetric m) => (Ok m, σ)
       | _ => (Raise AttributeError, σ)
       end.

Definition write_frame (l : positive) (df : DataFrame) : St unit :=
  λ σ, (Ok (), <[l := ODataFrame df]> σ).

Fixpoint st_map {A B} (f : A → St B) (xs : list A) : St (list B) :=
  match xs with
  | [] => st_ret []
  | x :: xs' => do y <- f x; do ys <- st_map f xs'; st_ret (y :: ys)
  end.

(** A method that mutates the frame at [l]: the frame is read, and what
    the method leaves is written back. *)
Definition in_place {A} (l : positive) (f : DataFrame → result (A * DataFrame))
    : St A :=
  do df <- read_frame l;
  do r <- st_lift (f df);
  do _ <- write_frame l r.2;
  st_ret r.1.

Definition transform_on_heap (self : ReactTableObject) (data_frame : positive)
    (dimensions : list positive) (references : list Reference) : St Output :=
  do dims <- st_map read_dimension dimensions;
  do its <- st_map read_metric (items_ref self);
  do pivots <- st_map read_dimension (pivot_ref self);
  let self_values := mkReactTable its pivots (transpose_flag self) in
  let df_dimension_columns := display_columns dims in
  let item_map := make_item_map self_values references in
  let df_metric_columns := dict_keys item_map in
  let item_map := dict_set item_map TOTALS_VALUE TotalsItem in
  (* df = data_frame[...].copy().fillna(...).replace(...) *)
  do original <- read_frame data_frame;
  do selected <- st_lift (getitem_list original
                            (df_dimension_columns ++ df_metric_columns)%list);
  do l1 <- alloc (ODataFrame selected);
  do selected <- read_frame l1;
  do l2 <- alloc (ODataFrame (copy selected));
  do copied <- read_frame l2;
  do l3 <- alloc (ODataFrame (fillna (VStr "NaN") copied));
  do filled <- read_frame l3;
  do df <- alloc (ODataFrame (replace_inf (VStr "Inf") filled));
  (* both methods mutate df *)
  do dimension_display_values <-
    in_place df (λ d, map_display_values d dims);
  do _ <- in_place df (λ d, r ← format_data_frame d dims; Ok ((), r));
  let dimension_keys := (λ d, format_dimension_key (d_key d)) <$> pivots in
  do current <- read_frame df;
  do pivoted <- st_lift (pivot_data_frame current dimension_keys (transpose_flag self));
  do df <- alloc (ODataFrame pivoted);
  do pivoted <- read_frame df;
  st_lift (build_output pivoted dims item_map dimension_display_values).


(** ** Notions used to state the properties of the widget *)

(** Every node of the header tree, paired with the group it was built
    from: the node carries the totals marker exactly when the value of the
    group is the totals sentinel, and then its header is "Totals". *)
Fixpoint totals_invariant (names : list (option string))
    (tuples : list (list string)) (cols : list column) {struct names} : Prop :=
  match names with
  | [] => False
  | _ :: names' =>
      Forall2 (λ g c,
                 (className c = Some "fireant-totals" ↔ g.1 = TOTALS_VALUE) ∧
                 (g.1 = TOTALS_VALUE → Header c = VStr "Totals") ∧
                 match g.2, columns c with
                 | Some group, Some sub =>
                     totals_invariant names' (drop_level0 group) sub
                 | None, None => True
                 | _, _ => False
                 end)
              (level_groups names' tuples) cols
  end.

(** The entries of a cell: [raw], then [display] unless it is [None]. *)
Definition cell_entries (raw display : scalar) : list (string * node) :=
  (RAW_VALUE, Leaf raw) ::
  match display with
  | VNone => []
  | _ => [("display", Leaf display)]
  end.

(** An index entry after normalisation: the sentinel where the entry was
    missing, something that is not missing elsewhere. *)
Definition normalized_entry (before after : scalar) : Prop :=
  if isnull before then after = VStr TOTALS_VALUE else isnull after = false.

(** A computation keeps the objects of [σ0]: run on a heap that holds
    them unchanged, it leaves a heap that holds them unchanged, whether it
    returns or raises, and what it returns satisfies [Q]. *)
Definition keeps (σ0 : heap) {A} (c : St A) (Q : A → Prop) : Prop :=
  ∀ σ, σ0 ⊆ σ →
    σ0 ⊆ (c σ).2 ∧ match (c σ).1 with Ok a => Q a | Raise _ => True end.

(** A column definition derived from the descriptor of an index level. *)
Definition dimension_header (dimensions : list Dimension)
    (name : option string) (c : column) : Prop :=
  accessor c = name ∧ columns c = None ∧ className c = None ∧
  ∃ d, d ∈ (dimensions ++ [metrics])%list ∧
       name = Some (format_dimension_key (d_key d)) ∧
       Header c = VStr (dimension_label d).

(** A column definition derived from the descriptor of a metric. *)
Definition metric_header (item_map : dict Item) (label : string) (c : column) : Prop :=
  accessor c = Some label ∧ columns c = None ∧
  ∃ item, dict_get item_map label = Some item ∧ Header c = VStr (i_label item).


(** An index level that names a dimension of the call, or the metrics
    pseudo-dimension. *)
Definition level_described (dimensions : list Dimension) (name : option string)
    : Prop :=
  ∃ d, d ∈ (dimensions ++ [metrics])%list ∧
       name = Some (format_dimension_key (d_key d)).

(** Every label the header builder looks up in the item map is there: the
    labels of the metrics level, and the totals sentinel wherever it
    stands. *)
Definition header_items_described (item_map : dict Item)
    (names : list (option string)) (tuples : list (list string)) : Prop :=
  ∀ t j k, t ∈ tuples → t !! j = Some k →
    names !! j = Some (Some metrics_dimension_key) ∨ k = TOTALS_VALUE →
    is_Some (dict_get item_map k).

(** The pairs the item map is built from, in the order of the
    comprehension: every metric of the widget, under no reference and then
    under every reference of the call. *)
Definition item_pairs (self : ReactTable) (references : list Reference)
    : list (string * Item) :=
  i ← items self;
  reference ← None :: (Some <$> references);
  [(format_metric_key (reference_key i reference), ReferenceItem i reference)].

(** The header text of a node built from the value [v] of the level [f]:
    the label of the descriptor on the metrics level and for the totals
    sentinel, else the display value of [v], else [v]. *)
Definition header_text (item_map : dict Item)
    (dimension_display_values : display_values_map)
    (f : option string) (v : string) (h : scalar) : Prop :=
  if decide (f = Some metrics_dimension_key ∨ v = TOTALS_VALUE)
  then ∃ item, dict_get item_map v = Some item ∧ h = VStr (i_label item)
  else h = getdeepattr dimension_display_values f (VStr v) (VStr v).

(** Every node of the header tree, at every depth, has the header text
    of the value it was built from. *)
Fixpoint header_texts (item_map : dict Item)
    (dimension_display_values : display_values_map)
    (names : list (option string)) (tuples : list (list string))
    (cols : list column) {struct names} : Prop :=
  match names with
  | [] => False
  | f :: names' =>
      Forall2 (λ g c,
                 header_text item_map dimension_display_values f g.1 (Header c) ∧
                 match g.2, columns c with
                 | Some group, Some sub =>
                     header_texts item_map dimension_display_values names'
                       (drop_level0 group) sub
                 | None, None => True
                 | _, _ => False
                 end)
              (level_groups names' tuples) cols
  end.

(* =================================================================== *)
(** ** Exceptions and loops *)
(* =================================================================== *)

Lemma bind_Ok {A B} (r : result A) (f : A → result B) (b : B) :
  r ≫= f = Ok b → ∃ a, r = Ok a ∧ f a = Ok b.
Proof. destruct r as [a|e]; simpl; [eauto | discriminate]. Qed.

Lemma bind_Ok_eq {A B} (r : result A) (f : A → result B) (a : A) :
  r = Ok a → r ≫= f = f a.
Proof. by intros ->. Qed.

(** Propositional goals are closed without the constants of the module in
    the context. *)
Ltac pure_tauto :=
  try clear pivot_data_frame; try clear Dimension_init;
  try clear reference_key; try clear reference_label; try clear Reference;
  try clear format_metric_key; try clear format_dimension_key;
  try clear RAW_VALUE; try clear TOTALS_VALUE;
  tauto.

Ltac inv_bind H :=
  let a := fresh "a" in
  let Ha := fresh "H" a in
  apply bind_Ok in H as (a & Ha & H).

Lemma mapR_Ok {A B} (f : A → result B) (xs : list A) (ys : list B) :
  mapR f xs = Ok ys → Forall2 (λ x y, f x = Ok y) xs ys.
Proof.
  revert ys. induction xs as [|x xs IH]; intros ys H; simpl in H.
  - injection H as <-. constructor.
  - inv_bind H. inv_bind H. injection H as <-. constructor; auto.
Qed.

Lemma mapR_nil {A B} (f : A → result B) : mapR f [] = Ok [].
Proof. reflexivity. Qed.

Lemma mapR_total {A B} (f : A → result B) (xs : list A) :
  Forall (λ x, ∃ y, f x = Ok y) xs → ∃ ys, mapR f xs = Ok ys.
Proof.
  induction 1 as [|x xs [y Hy] _ [ys Hys]]; simpl; [by eexists|].
  rewrite Hy; simpl. rewrite Hys; simpl. by eexists.
Qed.

Lemma Forall2_elem_of_r {A B} (P : A → B → Prop) xs ys y :
  Forall2 P xs ys → y ∈ ys → ∃ x, x ∈ xs ∧ P x y.
Proof.
  induction 1 as [|x' y' xs ys HP _ IH]; intros Hin.
  - by apply elem_of_nil in Hin.
  - apply elem_of_cons in Hin as [-> | Hin].
    + exists x'. split; [left | done].
    + destruct (IH Hin) as (x & ? & ?). exists x. split; [by right | done].
Qed.

Lemma Forall2_elem_of_l {A B} (P : A → B → Prop) xs ys x :
  Forall2 P xs ys → x ∈ xs → ∃ y, y ∈ ys ∧ P x y.
Proof.
  induction 1 as [|x' y' xs ys HP _ IH]; intros Hin.
  - by apply elem_of_nil in Hin.
  - apply elem_of_cons in Hin as [-> | Hin].
    + exists y'. split; [left | done].
    + destruct (IH Hin) as (y & ? & ?). exists y. split; [by right | done].
Qed.

(* =================================================================== *)
(** ** Dictionaries and key paths *)
(* =================================================================== *)

Lemma dict_get_set_eq {V} (d : dict V) k v : dict_get (dict_set d k v) k = Some v.
Proof.
  induction d as [|[k' v'] d IH]; simpl.
  - by rewrite decide_True.
  - destruct (decide (k = k')) as [->|Hne]; simpl.
    + by rewrite decide_True.
    + by rewrite decide_False.
Qed.

Lemma dict_get_set_ne {V} (d : dict V) k k' v :
  k ≠ k' → dict_get (dict_set d k' v) k = dict_get d k.
Proof.
  intros Hne. induction d as [|[k2 v2] d IH]; simpl.
  - by rewrite decide_False.
  - destruct (decide (k' = k2)) as [->|Hne2]; simpl.
    + by rewrite !decide_False.
    + destruct (decide (k = k2)); [done | apply IH].
Qed.

Lemma getdeep_cons (d : dict node) top rest :
  rest ≠ [] →
  getdeep d (top :: rest) =
    match dict_get d top with
    | Some (Dict entries) => getdeep entries rest
    | _ => None
    end.
Proof.
  intros Hr. simpl. destruct (dict_get d top) as [[v|es]|]; destruct rest; done.
Qed.

Lemma getdeep_single (d : dict node) top : getdeep d [top] = dict_get d top.
Proof. simpl. by destruct (dict_get d top) as [[v|es]|]. Qed.

Lemma setdeepattr_cons (d : dict node) top rest v :
  rest ≠ [] →
  setdeepattr d (top :: rest) v =
    (sub ← match dict_get d top with
           | None => Ok []
           | Some (Dict entries) => Ok entries
           | Some (Leaf _) => Raise TypeError
           end;
     sub' ← setdeepattr sub rest v;
     Ok (dict_set d top (Dict sub'))).
Proof. intros Hr. destruct rest; [done | reflexivity]. Qed.

(** A path that was assigned leads to the assigned node. *)
Lemma getdeep_setdeepattr_eq (keys : list string) :
  ∀ d v d', setdeepattr d keys v = Ok d' → getdeep d' keys = Some v.
Proof.
  induction keys as [|top rest IH]; intros d v d' H; [discriminate|].
  destruct (decide (rest = [])) as [->|Hr].
  - simpl in H. injection H as <-. by rewrite getdeep_single, dict_get_set_eq.
  - rewrite setdeepattr_cons in H by done.
    inv_bind H. inv_bind H. injection H as <-.
    rewrite getdeep_cons, dict_get_set_eq by done. eauto.
Qed.

(** An assignment leaves the other paths of the same length alone. *)
Lemma getdeep_setdeepattr_ne (keys' : list string) :
  ∀ keys d v d' n,
    length keys = length keys' → keys ≠ keys' →
    setdeepattr d keys' v = Ok d' →
    getdeep d keys = Some n → getdeep d' keys = Some n.
Proof.
  induction keys' as [|top' rest' IH]; intros keys d v d' n Hlen Hne H Hget;
    [discriminate|].
  destruct keys as [|top rest]; [discriminate|].
  destruct (decide (rest' = [])) as [->|Hr'].
  - destruct rest; [|discriminate].
    simpl in H. injection H as <-.
    rewrite getdeep_single in *. rewrite dict_get_set_ne; [done | congruence].
  - assert (rest ≠ []) as Hr by (destruct rest, rest'; done).
    rewrite setdeepattr_cons in H by done.
    inv_bind H. inv_bind H. injection H as <-.
    rewrite getdeep_cons in * by done.
    destruct (decide (top = top')) as [->|Ht].
    + rewrite dict_get_set_eq.
      destruct (dict_get d top') as [[x|es]|]; try done.
      injection Ha as <-.
      eapply IH; eauto. congruence.
    + by rewrite dict_get_set_ne.
Qed.

(** An assignment leaves the entries under other first components alone. *)
Lemma dict_get_setdeepattr_ne (keys : list string) d v d' k :
  head keys ≠ Some k → setdeepattr d keys v = Ok d' →
  dict_get d' k = dict_get d k.
Proof.
  destruct keys as [|top rest]; intros Hh H; [discriminate|].
  assert (k ≠ top) by (simpl in Hh; congruence).
  destruct (decide (rest = [])) as [->|Hr].
  - simpl in H. injection H as <-. by rewrite dict_get_set_ne.
  - rewrite setdeepattr_cons in H by done.
    inv_bind H. inv_bind H. injection H as <-. by rewrite dict_get_set_ne.
Qed.

Lemma elem_of_positions_from (tuples : list (list string)) k :
  ∀ i j, j ∈ positions_from i tuples k ↔
         (i ≤ j)%nat ∧ ∃ t, tuples !! (j - i)%nat = Some t ∧ head t = Some k.
Proof.
  induction tuples as [|t tuples IH]; intros i j; simpl.
  - rewrite elem_of_nil. split; [done|]. by intros (_ & t & Ht & _).
  - assert (j ∈ positions_from (S i) tuples k ↔
            (i < j)%nat ∧ ∃ t', tuples !! (j - S i)%nat = Some t' ∧ head t' = Some k)
      as Hrest.
    { rewrite IH. split; intros [? ?]; (split; [lia | done]). }
    destruct (decide (head t = Some k)) as [Hh|Hh].
    + rewrite elem_of_cons, Hrest. split.
      * intros [->|(Hlt & t' & Ht' & Hh')].
        -- split; [lia|]. exists t. by rewrite Nat.sub_diag.
        -- split; [lia|]. exists t'. split; [|done].
           replace (j - i)%nat with (S (j - S i)) by lia. done.
      * intros (Hle & t' & Ht' & Hh').
        destruct (decide (j = i)) as [->|Hne]; [by left|]. right.
        split; [lia|]. exists t'. split; [|done].
        replace (j - i)%nat with (S (j - S i)) in Ht' by lia. done.
    + rewrite Hrest. split.
      * intros (Hlt & t' & Ht' & Hh').
        split; [lia|]. exists t'. split; [|done].
        replace (j - i)%nat with (S (j - S i)) by lia. done.
      * intros (Hle & t' & Ht' & Hh').
        destruct (decide (j = i)) as [->|Hne].
        { rewrite Nat.sub_diag in Ht'. simpl in Ht'. congruence. }
        split; [lia|]. exists t'. split; [|done].
        replace (j - i)%nat with (S (j - S i)) in Ht' by lia. done.
Qed.


(* =================================================================== *)
(** ** The column header tree *)
(* =================================================================== *)

Lemma elem_of_insert_key (x k : string) (ks : list string) :
  x ∈ insert_key k ks ↔ x = k ∨ x ∈ ks.
Proof.
  induction ks as [|k' ks IH]; simpl.
  - rewrite list_elem_of_singleton, elem_of_nil. pure_tauto.
  - destruct (decide (k = k')) as [->|Hne].
    { rewrite !elem_of_cons. pure_tauto. }
    destruct (String.ltb k k').
    { rewrite !elem_of_cons. pure_tauto. }
    rewrite !elem_of_cons, IH. pure_tauto.
Qed.

Lemma elem_of_group_keys (k : string) (tuples : list (list string)) :
  k ∈ group_keys tuples ↔ ∃ t, t ∈ tuples ∧ head t = Some k.
Proof.
  unfold group_keys. induction tuples as [|t tuples IH]; simpl.
  - split; [intros H; by apply elem_of_nil in H | intros (t & H & _); by apply elem_of_nil in H].
  - destruct (head t) as [k'|] eqn:Ht; simpl.
    + rewrite elem_of_insert_key, IH. split.
      * intros [-> | (t' & Hin & Hh)]; [exists t; split; [left | done] |].
        exists t'. split; [by right | done].
      * intros (t' & Hin & Hh). apply elem_of_cons in Hin as [-> | Hin].
        -- left. congruence.
        -- right. eauto.
    + rewrite IH. split.
      * intros (t' & Hin & Hh). exists t'. split; [by right | done].
      * intros (t' & Hin & Hh). apply elem_of_cons in Hin as [-> | Hin]; [congruence | eauto].
Qed.

Lemma elem_of_all_leaf_accessors (a : string) (cols : list column) :
  a ∈ all_leaf_accessors cols ↔ ∃ c, c ∈ cols ∧ a ∈ leaf_accessors c.
Proof.
  unfold all_leaf_accessors. rewrite list_elem_of_In, in_concat.
  split.
  - intros (l & Hl & Ha). apply in_map_iff in Hl as (c & <- & Hc).
    exists c. by rewrite !list_elem_of_In.
  - intros (c & Hc & Ha). exists (leaf_accessors c).
    rewrite <- !list_elem_of_In. split; [|done].
    apply list_elem_of_In, in_map, list_elem_of_In, Hc.
Qed.

Lemma make_column_leaf name im ddv recurse f prev cv c :
  make_column name im ddv recurse f prev (cv, None) = Ok c →
  columns c = None ∧
  accessor c = Some (String.concat "." (prev ++ [cv] ++ name_suffix name)%list).
Proof.
  unfold make_column. intros H. inv_bind H. inv_bind H.
  injection H as <-. inv_bind Ha0. injection Ha0 as <-. simpl. split; [done|].
  destruct name; simplify_eq/=; [done | by rewrite <- app_assoc].
Qed.

Lemma make_column_leaf_name name im ddv recurse f prev cv c :
  make_column name im ddv recurse f prev (cv, None) = Ok c → name ≠ NameColumn.
Proof.
  unfold make_column. intros H. inv_bind H. inv_bind H. inv_bind Ha0.
  by intros ->.
Qed.

Lemma make_column_group name im ddv recurse f prev cv g c :
  make_column name im ddv recurse f prev (cv, Some g) = Ok c →
  accessor c = None ∧
  ∃ sub, recurse (drop_level0 g) (prev ++ [cv])%list = Ok sub ∧ columns c = Some sub.
Proof.
  unfold make_column. intros H. inv_bind H. inv_bind H. inv_bind Ha0.
  injection Ha0 as <-. injection H as <-. simpl. eauto.
Qed.

Lemma leaf_accessors_leaf (c : column) a :
  columns c = None → accessor c = Some a → leaf_accessors c = [a].
Proof. destruct c as [h [s|] [x|] n]; simpl; congruence. Qed.

Lemma leaf_accessors_group (c : column) sub :
  columns c = Some sub → leaf_accessors c = all_leaf_accessors sub.
Proof. destruct c as [h [s|] x n]; simpl; [|done]. by intros [= ->]. Qed.

(** The leaves below the nodes [_make_columns] returns are the columns of
    the frame: each accessor is the accumulated path, the labels of the
    column and the name of the frame when it has one, joined with dots. *)
Lemma make_columns_leaves name im ddv (names : list (option string)) :
  ∀ tuples prev cols,
    names ≠ [] →
    Forall (λ t, length t = length names) tuples →
    _make_columns name im ddv names tuples prev = Ok cols →
    ∀ a, a ∈ all_leaf_accessors cols ↔
         ∃ t, t ∈ tuples ∧
              a = String.concat "." (prev ++ t ++ name_suffix name)%list.
Proof.
  induction names as [|f names' IH]; intros tuples prev cols Hne Hlen H a; [done|].
  simpl in H. apply mapR_Ok in H.
  rewrite elem_of_all_leaf_accessors.
  destruct names' as [|f2 names''].
  - (* a flat index: every entry is a leaf *)
    unfold level_groups in H. apply Forall2_fmap_l in H.
    split.
    + intros (c & Hc & Ha).
      destruct (Forall2_elem_of_r _ _ _ _ H Hc) as (t & Ht & Hstep).
      apply make_column_leaf in Hstep as [Hcols Hacc].
      rewrite (leaf_accessors_leaf _ _ Hcols Hacc) in Ha.
      apply list_elem_of_singleton in Ha as ->.
      exists t. split; [done|].
      rewrite Forall_forall in Hlen. specialize (Hlen t Ht).
      destruct t as [|l [|]]; simplify_eq/=. done.
    + intros (t & Ht & ->).
      destruct (Forall2_elem_of_l _ _ _ _ H Ht) as (c & Hc & Hstep).
      exists c. split; [done|].
      apply make_column_leaf in Hstep as [Hcols Hacc].
      rewrite (leaf_accessors_leaf _ _ Hcols Hacc).
      rewrite Forall_forall in Hlen. specialize (Hlen t Ht).
      destruct t as [|l [|]]; simplify_eq/=. apply list_elem_of_singleton. done.
  - (* several levels: one node per group, the leaves are below *)
    unfold level_groups, groupby_level0 in H.
    rewrite <- list_fmap_compose in H. apply Forall2_fmap_l in H.
    assert (∀ k, Forall (λ t, length t = length (f2 :: names''))
                   (drop_level0 (filter (λ t, head t = Some k) tuples))) as Hsub.
    { intros k. unfold drop_level0. apply Forall_fmap, Forall_forall.
      intros t Ht. apply list_elem_of_filter in Ht as [_ Ht].
      rewrite Forall_forall in Hlen. specialize (Hlen t Ht).
      destruct t; simpl in *; lia. }
    split.
    + intros (c & Hc & Ha).
      destruct (Forall2_elem_of_r _ _ _ _ H Hc) as (k & Hk & Hstep).
      unfold compose in Hstep. cbn [fst snd] in Hstep.
      apply make_column_group in Hstep as (_ & sub & Hrec & Hcols).
      rewrite (leaf_accessors_group _ _ Hcols) in Ha.
      assert (f2 :: names'' ≠ []) as Hnn by done.
      destruct (IH _ _ _ Hnn (Hsub k) Hrec a) as [Hfw _].
      destruct (Hfw Ha) as (t' & Ht' & Heq).
      unfold drop_level0 in Ht'. apply list_elem_of_fmap in Ht' as (t & Htl & Ht).
      apply list_elem_of_filter in Ht as [Hh Ht].
      exists t. split; [done|].
      rewrite Heq, Htl. destruct t as [|l t]; [discriminate|].
      injection Hh as ->. simpl. by rewrite <- !app_assoc.
    + intros (t & Ht & ->).
      rewrite Forall_forall in Hlen. pose proof (Hlen t Ht) as Hl.
      destruct t as [|k t']; [discriminate|].
      assert (k ∈ group_keys tuples) as Hk.
      { apply elem_of_group_keys. by exists (k :: t'). }
      destruct (Forall2_elem_of_l _ _ _ _ H Hk) as (c & Hc & Hstep).
      exists c. split; [done|].
      unfold compose in Hstep. cbn [fst snd] in Hstep.
      apply make_column_group in Hstep as (_ & sub & Hrec & Hcols).
      rewrite (leaf_accessors_group _ _ Hcols).
      assert (f2 :: names'' ≠ []) as Hnn by done.
      apply (IH _ _ _ Hnn (Hsub k) Hrec).
      exists t'. split.
      * unfold drop_level0. apply list_elem_of_fmap. exists (k :: t').
        split; [done|]. apply list_elem_of_filter. done.
      * by rewrite <- !app_assoc.
Qed.

Lemma columns_tuples_wf (c : Columns) :
  wf_columns c →
  columns_names c ≠ [] ∧
  Forall (λ t, length t = length (columns_names c)) (columns_tuples c).
Proof.
  destruct c as [name labels | names tuples]; simpl.
  - intros _. split; [done|]. apply Forall_fmap, Forall_forall. done.
  - intros [Hn Hall]. split; [|done]. destruct names; simpl in *; [lia | done].
Qed.

(** The leaves of the header tree of a frame are its columns. *)
Lemma headers_leaves (data_frame : DataFrame) (item_map : dict Item)
    (dimension_display_values : display_values_map) (cols : list column) :
  wf_columns (df_columns data_frame) →
  transform_metric_column_headers data_frame item_map dimension_display_values
    = Ok cols →
  ∀ a, a ∈ all_leaf_accessors cols ↔
       ∃ t, t ∈ columns_tuples (df_columns data_frame) ∧
            a = String.concat "." (t ++ name_suffix (getattr_name data_frame))%list.
Proof.
  intros Hwf H a. apply columns_tuples_wf in Hwf as [Hne Hlen].
  unfold transform_metric_column_headers in H.
  by rewrite (make_columns_leaves _ _ _ _ _ _ _ Hne Hlen H a).
Qed.

Lemma name_suffix_getattr (data_frame : DataFrame) :
  name_suffix (getattr_name data_frame) =
    match df_name data_frame with Some name => [name] | None => [] end.
Proof.
  unfold getattr_name. destruct (df_name data_frame); [done|].
  by destruct (positions_of _ _).
Qed.

(** A header tree with a leaf is built only when the attribute look-up
    finds no column. *)
Lemma make_columns_name name im ddv (names : list (option string)) :
  ∀ tuples prev cols,
    Forall (λ t, length t = length names) tuples → tuples ≠ [] →
    _make_columns name im ddv names tuples prev = Ok cols →
    name ≠ NameColumn.
Proof.
  induction names as [|f names' IH]; intros tuples prev cols Hlen Hne H; [done|].
  simpl in H. apply mapR_Ok in H.
  destruct tuples as [|t tuples]; [done|].
  apply Forall_cons in Hlen as Hlen'. destruct Hlen' as [Ht _].
  destruct names' as [|f2 names''].
  - unfold level_groups in H. apply Forall2_fmap_l in H.
    inversion H as [|? c ? ? Hstep]; subst.
    by apply make_column_leaf_name in Hstep.
  - unfold level_groups, groupby_level0 in H.
    rewrite <- list_fmap_compose in H. apply Forall2_fmap_l in H.
    destruct t as [|k t']; [done|].
    assert (k ∈ group_keys ((k :: t') :: tuples)) as Hk.
    { apply elem_of_group_keys. exists (k :: t'). split; [left | done]. }
    destruct (Forall2_elem_of_l _ _ _ _ H Hk) as (c & _ & Hstep).
    unfold compose in Hstep. cbn [fst snd] in Hstep.
    apply make_column_group in Hstep as (_ & sub & Hrec & _).
    eapply IH; [| | exact Hrec].
    + unfold drop_level0. apply Forall_fmap, Forall_forall.
      intros t Hin. apply list_elem_of_filter in Hin as [_ Hin].
      rewrite Forall_forall in Hlen. specialize (Hlen t Hin).
      destruct t; simpl in *; lia.
    + unfold drop_level0. rewrite filter_cons_True by done. done.
Qed.


(* =================================================================== *)
(** ** Totals *)
(* =================================================================== *)

Lemma same_nulls_refl (l : list (list scalar)) :
  Forall2 (Forall2 same_nulls) l l.
Proof.
  apply Forall_Forall2_diag, Forall_forall. intros row _.
  apply Forall_Forall2_diag, Forall_forall. done.
Qed.

Lemma same_nulls_trans (l1 l2 l3 : list (list scalar)) :
  Forall2 (Forall2 same_nulls) l1 l2 → Forall2 (Forall2 same_nulls) l2 l3 →
  Forall2 (Forall2 same_nulls) l1 l3.
Proof.
  intros H12 H23. eapply Forall2_trans; [| exact H12 | exact H23].
  intros r1 r2 r3 Ha Hb. eapply Forall2_trans; [| exact Ha | exact Hb].
  unfold same_nulls. congruence.
Qed.

Lemma strftime_value_Ok fmt x y :
  strftime_value fmt x = Ok y → isnull x = false ∧ isnull y = false.
Proof. destruct x; simpl; intros H; simplify_eq. done. Qed.

Lemma map_tuple_level_nulls level fmt row row' :
  map_tuple_level level (strftime_value fmt) row = Ok row' →
  Forall2 same_nulls row row'.
Proof.
  unfold map_tuple_level. destruct (row !! level) as [x|] eqn:Hx; [|done].
  destruct (isnull x) eqn:Hn.
  - intros [= <-]. apply Forall_Forall2_diag, Forall_forall. done.
  - intros H. inv_bind H. injection H as <-.
    apply strftime_value_Ok in Ha as [_ Hy].
    apply Forall2_same_length_lookup. split; [by rewrite length_insert|].
    intros i x1 x2 H1 H2. unfold same_nulls.
    destruct (decide (i = level)) as [->|Hne].
    + rewrite list_lookup_insert_eq in H2 by (by eapply lookup_lt_Some).
      simplify_eq. congruence.
    + rewrite list_lookup_insert_ne in H2 by done. congruence.
Qed.

Lemma map_index_level_nulls index level fmt index' :
  map_index_level index level (strftime_value fmt) = Ok index' →
  Forall2 (Forall2 same_nulls) (index_tuples index) (index_tuples index').
Proof.
  unfold map_index_level.
  destruct (decide (0%nat = index_size index)) as [Hz|Hz].
  { intros [= <-]. apply same_nulls_refl. }
  destruct index as [n | name values | names tuples]; simpl in *.
  - destruct (decide (level = 0%nat)); [|done].
    intros H. inv_bind H. apply mapR_Ok in Ha.
    destruct n as [|n]; [done|]. simpl in Ha.
    inversion Ha; subst. discriminate.
  - destruct (decide (level = 0%nat)); [|done].
    intros H. inv_bind H. injection H as <-. simpl.
    apply mapR_Ok in Ha. apply Forall2_fmap.
    eapply Forall2_impl; [exact Ha|].
    intros x y Hxy. constructor; [|constructor]. unfold same_nulls.
    destruct (is_DatetimeIndex values).
    + unfold map_present in Hxy. destruct (isnull x) eqn:Hx.
      * injection Hxy as <-. done.
      * apply strftime_value_Ok in Hxy as [_ Hy]. congruence.
    + apply strftime_value_Ok in Hxy as [Hx Hy]. congruence.
  - intros H. inv_bind H. injection H as <-. simpl.
    apply mapR_Ok in Ha. eapply Forall2_impl; [exact Ha|].
    intros row row'. apply map_tuple_level_nulls.
Qed.

Lemma format_data_frame_step_nulls df entry df' :
  format_data_frame_step df entry = Ok df' →
  Forall2 (Forall2 same_nulls) (index_tuples (df_index df))
    (index_tuples (df_index df')).
Proof.
  destruct entry as [i d]. unfold format_data_frame_step.
  destruct (d_interval d).
  - intros H. inv_bind H. injection H as <-. simpl.
    by eapply map_index_level_nulls.
  - intros [= <-]. apply same_nulls_refl.
Qed.

Lemma format_data_frame_steps_nulls entries :
  ∀ df df', foldR format_data_frame_step df entries = Ok df' →
    Forall2 (Forall2 same_nulls) (index_tuples (df_index df))
      (index_tuples (df_index df')).
Proof.
  induction entries as [|e entries IH]; intros df df' H; simpl in H.
  - injection H as <-. apply same_nulls_refl.
  - inv_bind H. eapply same_nulls_trans.
    + by eapply format_data_frame_step_nulls.
    + by apply IH.
Qed.

Lemma index_tuples_fillna index v :
  index_tuples (fillna_index index v) =
    map (map (λ x, if isnull x then v else x)) (index_tuples index).
Proof.
  destruct index as [n | name values | names tuples]; simpl.
  - induction (seq 0 n) as [|i l IH]; simpl; [done|]. by f_equal.
  - induction values as [|x l IH]; simpl; [done|]. by f_equal.
  - done.
Qed.

Lemma get_header_totals im ddv f h :
  get_header (dict_set im TOTALS_VALUE TotalsItem) ddv TOTALS_VALUE f true = Ok h →
  h = VStr "Totals".
Proof.
  unfold get_header. rewrite orb_true_r, dict_get_set_eq. by intros [= <-].
Qed.

Lemma make_columns_totals name im ddv (names : list (option string)) :
  ∀ tuples prev cols,
    _make_columns name (dict_set im TOTALS_VALUE TotalsItem) ddv names tuples prev
      = Ok cols →
    totals_invariant names tuples cols.
Proof.
  induction names as [|f names' IH]; intros tuples prev cols H; [done|].
  simpl in H. apply mapR_Ok in H. simpl.
  eapply Forall2_impl; [exact H|].
  intros [cv group] c Hstep. unfold make_column in Hstep.
  inv_bind Hstep. inv_bind Hstep. injection Hstep as <-. simpl.
  split; [|split].
  - case_bool_decide; split; intros; simplify_eq; done.
  - intros ->. rewrite bool_decide_true in Ha by done.
    by apply get_header_totals in Ha.
  - destruct group as [g|].
    + inv_bind Ha0. injection Ha0 as <-. simpl. by eapply IH.
    + inv_bind Ha0. injection Ha0 as <-. done.
Qed.


(* =================================================================== *)
(** ** Row records *)
(* =================================================================== *)

Lemma add_value_cell_Ok im row key value row' :
  add_value_cell im row (key, value) = Ok row' →
  ∃ top display,
    head key = Some top ∧
    value_display (dict_get im top) value = Ok display ∧
    setdeepattr row key (cell_value value display) = Ok row'.
Proof.
  unfold add_value_cell. intros H. inv_bind H. inv_bind H.
  destruct (head key) as [top|]; [|discriminate]. injection Ha as <-.
  eauto.
Qed.

(** The loop over the columns leaves a path alone that no later column
    has. *)
Lemma add_value_cells_other im (entries : list (list string * scalar)) :
  ∀ row row' key n,
    Forall (λ e, length e.1 = length key ∧ e.1 ≠ key) entries →
    foldR (add_value_cell im) row entries = Ok row' →
    getdeep row key = Some n → getdeep row' key = Some n.
Proof.
  induction entries as [|[k v] entries IH]; intros row row' key n Hall H Hget;
    simpl in H.
  - by injection H as <-.
  - inv_bind H. apply Forall_cons in Hall as [[Hlen Hne] Hall].
    apply add_value_cell_Ok in Ha as (top & display & _ & _ & Hset).
    eapply IH; [done | exact H |].
    eapply getdeep_setdeepattr_ne; [| | exact Hset | exact Hget]; simpl in *; done.
Qed.

(** After the loop over the columns, the path of every column leads to
    the cell of that column. *)
Lemma add_value_cells_cell im (entries : list (list string * scalar)) :
  ∀ row row' n,
    Forall (λ e, length e.1 = n) entries →
    NoDup entries.*1 →
    foldR (add_value_cell im) row entries = Ok row' →
    ∀ key value, (key, value) ∈ entries →
      ∃ top display,
        head key = Some top ∧
        value_display (dict_get im top) value = Ok display ∧
        getdeep row' key = Some (cell_value value display).
Proof.
  induction entries as [|[k v] entries IH]; intros row row' n Hlen Hnd H key value Hin.
  - by apply elem_of_nil in Hin.
  - simpl in H. inv_bind H.
    apply Forall_cons in Hlen as [Hk Hlen]. simpl in Hk.
    rewrite fmap_cons in Hnd. apply NoDup_cons in Hnd as [Hnotin Hnd].
    apply elem_of_cons in Hin as [Heq | Hin].
    + injection Heq as -> ->.
      apply add_value_cell_Ok in Ha as (top & display & Hh & Hd & Hset).
      exists top, display. split; [done|]. split; [done|].
      eapply add_value_cells_other; [| exact H |].
      * apply Forall_forall. intros [k' v'] Hin'. simpl.
        rewrite Forall_forall in Hlen. specialize (Hlen _ Hin'). simpl in Hlen.
        split; [congruence|]. intros ->. apply Hnotin.
        apply list_elem_of_fmap. by exists (k, v').
      * by eapply getdeep_setdeepattr_eq.
    + by eapply IH.
Qed.

(** The loop over the columns leaves an entry of the record alone that no
    column starts with. *)
Lemma add_value_cells_top im (entries : list (list string * scalar)) :
  ∀ row row' name,
    Forall (λ e, head e.1 ≠ Some name) entries →
    foldR (add_value_cell im) row entries = Ok row' →
    dict_get row' name = dict_get row name.
Proof.
  induction entries as [|[k v] entries IH]; intros row row' name Hall H; simpl in H.
  - by injection H as <-.
  - inv_bind H. apply Forall_cons in Hall as [Hne Hall].
    apply add_value_cell_Ok in Ha as (top & display & _ & _ & Hset).
    rewrite (IH _ _ _ Hall H).
    by eapply dict_get_setdeepattr_ne.
Qed.

(** The loop over the index: the entry of a level name holds the cell of
    the last level of that name. *)
Lemma add_index_cells ddv (entries : list (option string * scalar)) :
  ∀ row j name value,
    entries !! j = Some (Some name, value) →
    (∀ j' value', entries !! j' = Some (Some name, value') → j' = j) →
    dict_get (foldl (add_index_cell ddv) row entries) name =
      Some (cell_value value (getdeepattr ddv (Some name) value VNone)).
Proof.
  induction entries as [|[k v] entries IH]; intros row j name value Hj Huniq;
    [done|].
  simpl. destruct j as [|j].
  - simpl in Hj. injection Hj as -> ->.
    assert (Forall (λ e, e.1 ≠ Some name) entries) as Hrest.
    { apply Forall_forall. intros [k' v'] Hin. simpl. intros ->.
      apply list_elem_of_lookup in Hin as [j' Hj'].
      specialize (Huniq (S j') v' Hj'). discriminate. }
    unfold add_index_cell at 2. simpl.
    clear IH Huniq. revert Hrest.
    generalize (dict_set row name
                  (cell_value value (getdeepattr ddv (Some name) value VNone))).
    generalize (dict_get_set_eq row name
                  (cell_value value (getdeepattr ddv (Some name) value VNone))).
    intros _ d. (* the entry survives the rest of the loop *)
    assert (∀ es d0 c, Forall (λ e : option string * scalar, e.1 ≠ Some name) es →
              dict_get d0 name = Some c →
              dict_get (foldl (add_index_cell ddv) d0 es) name = Some c) as Hkeep.
    { induction es as [|[k' v'] es IHes]; intros d0 c Hes Hd0; [done|].
      apply Forall_cons in Hes as [Hk' Hes]. simpl. apply IHes; [done|].
      unfold add_index_cell. simpl in *. destruct k' as [k'|]; [|done].
      rewrite dict_get_set_ne; [done | congruence]. }
    intros Hrest. apply Hkeep; [done|]. apply dict_get_set_eq.
  - simpl in Hj. eapply IH; [exact Hj|].
    intros j' value' Hj'. specialize (Huniq (S j') value' Hj'). lia.
Qed.

Lemma transform_data_row df im ddv rows i row :
  transform_data df im ddv = Ok rows → rows !! i = Some row →
  ∃ index series,
    index_tuples (df_index df) !! i = Some index ∧
    df_values df !! i = Some series ∧
    transform_row df im ddv (index, astype (values_dtype df) <$> series) = Ok row.
Proof.
  unfold transform_data, iterrows. intros H Hi. apply mapR_Ok in H.
  destruct (Forall2_lookup_r _ _ _ _ _ H Hi) as ([index series] & Hz & Hrow).
  apply lookup_zip_with_Some in Hz as (x & y & Heq & Hx & Hy).
  injection Heq as <- <-. rewrite list_lookup_fmap in Hy.
  destruct (df_values df !! i) as [cells|]; [|done]. injection Hy as <-. eauto.
Qed.

Lemma cell_value_entries value display :
  RAW_VALUE ≠ "display" →
  cell_value value display = Dict (cell_entries value display).
Proof.
  intros Hne. unfold cell_value, cell_entries.
  destruct display; simpl; try done; by rewrite decide_False.
Qed.

Lemma NoDup_fst_zip {A B} (l : list A) (k : list B) :
  NoDup l → NoDup (zip l k).*1.
Proof.
  intros Hnd. revert k. induction Hnd as [|x l Hx Hnd IH]; intros k; [constructor|].
  destruct k as [|y k]; [constructor|]. simpl. constructor; [|apply IH].
  intros Hin. apply Hx. apply list_elem_of_fmap in Hin as ([x' y'] & -> & Hin).
  by apply elem_of_zip_l in Hin.
Qed.

Lemma wf_columns_same_length (c : Columns) :
  wf_columns c →
  Forall (λ t, length t = length (columns_names c)) (columns_tuples c).
Proof. intros H. by apply columns_tuples_wf in H as [_ ?]. Qed.

Lemma astype_cases (d : dtype) (value : scalar) :
  astype d value = value ∨
  ∃ n, value = VInt n ∧ d = float64 ∧ astype d value = VFloat (float_of_int n).
Proof.
  destruct d; try (by left). destruct value; try (by left). right. eauto.
Qed.

(** C4, as the code has it. In every row record the path of a column
    leads to a cell whose raw is the scalar of the column as the iteration
    over the rows yields it: the cell of the frame itself, except that an
    integer cell arrives as the float of the same value when the columns of
    the frame are all numeric and one of them holds floats.  When the first
    component of the path has a descriptor in the item map, the display is
    the value formatter applied to that raw with the prefix, suffix and
    precision of the descriptor; when it has none, the display is the raw
    itself, with no formatting, and it is left out only when the raw is
    [None]. *)
Theorem column_cell_display (data_frame : DataFrame) (item_map : dict Item)
    (dimension_display_values : display_values_map) (rows : list (dict node)) :
  wf_columns (df_columns data_frame) →
  NoDup (columns_tuples (df_columns data_frame)) →
  RAW_VALUE ≠ "display" →
  transform_data data_frame item_map dimension_display_values = Ok rows →
  ∀ i row series j key value,
    rows !! i = Some row →
    df_values data_frame !! i = Some series →
    columns_tuples (df_columns data_frame) !! j = Some key →
    series !! j = Some value →
    ∃ top raw display,
      head key = Some top ∧
      raw = astype (values_dtype data_frame) value ∧
      (raw = value ∨
       ∃ n, value = VInt n ∧ values_dtype data_frame = float64 ∧
            raw = VFloat (float_of_int n)) ∧
      getdeep row key = Some (Dict (cell_entries raw display)) ∧
      match dict_get item_map top with
      | Some item =>
          ∃ s, display_value raw (i_prefix item) (i_suffix item)
                 (i_precision item) = Ok s ∧ display = VStr s
      | None => display = raw
      end.
Proof.
  intros Hwf Hnd Hraw H i row series j key value Hi Hs Hk Hv.
  destruct (transform_data_row _ _ _ _ _ _ H Hi) as (index & series' & _ & Hs' & Hrow).
  rewrite Hs in Hs'. injection Hs' as <-.
  unfold transform_row in Hrow.
  set (raw := astype (values_dtype data_frame) value).
  assert ((key, raw) ∈ zip (columns_tuples (df_columns data_frame))
                           (astype (values_dtype data_frame) <$> series)) as Hin.
  { apply list_elem_of_lookup. exists j.
    apply lookup_zip_with_Some. exists key, raw. split; [done|]. split; [done|].
    by rewrite list_lookup_fmap, Hv. }
  eapply add_value_cells_cell in Hrow as (top & display & Hh & Hd & Hget);
    [| | | exact Hin].
  - exists top, raw, display. split; [done|]. split; [done|].
    split; [apply astype_cases|]. split.
    + by rewrite Hget, cell_value_entries.
    + unfold value_display in Hd. destruct (dict_get item_map top) as [item|].
      * inv_bind Hd. injection Hd as <-. eauto.
      * by injection Hd.
  - apply Forall_forall. intros [k v] Hkv. simpl.
    apply elem_of_zip_l in Hkv.
    pose proof (wf_columns_same_length _ Hwf) as Hlen.
    rewrite Forall_forall in Hlen. by apply Hlen.
  - by apply NoDup_fst_zip.
Qed.

(** C7, as the code has it. In every row record, the entry of a named
    index level is a cell whose raw is the index value itself when that
    value is no key of the item map, and the label of the descriptor when
    the value is a metric, reference or totals key: the label takes the
    place of the value before the cell is built.  The display of the cell
    is what the display values hold for the level name and that raw, and
    is left out when they hold nothing. *)
Theorem index_cell_raw (data_frame : DataFrame) (item_map : dict Item)
    (dimension_display_values : display_values_map) (rows : list (dict node)) :
  RAW_VALUE ≠ "display" →
  transform_data data_frame item_map dimension_display_values = Ok rows →
  ∀ i row index j name value,
    rows !! i = Some row →
    index_tuples (df_index data_frame) !! i = Some index →
    index_names (df_index data_frame) !! j = Some (Some name) →
    index !! j = Some value →
    (∀ j', index_names (df_index data_frame) !! j' = Some (Some name) → j' = j) →
    Forall (λ t, head t ≠ Some name) (columns_tuples (df_columns data_frame)) →
    ∃ raw,
      getdeep row [name] =
        Some (Dict (cell_entries raw
                      (getdeepattr dimension_display_values (Some name) raw VNone))) ∧
      match value with
      | VStr k =>
          match dict_get item_map k with
          | Some item => raw = VStr (i_label item)
          | None => raw = value
          end
      | _ => raw = value
      end.
Proof.
  intros Hraw H i row index j name value Hi Hidx Hname Hval Huniq Hcols.
  destruct (transform_data_row _ _ _ _ _ _ H Hi) as (index' & series & Hidx' & _ & Hrow).
  rewrite Hidx in Hidx'. injection Hidx' as <-.
  unfold transform_row in Hrow.
  exists (index_item item_map value). split.
  - rewrite getdeep_single.
    assert (Forall (λ e : list string * scalar, head e.1 ≠ Some name)
              (zip (columns_tuples (df_columns data_frame))
                   (astype (values_dtype data_frame) <$> series))) as Hzip.
    { apply Forall_forall. intros [k v] Hkv. simpl.
      apply elem_of_zip_l in Hkv. rewrite Forall_forall in Hcols. by apply Hcols. }
    rewrite (add_value_cells_top _ _ _ _ name Hzip Hrow).
    erewrite add_index_cells.
    + rewrite cell_value_entries by done. reflexivity.
    + apply lookup_zip_with_Some. exists (Some name), (index_item item_map value).
      split; [done|]. split; [done|]. by rewrite list_lookup_fmap, Hval.
    + intros j' value' Hj'.
      apply lookup_zip_with_Some in Hj' as (x & y & Heq & Hx & _).
      simplify_eq. by apply Huniq.
  - unfold index_item. destruct value; try done.
    by destruct (dict_get item_map s).
Qed.

(* =================================================================== *)
(** ** Accessors and row records *)
(* =================================================================== *)

Lemma add_value_cells_path im (entries : list (list string * scalar)) :
  ∀ row row' key,
    Forall (λ e, length e.1 = length key) entries →
    foldR (add_value_cell im) row entries = Ok row' →
    is_Some (getdeep row key) ∨ key ∈ entries.*1 →
    is_Some (getdeep row' key).
Proof.
  induction entries as [|[k v] entries IH]; intros row row' key Hlen H Hkey;
    simpl in H.
  - injection H as <-. destruct Hkey as [?|Hin]; [done|].
    by apply elem_of_nil in Hin.
  - inv_bind H. apply Forall_cons in Hlen as [Hk Hlen]. simpl in Hk.
    apply add_value_cell_Ok in Ha as (top & display & _ & _ & Hset).
    eapply IH; [done | exact H |].
    destruct (decide (key = k)) as [->|Hne].
    + left. erewrite getdeep_setdeepattr_eq; [|exact Hset]. done.
    + destruct Hkey as [[n Hn]|Hin].
      * left. exists n. eapply getdeep_setdeepattr_ne; [| | exact Hset | exact Hn]; done.
      * right. rewrite fmap_cons in Hin.
        apply elem_of_cons in Hin as [->|Hin]; done.
Qed.

Lemma node_paths_get (keys : list string) :
  ∀ d n, getdeep d keys = Some n → keys ∈ node_paths (Dict d).
Proof.
  induction keys as [|top rest IH]; intros d n H.
  - simpl. left.
  - assert (∀ es : dict node, ∀ n', dict_get es top = Some n' →
              ∀ p, p ∈ node_paths n' →
                (top :: p) ∈
                  (fix go (es : list (string * node)) : list (list string) :=
                     match es with
                     | [] => []
                     | (k, n') :: es' =>
                         (map (cons k) (node_paths n') ++ go es')%list
                     end) es) as Hgo.
    { induction es as [|[k m] es IHes]; intros n' Hget p Hp; [done|].
      simpl in Hget. apply elem_of_app.
      destruct (decide (top = k)) as [->|Hne].
      - injection Hget as ->. left.
        apply list_elem_of_In, in_map, list_elem_of_In, Hp.
      - right. eauto. }
    simpl. right.
    destruct (decide (rest = [])) as [->|Hr].
    + rewrite getdeep_single in H. eapply Hgo; [exact H|].
      destruct n; simpl; left.
    + rewrite getdeep_cons in H by done.
      destruct (dict_get d top) as [[v|es]|] eqn:Hd; try done.
      eapply Hgo; [exact Hd|]. by eapply IH.
Qed.

Lemma has_key_path_get (row : dict node) (keys : list string) :
  keys ≠ [] → is_Some (getdeep row keys) →
  has_key_path row (String.concat "." keys).
Proof.
  intros Hne [n Hn]. unfold has_key_path, key_paths.
  apply list_elem_of_fmap. exists keys. split; [done|].
  apply list_elem_of_filter. split; [done|]. by eapply node_paths_get.
Qed.

(** The labels of every column, joined with dots, are a key path of
    every row record. *)
Lemma column_path_in_record (data_frame : DataFrame) (item_map : dict Item)
    (dimension_display_values : display_values_map) (rows : list (dict node)) :
  wf_frame data_frame →
  transform_data data_frame item_map dimension_display_values = Ok rows →
  ∀ t row, t ∈ columns_tuples (df_columns data_frame) → row ∈ rows →
    has_key_path row (String.concat "." t).
Proof.
  intros (Hwf & _ & Hcells) Hrows t row Ht Hrow.
  apply list_elem_of_lookup in Hrow as [i Hi].
  destruct (transform_data_row _ _ _ _ _ _ Hrows Hi) as (index & series & _ & Hs & Hr).
  pose proof (wf_columns_same_length _ Hwf) as Hlen.
  rewrite Forall_forall in Hlen.
  assert (t ≠ []) as Hne.
  { pose proof (Hlen t Ht) as Hl. apply columns_tuples_wf in Hwf as [Hn _].
    destruct t; [|done]. destruct (columns_names (df_columns data_frame)); done. }
  apply has_key_path_get; [done|].
  unfold transform_row in Hr.
  eapply add_value_cells_path; [| exact Hr |].
  - apply Forall_forall. intros [k v] Hkv. simpl.
    apply elem_of_zip_l in Hkv. rewrite (Hlen k Hkv), (Hlen t Ht). done.
  - right. rewrite fst_zip; [done|]. rewrite length_fmap.
    rewrite Forall_forall in Hcells.
    rewrite (Hcells series); [done|]. by eapply list_elem_of_lookup_2.
Qed.

(** Where the frame has no name, the two builders agree: every leaf
    accessor is a key path of every row record. *)
Lemma accessor_agreement_without_name (data_frame : DataFrame)
    (item_map : dict Item) (dimension_display_values : display_values_map)
    (cols : list column) (rows : list (dict node)) :
  wf_frame data_frame →
  df_name data_frame = None →
  transform_metric_column_headers data_frame item_map dimension_display_values
    = Ok cols →
  transform_data data_frame item_map dimension_display_values = Ok rows →
  ∀ a row, a ∈ all_leaf_accessors cols → row ∈ rows → has_key_path row a.
Proof.
  intros Hwf Hname Hcols Hrows a row Ha Hrow.
  apply (headers_leaves _ _ _ _ (proj1 Hwf) Hcols) in Ha as (t & Ht & ->).
  rewrite name_suffix_getattr, Hname, app_nil_r.
  by eapply column_path_in_record.
Qed.

(* =================================================================== *)
(** ** The transform on the heap *)
(* =================================================================== *)

Section Keeps.
Variable σ0 : heap.

Lemma keeps_ret {A} (a : A) (Q : A → Prop) : Q a → keeps σ0 (st_ret a) Q.
Proof. intros HQ σ Hσ. done. Qed.

Lemma keeps_lift {A} (r : result A) : keeps σ0 (st_lift r) (λ _, True).
Proof. intros σ Hσ. simpl. split; [done|]. by destruct r. Qed.

Lemma keeps_bind {A B} (c : St A) (f : A → St B) (Q : A → Prop) (R : B → Prop) :
  keeps σ0 c Q → (∀ a, Q a → keeps σ0 (f a) R) → keeps σ0 (st_bind c f) R.
Proof.
  intros Hc Hf σ Hσ. unfold st_bind.
  destruct (Hc σ Hσ) as [Hσ' HQ]. destruct (c σ) as [[a|e] σ']; simpl in *.
  - by apply Hf.
  - done.
Qed.

Lemma keeps_alloc (o : object) : keeps σ0 (alloc o) (λ l, σ0 !! l = None).
Proof.
  intros σ Hσ. unfold alloc.
  assert (σ !! fresh (dom σ) = None) as Hfresh.
  { apply not_elem_of_dom, is_fresh. }
  generalize dependent (fresh (dom σ)). intros l Hfresh. cbn [fst snd].
  split.
  - etrans; [exact Hσ|]. by apply insert_subseteq.
  - destruct (σ0 !! l) as [o'|] eqn:Ho; [|done].
    eapply lookup_weaken in Ho; [|exact Hσ]. congruence.
Qed.

Lemma keeps_read_frame l : keeps σ0 (read_frame l) (λ _, True).
Proof.
  intros σ Hσ. unfold read_frame.
  destruct (σ !! l) as [[df|d|m]|]; simpl; done.
Qed.

Lemma keeps_read_dimension l : keeps σ0 (read_dimension l) (λ _, True).
Proof.
  intros σ Hσ. unfold read_dimension.
  destruct (σ !! l) as [[df|d|m]|]; simpl; done.
Qed.

Lemma keeps_read_metric l : keeps σ0 (read_metric l) (λ _, True).
Proof.
  intros σ Hσ. unfold read_metric.
  destruct (σ !! l) as [[df|d|m]|]; simpl; done.
Qed.

(** A write to an object that [σ0] does not hold. *)
Lemma keeps_write_frame l df :
  σ0 !! l = None → keeps σ0 (write_frame l df) (λ _, True).
Proof.
  intros Hl σ Hσ. unfold write_frame. simpl. split; [|done].
  apply map_subseteq_spec. intros k o Hk.
  assert (l ≠ k) as Hne by (intros ->; congruence).
  rewrite lookup_insert_ne by done.
  by eapply lookup_weaken.
Qed.

Lemma keeps_st_map {A B} (f : A → St B) (xs : list A) :
  (∀ x, keeps σ0 (f x) (λ _, True)) → keeps σ0 (st_map f xs) (λ _, True).
Proof.
  intros Hf. induction xs as [|x xs IH]; simpl.
  - by apply keeps_ret.
  - eapply keeps_bind; [apply Hf|]. intros y _.
    eapply keeps_bind; [apply IH|]. intros ys _. by apply keeps_ret.
Qed.

Lemma keeps_in_place {A} l (f : DataFrame → result (A * DataFrame)) :
  σ0 !! l = None → keeps σ0 (in_place l f) (λ _, True).
Proof.
  intros Hl. unfold in_place.
  eapply keeps_bind; [apply keeps_read_frame|]. intros df _.
  eapply keeps_bind; [apply keeps_lift|]. intros r _.
  eapply keeps_bind; [by apply keeps_write_frame|]. intros _ _.
  by apply keeps_ret.
Qed.

Lemma transform_on_heap_keeps self data_frame dimensions references :
  keeps σ0 (transform_on_heap self data_frame dimensions references) (λ _, True).
Proof.
  unfold transform_on_heap.
  eapply keeps_bind; [apply keeps_st_map, keeps_read_dimension|]. intros dims _.
  eapply keeps_bind; [apply keeps_st_map, keeps_read_metric|]. intros its _.
  eapply keeps_bind; [apply keeps_st_map, keeps_read_dimension|]. intros pivots _.
  eapply keeps_bind; [apply keeps_read_frame|]. intros original _.
  eapply keeps_bind; [apply keeps_lift|]. intros selected _.
  eapply keeps_bind; [apply keeps_alloc|]. intros l1 _.
  eapply keeps_bind; [apply keeps_read_frame|]. intros selected' _.
  eapply keeps_bind; [apply keeps_alloc|]. intros l2 _.
  eapply keeps_bind; [apply keeps_read_frame|]. intros copied _.
  eapply keeps_bind; [apply keeps_alloc|]. intros l3 _.
  eapply keeps_bind; [apply keeps_read_frame|]. intros filled _.
  eapply keeps_bind; [apply keeps_alloc|]. intros df Hdf.
  eapply keeps_bind; [by apply keeps_in_place|]. intros ddv _.
  eapply keeps_bind; [by apply keeps_in_place|]. intros _ _.
  eapply keeps_bind; [apply keeps_read_frame|]. intros current _.
  eapply keeps_bind; [apply keeps_lift|]. intros pivoted _.
  eapply keeps_bind; [apply keeps_alloc|]. intros df' _.
  eapply keeps_bind; [apply keeps_read_frame|]. intros pivoted' _.
  apply keeps_lift.
Qed.
End Keeps.

(** C9. Whatever the heap holds when [transform] is called -- the
    caller's data frame, the dimension and metric descriptors, anything
    else -- it holds unchanged when the call returns or raises: the
    selection, the copy and the fills build new frames, and the deletion
    of the display columns and the assignments to the index and to the
    name of the columns write to the new frame only. *)
Theorem transform_leaves_inputs_unchanged (self : ReactTableObject)
    (data_frame : positive) (dimensions : list positive)
    (references : list Reference) (σ : heap) :
  ∀ l o, σ !! l = Some o →
    (transform_on_heap self data_frame dimensions references σ).2 !! l = Some o.
Proof.
  intros l o Hl.
  destruct (transform_on_heap_keeps σ self data_frame dimensions references σ)
    as [Hsub _]; [done|].
  by eapply lookup_weaken.
Qed.

Lemma st_bind_lift {A B} (r : result A) (f : A → St B) (σ : heap) :
  st_bind (st_lift r) f σ =
    match r with Ok a => f a σ | Raise e => (Raise e, σ) end.
Proof. by destruct r. Qed.

Lemma st_bind_alloc {B} (o : object) (f : positive → St B) (σ : heap) :
  st_bind (alloc o) f σ = f (fresh (dom σ)) (<[fresh (dom σ) := o]> σ).
Proof. reflexivity. Qed.

Lemma st_bind_read_frame {B} l df (f : DataFrame → St B) (σ : heap) :
  σ !! l = Some (ODataFrame df) → st_bind (read_frame l) f σ = f df σ.
Proof. intros H. unfold st_bind, read_frame. by rewrite H. Qed.

Lemma st_bind_in_place {A B} l df (g : DataFrame → result (A * DataFrame))
    (f : A → St B) (σ : heap) :
  σ !! l = Some (ODataFrame df) →
  st_bind (in_place l g) f σ =
    match g df with
    | Ok r => f r.1 (<[l := ODataFrame r.2]> σ)
    | Raise e => (Raise e, σ)
    end.
Proof.
  intros H. unfold in_place, st_bind at 1 2, read_frame. rewrite H.
  unfold st_bind at 1, st_lift. by destruct (g df).
Qed.

Lemma st_map_read_dimension (ls : list positive) (ds : list Dimension) (σ : heap) :
  Forall2 (λ l d, σ !! l = Some (ODimension d)) ls ds →
  st_map read_dimension ls σ = (Ok ds, σ).
Proof.
  induction 1 as [|l d ls ds Hl _ IH]; [done|].
  simpl. unfold st_bind at 1, read_dimension at 1. rewrite Hl.
  unfold st_bind at 1. by rewrite IH.
Qed.

Lemma st_map_read_metric (ls : list positive) (ms : list Metric) (σ : heap) :
  Forall2 (λ l m, σ !! l = Some (OMetric m)) ls ms →
  st_map read_metric ls σ = (Ok ms, σ).
Proof.
  induction 1 as [|l m ls ms Hl _ IH]; [done|].
  simpl. unfold st_bind at 1, read_metric at 1. rewrite Hl.
  unfold st_bind at 1. by rewrite IH.
Qed.

Lemma st_bind_Ok {A B} (c : St A) (f : A → St B) (σ : heap) a :
  c σ = (Ok a, σ) → st_bind c f σ = f a σ.
Proof. intros H. unfold st_bind. by rewrite H. Qed.

(** On a heap that holds the frame and the descriptors, the transform on
    the heap returns what the transform of the values returns. *)
Lemma transform_on_heap_result (self : ReactTableObject) (data_frame : positive)
    (dimensions : list positive) (references : list Reference) (σ : heap)
    (df : DataFrame) (dims pivots : list Dimension) (its : list Metric) :
  σ !! data_frame = Some (ODataFrame df) →
  Forall2 (λ l d, σ !! l = Some (ODimension d)) dimensions dims →
  Forall2 (λ l m, σ !! l = Some (OMetric m)) (items_ref self) its →
  Forall2 (λ l d, σ !! l = Some (ODimension d)) (pivot_ref self) pivots →
  (transform_on_heap self data_frame dimensions references σ).1 =
    transform (mkReactTable its pivots (transpose_flag self)) df dims references.
Proof.
  intros Hdf Hdims Hits Hpiv. unfold transform_on_heap, transform, select_and_fill.
  rewrite (st_bind_Ok _ _ _ _ (st_map_read_dimension _ _ _ Hdims)).
  rewrite (st_bind_Ok _ _ _ _ (st_map_read_metric _ _ _ Hits)).
  rewrite (st_bind_Ok _ _ _ _ (st_map_read_dimension _ _ _ Hpiv)).
  cbn [items pivot transpose].
  rewrite (st_bind_read_frame _ _ _ _ Hdf), st_bind_lift.
  destruct (getitem_list df _) as [selected|e]; [|done].
  rewrite st_bind_alloc.
  rewrite (st_bind_read_frame _ selected) by apply lookup_insert_eq.
  rewrite st_bind_alloc.
  rewrite (st_bind_read_frame _ (copy selected)) by apply lookup_insert_eq.
  rewrite st_bind_alloc.
  rewrite (st_bind_read_frame _ (fillna (VStr "NaN") (copy selected)))
    by apply lookup_insert_eq.
  rewrite st_bind_alloc.
  erewrite st_bind_in_place by apply lookup_insert_eq.
  cbn [mbind result_bind].
  destruct (map_display_values _ dims) as [[ddv df1]|e]; [|done].
  cbn [mbind result_bind fst snd].
  erewrite st_bind_in_place by apply lookup_insert_eq.
  destruct (format_data_frame df1 dims) as [df2|e];
    cbn [mbind result_bind fst snd]; [|done].
  rewrite (st_bind_read_frame _ df2) by apply lookup_insert_eq.
  rewrite st_bind_lift.
  destruct (pivot_data_frame df2 _ _) as [df3|e]; [|done].
  rewrite st_bind_alloc.
  rewrite (st_bind_read_frame _ df3) by apply lookup_insert_eq.
  reflexivity.
Qed.

(* =================================================================== *)
(** ** Missing and infinite cells *)
(* =================================================================== *)

Lemma fill_cell_not_null x : isnull (fill_cell x) = false ∧ is_inf (fill_cell x) = false.
Proof.
  unfold fill_cell. destruct (isnull x) eqn:Hn; [done|].
  destruct (is_inf x) eqn:Hi; done.
Qed.

Lemma select_and_fill_values df labels df' :
  select_and_fill df labels = Ok df' →
  ∃ selected,
    getitem_list df labels = Ok selected ∧
    df_index df' = df_index selected ∧
    df_columns df' = df_columns selected ∧
    df_values df' = map (map fill_cell) (df_values selected).
Proof.
  unfold select_and_fill. intros H. inv_bind H. injection H as <-.
  exists a. split; [done|]. split; [done|]. split; [done|]. simpl.
  rewrite map_map. apply map_ext. intros row.
  rewrite map_map. apply map_ext. intros x.
  unfold fill_cell. destruct (isnull x); [done|]. done.
Qed.

Lemma elem_of_pick {A} (positions : list nat) (l : list A) x :
  x ∈ pick positions l → x ∈ l.
Proof.
  unfold pick. intros H. apply list_elem_of_omap in H as (i & _ & Hi).
  by eapply list_elem_of_lookup_2.
Qed.

Lemma rows_within_refl A : rows_within A A.
Proof. apply Forall_Forall2_diag, Forall_forall. done. Qed.

Lemma rows_within_trans A B C : rows_within A B → rows_within B C → rows_within A C.
Proof.
  intros H1 H2. eapply Forall2_trans; [| exact H1 | exact H2].
  intros a b c Hab Hbc x Hx. auto.
Qed.

Lemma rows_within_pick positions rows : rows_within (pick positions <$> rows) rows.
Proof.
  apply Forall2_fmap_l, Forall_Forall2_diag, Forall_forall.
  intros row _ x. apply elem_of_pick.
Qed.

Lemma getitem_list_values df labels selected :
  getitem_list df labels = Ok selected →
  rows_within (df_values selected) (df_values df).
Proof.
  unfold getitem_list. intros H. inv_bind H. injection H as <-. simpl.
  apply rows_within_pick.
Qed.

Lemma delitem_values df k df' :
  delitem df k = Ok df' → rows_within (df_values df') (df_values df).
Proof.
  unfold delitem. destruct (positions_of (df_columns df) k); [done|].
  intros [= <-]. simpl. apply rows_within_pick.
Qed.

Lemma map_display_values_step_values acc d ddv df' :
  map_display_values_step acc d = Ok (ddv, df') →
  rows_within (df_values df') (df_values acc.2).
Proof.
  destruct acc as [ddv0 df]. unfold map_display_values_step. intros H.
  inv_bind H. destruct a as [ddv1 df1].
  assert (rows_within (df_values df1) (df_values df)) as Hw.
  { destruct (d_has_display_field d).
    - inv_bind Ha. inv_bind Ha. inv_bind Ha. injection Ha as <- <-.
      by eapply delitem_values.
    - injection Ha as <- <-. apply rows_within_refl. }
  destruct (d_display_values d); injection H as <- <-; done.
Qed.

Lemma map_display_values_values (dimensions : list Dimension) :
  ∀ acc ddv df',
    foldR map_display_values_step acc dimensions = Ok (ddv, df') →
    rows_within (df_values df') (df_values acc.2).
Proof.
  induction dimensions as [|d dimensions IH]; intros acc ddv df' H; simpl in H.
  - injection H as ->. apply rows_within_refl.
  - inv_bind H. destruct a as [ddv1 df1].
    eapply rows_within_trans; [by eapply IH|].
    by eapply map_display_values_step_values.
Qed.

Lemma format_data_frame_step_values df entry df' :
  format_data_frame_step df entry = Ok df' →
  df_values df' = df_values df ∧ df_columns df' = df_columns df ∧
  df_name df' = df_name df.
Proof.
  destruct entry as [i d]. unfold format_data_frame_step.
  destruct (d_interval d).
  - intros H. inv_bind H. by injection H as <-.
  - by intros [= <-].
Qed.

Lemma format_data_frame_steps_values entries :
  ∀ df df', foldR format_data_frame_step df entries = Ok df' →
    df_values df' = df_values df ∧ df_columns df' = df_columns df ∧
    df_name df' = df_name df.
Proof.
  induction entries as [|e entries IH]; intros df df' H; simpl in H.
  - by injection H as <-.
  - inv_bind H. apply format_data_frame_step_values in Ha as (H1 & H2 & H3).
    destruct (IH _ _ H) as (-> & -> & ->). done.
Qed.

Lemma format_data_frame_values df dimensions df' :
  format_data_frame df dimensions = Ok df' →
  df_values df' = df_values df ∧
  columns_tuples (df_columns df') = columns_tuples (df_columns df) ∧
  (wf_columns (df_columns df) → wf_columns (df_columns df')).
Proof.
  unfold format_data_frame. intros H. inv_bind H. injection H as <-. simpl.
  apply format_data_frame_steps_values in Ha as (H1 & H2 & _).
  rewrite H1, H2. split; [done|]. by destruct (df_columns df).
Qed.

(** After the loop over the columns, the path of every column leads to
    the cell of a column of that path. *)
Lemma add_value_cells_some im (entries : list (list string * scalar)) :
  ∀ row row' n,
    Forall (λ e, length e.1 = n) entries →
    foldR (add_value_cell im) row entries = Ok row' →
    ∀ key, key ∈ entries.*1 →
      ∃ value display,
        (key, value) ∈ entries ∧
        getdeep row' key = Some (cell_value value display).
Proof.
  induction entries as [|[k v] entries IH]; intros row row' n Hlen H key Hin.
  - by apply elem_of_nil in Hin.
  - simpl in H. inv_bind H.
    apply Forall_cons in Hlen as [Hk Hlen]. simpl in Hk.
    destruct (decide (key ∈ entries.*1)) as [Hlater|Hnot].
    + destruct (IH _ _ _ Hlen H key Hlater) as (value & display & Hv & Hget).
      exists value, display. split; [by right | done].
    + rewrite fmap_cons in Hin. apply elem_of_cons in Hin as [->|Hin]; [|done].
      apply add_value_cell_Ok in Ha as (top & display & _ & _ & Hset).
      exists v, display. split; [left|].
      eapply add_value_cells_other; [| exact H |].
      * apply Forall_forall. intros [k' v'] Hin'. simpl.
        rewrite Forall_forall in Hlen. specialize (Hlen _ Hin'). simpl in Hlen.
        split; [congruence|]. intros ->. apply Hnot.
        apply list_elem_of_fmap. by exists (k, v').
      * by eapply getdeep_setdeepattr_eq.
Qed.

Lemma positions_from_lt (tuples : list (list string)) k :
  ∀ i j, j ∈ positions_from i tuples k → (i ≤ j < i + length tuples)%nat.
Proof.
  induction tuples as [|t tuples IH]; intros i j Hj; simpl in *.
  - by apply elem_of_nil in Hj.
  - destruct (decide (head t = Some k)).
    + apply elem_of_cons in Hj as [->|Hj]; [lia|]. apply IH in Hj. lia.
    + apply IH in Hj. lia.
Qed.

Lemma length_pick {A} (positions : list nat) (l : list A) :
  Forall (λ j, (j < length l)%nat) positions →
  length (pick positions l) = length positions.
Proof.
  unfold pick. induction 1 as [|j ps Hj _ IH]; [done|].
  simpl. destruct (lookup_lt_is_Some_2 l j Hj) as [x ->]. simpl. by f_equal.
Qed.

Lemma pick_fmap {A B} (f : A → B) (positions : list nat) (l : list A) :
  pick positions (f <$> l) = f <$> pick positions l.
Proof.
  unfold pick. rewrite list_fmap_omap. apply list_omap_ext.
  apply Forall_Forall2_diag, Forall_forall. intros j _.
  by rewrite list_lookup_fmap.
Qed.

Lemma columns_tuples_take (c : Columns) positions :
  columns_tuples (take_columns c positions) = pick positions (columns_tuples c).
Proof. destruct c; simpl; [|done]. by rewrite pick_fmap. Qed.

Lemma wf_columns_take (c : Columns) positions :
  wf_columns c → wf_columns (take_columns c positions).
Proof.
  destruct c as [name labels|names tuples]; simpl; [done|].
  intros [Hn Hall]. split; [done|].
  apply Forall_forall. intros t Ht. apply elem_of_pick in Ht.
  rewrite Forall_forall in Hall. by apply Hall.
Qed.

Lemma aligned_take df positions df' :
  aligned df →
  Forall (λ j, (j < length (columns_tuples (df_columns df)))%nat) positions →
  df_columns df' = take_columns (df_columns df) positions →
  df_values df' = pick positions <$> df_values df →
  aligned df'.
Proof.
  unfold aligned. intros Hal Hps -> ->.
  rewrite columns_tuples_take, length_pick by done.
  apply Forall_fmap, Forall_forall. intros row Hrow. simpl.
  rewrite Forall_forall in Hal. rewrite length_pick; [done|].
  by rewrite (Hal row Hrow).
Qed.

Lemma getitem_list_positions (c : Columns) (labels : list string) pss :
  mapR (λ k, match positions_of c k with
             | [] => Raise KeyError
             | ps => Ok ps
             end) labels = Ok pss →
  Forall (λ j, (j < length (columns_tuples c))%nat) (concat pss).
Proof.
  intros H. apply mapR_Ok in H. apply Forall_concat.
  induction H as [|k ps labels pss Hk _ IH]; constructor; [|done].
  assert (ps = positions_of c k) as -> by (destruct (positions_of c k); congruence).
  apply Forall_forall. intros j Hj. apply positions_from_lt in Hj. lia.
Qed.

Lemma getitem_list_wf df labels selected :
  wf_columns (df_columns df) → aligned df →
  getitem_list df labels = Ok selected →
  wf_columns (df_columns selected) ∧ aligned selected ∧
  df_index selected = df_index df ∧
  ∀ t, t ∈ columns_tuples (df_columns selected) → t ∈ columns_tuples (df_columns df).
Proof.
  unfold getitem_list. intros Hwf Hal H. inv_bind H. injection H as <-.
  apply getitem_list_positions in Ha.
  split; [by apply wf_columns_take|]. split; [by eapply aligned_take|].
  split; [done|]. simpl. intros t. rewrite columns_tuples_take. apply elem_of_pick.
Qed.

Lemma delitem_wf df k df' :
  wf_columns (df_columns df) → aligned df →
  delitem df k = Ok df' →
  wf_columns (df_columns df') ∧ aligned df' ∧ df_index df' = df_index df ∧
  ∀ t, t ∈ columns_tuples (df_columns df') → t ∈ columns_tuples (df_columns df).
Proof.
  unfold delitem. intros Hwf Hal H.
  destruct (positions_of (df_columns df) k); [done|]. injection H as <-.
  split; [by apply wf_columns_take|]. split.
  - eapply aligned_take; [done | | done | done].
    apply Forall_forall. intros j Hj. apply list_elem_of_filter in Hj as [_ Hj].
    apply elem_of_seq in Hj. lia.
  - split; [done|]. simpl. intros t. rewrite columns_tuples_take. apply elem_of_pick.
Qed.

Lemma map_display_values_wf (dimensions : list Dimension) :
  ∀ acc ddv df',
    wf_columns (df_columns acc.2) → aligned acc.2 →
    foldR map_display_values_step acc dimensions = Ok (ddv, df') →
    wf_columns (df_columns df') ∧ aligned df' ∧ df_index df' = df_index acc.2 ∧
    ∀ t, t ∈ columns_tuples (df_columns df') → t ∈ columns_tuples (df_columns acc.2).
Proof.
  induction dimensions as [|d dimensions IH]; intros acc ddv df' Hwf Hal H; simpl in H.
  - injection H as ->. done.
  - inv_bind H. destruct a as [ddv1 df1]. destruct acc as [ddv0 df0]. simpl in *.
    assert (wf_columns (df_columns df1) ∧ aligned df1 ∧ df_index df1 = df_index df0 ∧
            ∀ t, t ∈ columns_tuples (df_columns df1) →
                 t ∈ columns_tuples (df_columns df0)) as (Hwf1 & Hal1 & Hi1 & Hsub1).
    { unfold map_display_values_step in Ha. inv_bind Ha. destruct a as [ddv2 df2].
      assert (df2 = df1) as -> by (destruct (d_display_values d); by injection Ha).
      destruct (d_has_display_field d).
      - inv_bind Ha0. inv_bind Ha0. inv_bind Ha0. injection Ha0 as _ <-.
        by eapply delitem_wf.
      - by injection Ha0 as _ <-. }
    destruct (IH (ddv1, df1) ddv df' Hwf1 Hal1 H) as (? & ? & Hi & Hsub).
    simpl in *. split; [done|]. split; [done|]. split; [congruence|]. auto.
Qed.

Lemma aligned_same df df' :
  df_values df' = df_values df →
  columns_tuples (df_columns df') = columns_tuples (df_columns df) →
  aligned df → aligned df'.
Proof. unfold aligned. by intros -> ->. Qed.

Lemma select_and_fill_wf df labels df' :
  wf_columns (df_columns df) → aligned df →
  select_and_fill df labels = Ok df' →
  wf_columns (df_columns df') ∧ aligned df' ∧
  (∀ t, t ∈ columns_tuples (df_columns df') → t ∈ columns_tuples (df_columns df)) ∧
  Forall2 (λ row original, ∀ x, x ∈ row → ∃ y, y ∈ original ∧ x = fill_cell y)
    (df_values df') (df_values df).
Proof.
  intros Hwf Hal H.
  apply select_and_fill_values in H as (selected & Hsel & Hi & Hc & Hv).
  pose proof (getitem_list_values _ _ _ Hsel) as Hrows.
  apply (getitem_list_wf _ _ _ Hwf Hal) in Hsel as (Hwf' & Hal' & _ & Hsub).
  rewrite Hc. split; [done|]. split.
  - unfold aligned in *. rewrite Hc, Hv.
    apply Forall_forall. intros row Hrow.
    apply list_elem_of_In, in_map_iff in Hrow as (r & <- & Hr).
    rewrite length_map. rewrite Forall_forall in Hal'.
    by apply Hal', list_elem_of_In.
  - split; [done|]. rewrite Hv.
    change (map (map fill_cell) (df_values selected))
      with ((map fill_cell) <$> df_values selected).
    apply Forall2_fmap_l. eapply Forall2_impl; [exact Hrows|].
    intros srow original Hin x Hx. simpl in Hx.
    apply list_elem_of_In, in_map_iff in Hx as (y & <- & Hy).
    exists y. split; [|done]. by apply Hin, list_elem_of_In.
Qed.


(* =================================================================== *)
(** ** Frames without rows *)
(* =================================================================== *)

Lemma map_index_level_empty index level func :
  index_size index = 0%nat → map_index_level index level func = Ok index.
Proof. intros H. unfold map_index_level. by rewrite decide_True. Qed.

Lemma fillna_index_empty index v :
  index_size index = 0%nat → fillna_index index v = index.
Proof.
  destruct index as [n|name values|names tuples]; simpl; [done| |].
  - destruct values; [done | discriminate].
  - destruct tuples; [done | discriminate].
Qed.

Lemma format_data_frame_steps_empty entries :
  ∀ df, index_size (df_index df) = 0%nat →
    foldR format_data_frame_step df entries = Ok df.
Proof.
  induction entries as [|[i d] entries IH]; intros df Hz; [done|].
  simpl. unfold format_data_frame_step at 1.
  destruct (d_interval d).
  - rewrite map_index_level_empty by done. simpl.
    replace (set_index df (df_index df)) with df by (by destruct df).
    by apply IH.
  - simpl. by apply IH.
Qed.

Lemma format_data_frame_empty df dimensions :
  index_size (df_index df) = 0%nat →
  format_data_frame df dimensions = Ok (set_columns_name df metrics_dimension_key).
Proof.
  intros Hz. unfold format_data_frame.
  rewrite format_data_frame_steps_empty by done. simpl.
  rewrite fillna_index_empty by done.
  by replace (set_index df (df_index df)) with df by (by destruct df).
Qed.

Lemma transform_data_empty df im ddv :
  df_values df = [] → transform_data df im ddv = Ok [].
Proof.
  intros H. unfold transform_data, iterrows. rewrite H.
  by destruct (index_tuples (df_index df)).
Qed.

(** *** The selection and the deletion of columns, by label *)

Lemma elem_of_positions_flat name (labels : list string) k j :
  j ∈ positions_of (FlatColumns name labels) k ↔ labels !! j = Some k.
Proof.
  unfold positions_of. rewrite elem_of_positions_from. simpl.
  rewrite Nat.sub_0_r, list_lookup_fmap. split.
  - intros (_ & t & Ht & Hh). destruct (labels !! j) as [l|]; simplify_eq/=. done.
  - intros ->. split; [lia|]. by exists [k].
Qed.

Lemma elem_of_concat {A} (x : A) (ls : list (list A)) :
  x ∈ concat ls ↔ ∃ l, x ∈ l ∧ l ∈ ls.
Proof.
  rewrite list_elem_of_In, in_concat. split.
  - intros (l & Hl & Hx). exists l. by rewrite !list_elem_of_In.
  - intros (l & Hx & Hl). exists l. by rewrite <- !list_elem_of_In.
Qed.

Lemma elem_of_pick_iff {A} (positions : list nat) (l : list A) x :
  x ∈ pick positions l ↔ ∃ j, j ∈ positions ∧ l !! j = Some x.
Proof. unfold pick. apply list_elem_of_omap. Qed.

Lemma getitem_list_empty index name labels nm (requested : list string) :
  (∀ k, k ∈ requested → k ∈ labels) →
  ∃ selected,
    getitem_list (empty_frame index name labels nm) requested
      = Ok (empty_frame index name selected None) ∧
    ∀ x, x ∈ selected ↔ x ∈ requested.
Proof.
  intros Hreq. unfold getitem_list.
  destruct (mapR_total
              (λ k, match positions_of (df_columns (empty_frame index name labels nm)) k with
                    | [] => Raise KeyError
                    | ps => Ok ps
                    end) requested) as [pss Hpss].
  { apply Forall_forall. intros k Hk.
    apply Hreq, list_elem_of_lookup in Hk as [j Hj].
    apply (elem_of_positions_flat name) in Hj. simpl.
    destruct (positions_of (FlatColumns name labels) k) as [|p ps].
    - by apply elem_of_nil in Hj.
    - by eexists. }
  rewrite Hpss. simpl. eexists. split; [reflexivity|].
  intros x. rewrite elem_of_pick_iff.
  apply mapR_Ok in Hpss. split.
  - intros (j & Hj & Hx). apply elem_of_concat in Hj as (ps & Hjps & Hps).
    destruct (Forall2_elem_of_r _ _ _ _ Hpss Hps) as (k & Hk & Hpos).
    simpl in Hpos.
    assert (ps = positions_of (FlatColumns name labels) k) as ->
      by (destruct (positions_of (FlatColumns name labels) k); congruence).
    apply elem_of_positions_flat in Hjps. congruence.
  - intros Hx. destruct (Forall2_elem_of_l _ _ _ _ Hpss Hx) as (ps & Hps & Hpos).
    simpl in Hpos.
    assert (ps = positions_of (FlatColumns name labels) x) as ->
      by (destruct (positions_of (FlatColumns name labels) x); congruence).
    apply Hreq, list_elem_of_lookup in Hx as [j Hj].
    exists j. split; [|done]. apply elem_of_concat.
    exists (positions_of (FlatColumns name labels) x). split; [|done].
    by apply elem_of_positions_flat.
Qed.

Lemma delitem_empty index name labels nm k :
  k ∈ labels →
  ∃ labels',
    delitem (empty_frame index name labels nm) k
      = Ok (empty_frame index name labels' nm) ∧
    ∀ x, x ∈ labels' ↔ x ∈ labels ∧ x ≠ k.
Proof.
  intros Hk. unfold delitem. simpl.
  apply list_elem_of_lookup in Hk as [j Hj].
  pose proof (proj2 (elem_of_positions_flat name labels k j) Hj) as Hpos.
  destruct (positions_of (FlatColumns name labels) k) as [|p ps] eqn:Hps.
  { by apply elem_of_nil in Hpos. }
  rewrite <- Hps. eexists. split; [reflexivity|].
  intros x. rewrite elem_of_pick_iff. split.
  - intros (i & Hi & Hx). apply list_elem_of_filter in Hi as [Hnot _].
    split; [by eapply list_elem_of_lookup_2|].
    intros ->. apply Hnot. by apply elem_of_positions_flat.
  - intros [Hx Hne]. apply list_elem_of_lookup in Hx as [i Hi].
    exists i. split; [|done]. apply list_elem_of_filter. split.
    + rewrite elem_of_positions_flat. congruence.
    + apply elem_of_seq. rewrite length_fmap.
      apply lookup_lt_Some in Hi. lia.
Qed.

Lemma getitem_empty index name labels nm k :
  k ∈ labels → getitem (empty_frame index name labels nm) k = Ok [].
Proof.
  intros Hk. unfold getitem. simpl.
  apply list_elem_of_lookup in Hk as [j Hj].
  apply (elem_of_positions_flat name) in Hj.
  destruct (positions_of (FlatColumns name labels) k); [|done].
  by apply elem_of_nil in Hj.
Qed.

Lemma level_values_named index k :
  Some k ∈ index_names index → ∃ values, level_values index k = Ok values.
Proof.
  destruct index as [n|name values|names tuples]; simpl; intros Hin.
  - apply list_elem_of_singleton in Hin. discriminate.
  - apply list_elem_of_singleton in Hin as <-. rewrite decide_True by done. eauto.
  - destruct (list_find (λ n, n = Some k) names) as [[i n]|] eqn:Hfind; [eauto|].
    apply list_find_None in Hfind. rewrite Forall_forall in Hfind.
    by specialize (Hfind _ Hin).
Qed.

Lemma display_columns_cons d dimensions :
  display_columns (d :: dimensions) =
    if d_has_display_field d
    then format_dimension_key (d_display_key d) :: display_columns dimensions
    else display_columns dimensions.
Proof.
  unfold display_columns. rewrite filter_cons.
  destruct (decide (d_has_display_field d = true)) as [H|H].
  - by rewrite H.
  - by destruct (d_has_display_field d).
Qed.

Lemma map_display_values_empty (dimensions : list Dimension) :
  ∀ ddv0 index name labels nm,
    NoDup (display_columns dimensions) →
    (∀ k, k ∈ display_columns dimensions → k ∈ labels) →
    (∀ d, d ∈ dimensions → d_has_display_field d = true →
          Some (format_dimension_key (d_key d)) ∈ index_names index) →
    ∃ ddv labels',
      foldR map_display_values_step (ddv0, empty_frame index name labels nm) dimensions
        = Ok (ddv, empty_frame index name labels' nm) ∧
      ∀ x, x ∈ labels' ↔ x ∈ labels ∧ x ∉ display_columns dimensions.
Proof.
  induction dimensions as [|d dimensions IH]; intros ddv0 index name labels nm Hnd Hin Hlvl.
  - exists ddv0, labels. split; [done|]. intros x. rewrite elem_of_nil. pure_tauto.
  - rewrite display_columns_cons in Hnd, Hin.
    assert (∀ d', d' ∈ dimensions → d_has_display_field d' = true →
              Some (format_dimension_key (d_key d')) ∈ index_names index) as Hlvl'.
    { intros d' Hd'. apply Hlvl. by right. }
    simpl. unfold map_display_values_step at 1.
    destruct (d_has_display_field d) eqn:Hdisp.
    + apply NoDup_cons in Hnd as [Hfresh Hnd].
      set (key := format_dimension_key (d_display_key d)) in *.
      assert (key ∈ labels) as Hkey by (apply Hin; left).
      rewrite (getitem_empty _ _ _ _ _ Hkey). simpl.
      destruct (level_values_named index (format_dimension_key (d_key d)))
        as [vs Hvs]; [apply Hlvl; [left | done]|].
      rewrite Hvs. simpl.
      destruct (delitem_empty index name labels nm key Hkey) as (labels1 & Hdel & Hl1).
      rewrite Hdel. simpl.
      assert (∀ k, k ∈ display_columns dimensions → k ∈ labels1) as Hin1.
      { intros k Hk. apply Hl1. split; [apply Hin; by right|]. by intros ->. }
      destruct (d_display_values d) as [dv|]; simpl.
      * destruct (IH (dict_set (dict_set ddv0 (format_dimension_key (d_key d))
                                  (fill_first (group_first [] (zip vs []))))
                        (format_dimension_key (d_key d)) dv)
                    index name labels1 nm Hnd Hin1 Hlvl') as (ddv & labels' & Hfold & Hl').
        exists ddv, labels'. split; [done|]. intros x.
        rewrite display_columns_cons, Hdisp, Hl', Hl1, not_elem_of_cons. pure_tauto.
      * destruct (IH (dict_set ddv0 (format_dimension_key (d_key d))
                        (fill_first (group_first [] (zip vs []))))
                    index name labels1 nm Hnd Hin1 Hlvl') as (ddv & labels' & Hfold & Hl').
        exists ddv, labels'. split; [done|]. intros x.
        rewrite display_columns_cons, Hdisp, Hl', Hl1, not_elem_of_cons. pure_tauto.
    + simpl. destruct (d_display_values d) as [dv|]; simpl.
      * destruct (IH (dict_set ddv0 (format_dimension_key (d_key d)) dv)
                    index name labels nm Hnd Hin Hlvl') as (ddv & labels' & Hfold & Hl').
        exists ddv, labels'. split; [done|]. intros x.
        by rewrite display_columns_cons, Hdisp.
      * destruct (IH ddv0 index name labels nm Hnd Hin Hlvl')
          as (ddv & labels' & Hfold & Hl').
        exists ddv, labels'. split; [done|]. intros x.
        by rewrite display_columns_cons, Hdisp.
Qed.

Lemma dict_get_set_is_Some {V} (d : dict V) k k' v :
  is_Some (dict_get d k) → is_Some (dict_get (dict_set d k' v) k).
Proof.
  intros H. destruct (decide (k = k')) as [->|Hne].
  - rewrite dict_get_set_eq. eauto.
  - by rewrite dict_get_set_ne.
Qed.

Lemma dimension_map_lookup (ds : list Dimension) :
  ∀ m d,
    is_Some (dict_get m (format_dimension_key (d_key d))) ∨ d ∈ ds →
    is_Some (dict_get
               (foldl (λ m d, dict_set m (format_dimension_key (d_key d)) d) m ds)
               (format_dimension_key (d_key d))).
Proof.
  induction ds as [|d' ds IH]; intros m d H; simpl.
  - destruct H as [?|H]; [done|]. by apply elem_of_nil in H.
  - apply IH. destruct H as [H|H].
    + left. by apply dict_get_set_is_Some.
    + apply elem_of_cons in H as [->|H]; [|by right].
      left. rewrite dict_get_set_eq. eauto.
Qed.

Lemma transform_dimension_column_headers_total df dimensions :
  is_RangeIndex (df_index df) = true ∨
  Forall (λ n, ∃ d, d ∈ (dimensions ++ [metrics])%list ∧
                    n = Some (format_dimension_key (d_key d)))
         (index_names (df_index df)) →
  ∃ cols, transform_dimension_column_headers df dimensions = Ok cols.
Proof.
  intros H. unfold transform_dimension_column_headers.
  destruct (is_RangeIndex (df_index df)); [by eexists|].
  destruct H as [?|H]; [done|].
  apply mapR_total. eapply Forall_impl; [exact H|].
  intros n (d & Hd & ->). simpl.
  destruct (dimension_map_lookup (dimensions ++ [metrics])%list [] d) as [d' Hd'];
    [by right|].
  rewrite Hd'. by eexists.
Qed.

Lemma dict_keys_get {V} (d : dict V) k :
  k ∈ dict_keys d → is_Some (dict_get d k).
Proof.
  unfold dict_keys. induction d as [|[k' v] d IH]; simpl; intros H.
  - by apply elem_of_nil in H.
  - destruct (decide (k = k')); [eauto|].
    apply elem_of_cons in H as [?|H]; [done | auto].
Qed.

Lemma getattr_name_flat df name labels :
  df_columns df = FlatColumns name labels → "name" ∉ labels →
  getattr_name df ≠ NameColumn.
Proof.
  intros Hc Hn. unfold getattr_name. destruct (df_name df); [done|].
  rewrite Hc.
  destruct (positions_of (FlatColumns name labels) "name") as [|j ps] eqn:E;
    [done|].
  exfalso. apply Hn.
  assert (j ∈ positions_of (FlatColumns name labels) "name") as Hj
    by (rewrite E; left).
  apply elem_of_positions_flat in Hj. by eapply list_elem_of_lookup_2.
Qed.

Lemma transform_metric_column_headers_flat df im ddv labels :
  df_columns df = FlatColumns (Some metrics_dimension_key) labels →
  getattr_name df ≠ NameColumn →
  (∀ x, x ∈ labels → is_Some (dict_get im x)) →
  ∃ cols, transform_metric_column_headers df im ddv = Ok cols.
Proof.
  intros Hc Hname Hl. unfold transform_metric_column_headers. rewrite Hc. simpl.
  apply mapR_total, Forall_fmap, Forall_fmap, Forall_forall.
  intros x Hx. unfold compose, make_column, get_header. cbn [head default].
  unfold id.
  rewrite (bool_decide_true (Some metrics_dimension_key = _)) by done.
  destruct (Hl x Hx) as [item ->]. simpl.
  destruct (getattr_name df); [by eexists | by eexists | done].
Qed.

Lemma dimension_map_member (ds : list Dimension) :
  ∀ m k d,
    dict_get (foldl (λ m d, dict_set m (format_dimension_key (d_key d)) d) m ds) k
      = Some d →
    dict_get m k = Some d ∨ (d ∈ ds ∧ format_dimension_key (d_key d) = k).
Proof.
  induction ds as [|d' ds IH]; intros m k d H; simpl in H; [by left|].
  apply IH in H as [H|[H1 H2]].
  - destruct (decide (k = format_dimension_key (d_key d'))) as [->|Hne].
    + rewrite dict_get_set_eq in H. injection H as ->. right. split; [left | done].
    + rewrite dict_get_set_ne in H by done. by left.
  - right. split; [by right | done].
Qed.

Lemma transform_dimension_column_headers_derived df dimensions cols :
  transform_dimension_column_headers df dimensions = Ok cols →
  if is_RangeIndex (df_index df) then cols = []
  else Forall2 (dimension_header dimensions) (index_names (df_index df)) cols.
Proof.
  unfold transform_dimension_column_headers.
  destruct (is_RangeIndex (df_index df)); [by intros [= <-]|].
  intros H. apply mapR_Ok in H. eapply Forall2_impl; [exact H|].
  intros n c Hc. simpl in Hc.
  destruct n as [k|]; simpl in Hc; [|done].
  destruct (dict_get _ k) as [d|] eqn:Hd; [|done]. injection Hc as <-.
  apply dimension_map_member in Hd as [Hd|[Hd Hk]]; [done|].
  unfold dimension_header. simpl. split; [done|]. split; [done|]. split; [done|].
  exists d. by rewrite Hk.
Qed.

Lemma transform_metric_column_headers_derived df im ddv labels cols :
  df_columns df = FlatColumns (Some metrics_dimension_key) labels →
  df_name df = None →
  transform_metric_column_headers df im ddv = Ok cols →
  Forall2 (metric_header im) labels cols.
Proof.
  intros Hc Hn. unfold transform_metric_column_headers. rewrite Hc. simpl.
  intros H. apply mapR_Ok in H.
  apply (proj1 (Forall2_fmap_l _ _ _ _)) in H.
  apply (proj1 (Forall2_fmap_l _ _ _ _)) in H.
  eapply Forall2_impl; [exact H|].
  intros x c Hstep. unfold compose in Hstep. cbn [head default] in Hstep.
  pose proof (make_column_leaf _ _ _ _ _ _ _ _ Hstep) as [Hcols Hacc].
  rewrite name_suffix_getattr, Hn in Hacc. simpl in Hacc.
  unfold make_column, get_header in Hstep.
  rewrite (bool_decide_true (Some metrics_dimension_key = _)) in Hstep by done.
  simpl in Hstep. destruct (dict_get im x) as [item|] eqn:Hitem; [|done].
  simpl in Hstep. inv_bind Hstep. injection Hstep as <-.
  unfold metric_header. simpl in *. eauto.
Qed.

(** C3. On an index without entries the mapping of a level and the fill
    of missing entries return the index as it is, so the normalisation of
    a frame without rows only names the column axis.  The row builder
    returns no record for a frame without rows.  The whole transform of a
    table without rows, when the table has the requested columns and
    the index levels of the dimensions and nothing is pivoted, does not
    fail: it returns one column definition per index level and per metric
    column, derived from their descriptors, and an empty data list.  No
    metric column is labelled ['name'] (the keys are formatted by
    [format_metric_key]; pandas would hand out such a column as the
    attribute [name] of the frame). *)
Theorem transform_of_empty_table :
  (∀ index level func,
     index_size index = 0%nat → map_index_level index level func = Ok index) ∧
  (∀ index v, index_size index = 0%nat → fillna_index index v = index) ∧
  (∀ data_frame dimensions,
     index_size (df_index data_frame) = 0%nat →
     format_data_frame data_frame dimensions =
       Ok (set_columns_name data_frame metrics_dimension_key)) ∧
  (∀ data_frame item_map dimension_display_values,
     df_values data_frame = [] →
     transform_data data_frame item_map dimension_display_values = Ok []) ∧
  (∀ self index name labels attr_name dimensions references,
     index_size index = 0%nat →
     (∀ d keys, pivot_data_frame d keys (transpose self) = Ok d) →
     (∀ k, k ∈ (display_columns dimensions ++
                dict_keys (make_item_map self references))%list → k ∈ labels) →
     "name" ∉ dict_keys (make_item_map self references) →
     NoDup (display_columns dimensions) →
     (∀ d, d ∈ dimensions → d_has_display_field d = true →
           Some (format_dimension_key (d_key d)) ∈ index_names index) →
     (is_RangeIndex index = true ∨
      Forall (λ n, ∃ d, d ∈ (dimensions ++ [metrics])%list ∧
                        n = Some (format_dimension_key (d_key d)))
             (index_names index)) →
     ∃ dimension_columns metric_columns metric_labels,
       transform self (empty_frame index name labels attr_name) dimensions references =
         Ok {| out_columns := (dimension_columns ++ metric_columns)%list;
               out_data := [] |} ∧
       (if is_RangeIndex index then dimension_columns = []
        else Forall2 (dimension_header dimensions) (index_names index)
               dimension_columns) ∧
       Forall2 (metric_header
                  (dict_set (make_item_map self references) TOTALS_VALUE TotalsItem))
               metric_labels metric_columns ∧
       (∀ x, x ∈ metric_labels ↔
             x ∈ dict_keys (make_item_map self references) ∧
             x ∉ display_columns dimensions)).
Proof.
  split; [exact map_index_level_empty|].
  split; [exact fillna_index_empty|].
  split; [exact format_data_frame_empty|].
  split; [exact transform_data_empty|].
  intros self index name labels nm dims refs Hz Hpivot Hreq Hnoname Hnd Hlvl Hnames.
  destruct (getitem_list_empty index name labels nm _ Hreq) as (selected & Hsel & Hs).
  destruct (map_display_values_empty dims [] index name selected None Hnd)
    as (ddv & remaining & Hmdv & Hrem); [| done |].
  { intros k Hk. apply Hs, elem_of_app. by left. }
  set (P := set_columns_name (empty_frame index name remaining None)
              metrics_dimension_key).
  destruct (transform_dimension_column_headers_total P dims) as [dcols Hd]; [done|].
  assert (∀ x, x ∈ remaining ↔
            x ∈ dict_keys (make_item_map self refs) ∧ x ∉ display_columns dims)
    as Hremaining.
  { intros x. rewrite Hrem, Hs, elem_of_app. tauto. }
  destruct (transform_metric_column_headers_flat P
              (dict_set (make_item_map self refs) TOTALS_VALUE TotalsItem)
              ddv remaining) as [mcols Hm]; [done | | |].
  { apply (getattr_name_flat P (Some metrics_dimension_key) remaining); [done|].
    intros Hx. by apply Hremaining in Hx as [? _]. }
  { intros x Hx. apply dict_get_set_is_Some, dict_keys_get.
    by apply Hremaining in Hx as [? _]. }
  exists dcols, mcols, remaining. split; [|split; [|split; [|done]]].
  - unfold transform, select_and_fill.
    rewrite Hsel. cbn [mbind result_bind].
    change (replace_inf (VStr "Inf") (fillna (VStr "NaN")
              (copy (empty_frame index name selected None))))
      with (empty_frame index name selected None).
    unfold map_display_values.
    etrans; [apply (bind_Ok_eq _ _ _ Hmdv)|]. cbn beta iota.
    rewrite format_data_frame_empty by done. cbn [mbind result_bind].
    rewrite Hpivot. cbn [mbind result_bind]. unfold build_output.
    fold P. rewrite Hd, Hm. cbn [mbind result_bind].
    rewrite transform_data_empty by done. done.
  - by apply transform_dimension_column_headers_derived in Hd.
  - by eapply transform_metric_column_headers_derived in Hm.
Qed.

(* =================================================================== *)
(** ** Loops that raise *)
(* =================================================================== *)

Lemma mapR_Raise {A B} (f : A → result B) (xs : list A) (e : exn) :
  mapR f xs = Raise e → ∃ x, x ∈ xs ∧ f x = Raise e.
Proof.
  induction xs as [|x xs IH]; simpl; [done|].
  destruct (f x) as [y|e'] eqn:E; simpl.
  - destruct (mapR f xs) as [ys|e'] eqn:E'; simpl; [done|].
    intros [= <-]. destruct IH as (x' & Hx' & Hf); [done|].
    exists x'. split; [by right | done].
  - intros [= <-]. exists x. split; [by left | done].
Qed.

Lemma mapR_fails {A B} (f : A → result B) (xs : list A) (x : A) (E : exn) :
  x ∈ xs → f x = Raise E →
  (∀ y e, y ∈ xs → f y = Raise e → e = E) →
  mapR f xs = Raise E.
Proof.
  intros Hx Hfx Hall.
  destruct (mapR f xs) as [ys|e] eqn:Hm.
  - apply mapR_Ok in Hm.
    destruct (Forall2_elem_of_l _ _ _ _ Hm Hx) as (y & _ & Hy). congruence.
  - apply mapR_Raise in Hm as (y & Hy & Hfy). by rewrite (Hall y e Hy Hfy).
Qed.

Lemma foldR_Raise {A B} (f : B → A → result B) (xs : list A) :
  ∀ acc e, foldR f acc xs = Raise e → ∃ acc' x, x ∈ xs ∧ f acc' x = Raise e.
Proof.
  induction xs as [|x xs IH]; intros acc e; simpl; [done|].
  destruct (f acc x) as [acc'|e'] eqn:E; simpl.
  - intros H. destruct (IH _ _ H) as (a & x' & Hx' & Hf).
    exists a, x'. split; [by right | done].
  - intros [= <-]. exists acc, x. split; [by left | done].
Qed.

(* =================================================================== *)
(** ** Index normalisation: bounds, shape, dates *)
(* =================================================================== *)

Lemma mapR_length {A B} (f : A → result B) (xs : list A) (ys : list B) :
  mapR f xs = Ok ys → length ys = length xs.
Proof. intros H. apply mapR_Ok in H. symmetry. by eapply Forall2_length. Qed.

Lemma index_size_tuples (index : Index) :
  length (index_tuples index) = index_size index.
Proof.
  destruct index as [n | name values | names tuples]; simpl.
  - by rewrite length_fmap, length_seq.
  - by rewrite length_fmap.
  - done.
Qed.

Lemma map_index_level_shape index level func index' :
  map_index_level index level func = Ok index' →
  index_size index' = index_size index ∧ index_names index' = index_names index.
Proof.
  unfold map_index_level.
  destruct (decide (0%nat = index_size index)) as [Hz|Hz].
  { by intros [= <-]. }
  destruct index as [n | name values | names tuples]; simpl in *.
  - destruct (decide (level = 0%nat)); [|done].
    intros H. inv_bind H. injection H as <-. simpl.
    apply mapR_length in Ha. by rewrite Ha, length_fmap, length_seq.
  - destruct (decide (level = 0%nat)); [|done].
    intros H. inv_bind H. injection H as <-. simpl.
    by apply mapR_length in Ha.
  - intros H. inv_bind H. injection H as <-. simpl.
    by apply mapR_length in Ha.
Qed.

(** Mapping a level of an index: the bounds.  A mapping that returns
    leaves the number of entries and the level names as they were.  On an
    index with entries, a level other than 0 of a single-level index fails
    the assertion, and a level that a multi-level index does not have is
    an [IndexError]. *)
Theorem map_index_level_bounds (index : Index) (level : nat)
    (func : scalar → result scalar) :
  (∀ index', map_index_level index level func = Ok index' →
     index_size index' = index_size index ∧
     index_names index' = index_names index) ∧
  (index_size index ≠ 0%nat →
   (∀ names tuples, index ≠ MultiIndex names tuples) →
   level ≠ 0%nat →
   map_index_level index level func = Raise AssertionError) ∧
  (∀ names tuples,
     index = MultiIndex names tuples → tuples ≠ [] →
     Forall (λ t, length t = length names) tuples →
     (length names ≤ level)%nat →
     map_index_level index level func = Raise IndexError).
Proof.
  split; [|split].
  - intros index'. apply map_index_level_shape.
  - intros Hsize Hflat Hlevel. unfold map_index_level.
    rewrite decide_False by done.
    destruct index as [n | name values | names tuples].
    + by rewrite decide_False.
    + by rewrite decide_False.
    + by destruct (Hflat names tuples).
  - intros names tuples -> Hne Hlen Hlevel. unfold map_index_level.
    rewrite decide_False by (simpl; destruct tuples; done).
    assert (∀ t, t ∈ tuples → map_tuple_level level func t = Raise IndexError)
      as Hrow.
    { intros t Ht. unfold map_tuple_level.
      rewrite Forall_forall in Hlen. specialize (Hlen t Ht).
      rewrite lookup_ge_None_2; [done | lia]. }
    destruct tuples as [|t tuples]; [done|].
    erewrite mapR_fails; [done | by left | apply Hrow; by left |].
    intros y e Hy Hfy. rewrite (Hrow y Hy) in Hfy. by injection Hfy.
Qed.

Lemma format_data_frame_step_shape df entry df' :
  format_data_frame_step df entry = Ok df' →
  index_size (df_index df') = index_size (df_index df) ∧
  index_names (df_index df') = index_names (df_index df).
Proof.
  destruct entry as [i d]. unfold format_data_frame_step.
  destruct (d_interval d).
  - intros H. inv_bind H. injection H as <-. simpl.
    by apply map_index_level_shape in Ha.
  - by intros [= <-].
Qed.

Lemma format_data_frame_steps_shape entries :
  ∀ df df', foldR format_data_frame_step df entries = Ok df' →
    index_size (df_index df') = index_size (df_index df) ∧
    index_names (df_index df') = index_names (df_index df).
Proof.
  induction entries as [|e entries IH]; intros df df' H; simpl in H.
  - by injection H as <-.
  - inv_bind H. apply format_data_frame_step_shape in Ha as [H1 H2].
    destruct (IH _ _ H) as [-> ->]. done.
Qed.

Lemma fillna_index_shape index v :
  index_size (fillna_index index v) = index_size index ∧
  index_names (fillna_index index v) = index_names index.
Proof.
  destruct index as [n | name values | names tuples]; simpl;
    by rewrite ?length_map.
Qed.

Lemma format_data_frame_shape df dimensions df' :
  format_data_frame df dimensions = Ok df' →
  index_size (df_index df') = index_size (df_index df) ∧
  index_names (df_index df') = index_names (df_index df).
Proof.
  unfold format_data_frame. intros H. inv_bind H. injection H as <-. simpl.
  apply format_data_frame_steps_shape in Ha as [H1 H2].
  destruct (fillna_index_shape (df_index a) (VStr TOTALS_VALUE)) as [-> ->].
  done.
Qed.

(** What the normalisation of a frame never touches.  When
    [format_data_frame] returns, the frame has the cells, the column
    labels and the attribute [name] it had, as many index entries, and the
    same names of index levels; the name of a single-level column axis is
    the metrics key. *)
Theorem format_data_frame_keeps_shape (data_frame : DataFrame)
    (dimensions : list Dimension) (df' : DataFrame) :
  format_data_frame data_frame dimensions = Ok df' →
  df_values df' = df_values data_frame ∧
  columns_tuples (df_columns df') = columns_tuples (df_columns data_frame) ∧
  df_name df' = df_name data_frame ∧
  index_size (df_index df') = index_size (df_index data_frame) ∧
  index_names (df_index df') = index_names (df_index data_frame) ∧
  columns_names (df_columns df') =
    match df_columns data_frame with
    | FlatColumns _ _ => [Some metrics_dimension_key]
    | MultiColumns names _ => names
    end.
Proof.
  intros H. pose proof (format_data_frame_shape _ _ _ H) as [Hsize Hnames].
  pose proof (format_data_frame_values _ _ _ H) as (Hvalues & Htuples & _).
  split; [done|]. split; [done|]. split; [|split; [done|split; [done|]]].
  - unfold format_data_frame in H. inv_bind H. injection H as <-. simpl.
    by apply format_data_frame_steps_values in Ha as (_ & _ & ->).
  - unfold format_data_frame in H. inv_bind H. injection H as <-. simpl.
    apply format_data_frame_steps_values in Ha as (_ & -> & _).
    by destruct (df_columns data_frame).
Qed.

Lemma mapR_strftime fmt (ts : list timestamp) :
  mapR (strftime_value fmt) (VTimestamp <$> ts) =
    Ok ((λ t, VStr (strftime fmt t)) <$> ts).
Proof.
  induction ts as [|t ts IH]; [done|].
  rewrite !fmap_cons. cbn [mapR strftime_value mbind result_bind].
  by rewrite IH.
Qed.

Lemma is_DatetimeIndex_timestamps (ts : list timestamp) :
  is_DatetimeIndex (VTimestamp <$> ts) = true.
Proof. induction ts as [|t ts IH]; [done|]. by rewrite fmap_cons. Qed.

Lemma mapR_present_strftime fmt (ts : list timestamp) :
  mapR (map_present (strftime_value fmt)) (VTimestamp <$> ts) =
    Ok ((λ t, VStr (strftime fmt t)) <$> ts).
Proof.
  induction ts as [|t ts IH]; [done|].
  rewrite !fmap_cons. cbn [mapR map_present isnull strftime_value mbind result_bind].
  by rewrite IH.
Qed.

Lemma format_data_frame_steps_plain entries :
  ∀ df, Forall (λ e : nat * Dimension, d_interval e.2 = None) entries →
    foldR format_data_frame_step df entries = Ok df.
Proof.
  induction entries as [|[i d] entries IH]; intros df Hall; [done|].
  apply Forall_cons in Hall as [Hd Hall]. simpl in Hd.
  assert (format_data_frame_step df (i, d) = Ok df) as Hstep.
  { unfold format_data_frame_step. cbn beta iota. by rewrite Hd. }
  cbn [foldR]. rewrite Hstep. cbn [mbind result_bind]. by apply IH.
Qed.

Lemma imap_plain (rest : list Dimension) :
  ∀ g : nat → nat,
    Forall (λ d, d_interval d = None) rest →
    Forall (λ e : nat * Dimension, d_interval e.2 = None)
      (imap (λ i d, (g i, d)) rest).
Proof.
  induction rest as [|d rest IH]; intros g Hall; [constructor|].
  apply Forall_cons in Hall as [Hd Hall].
  cbn [imap]. constructor; [done|].
  apply (IH (g ∘ S)). done.
Qed.

(** Dates are formatted once.  For a single-level index of timestamps
    and a datetime dimension in first place, the normalisation replaces
    every timestamp by its text under the date format of the interval of
    the dimension (the daily format for an interval without one) and names
    the column axis.  Run again on its own result, it raises
    [AttributeError]: the entries are text, which has no [strftime]. *)
Theorem datetime_level_is_formatted_once (data_frame : DataFrame)
    (name : option string) (ts : list timestamp) (d : Dimension)
    (rest : list Dimension) (i : interval) :
  df_index data_frame = FlatIndex name (VTimestamp <$> ts) →
  d_interval d = Some i →
  Forall (λ d', d_interval d' = None) rest →
  ∃ df',
    format_data_frame data_frame (d :: rest) = Ok df' ∧
    df_index df' = FlatIndex name ((λ t, VStr (strftime (date_format i) t)) <$> ts) ∧
    df_values df' = df_values data_frame ∧
    (ts ≠ [] → format_data_frame df' (d :: rest) = Raise AttributeError).
Proof.
  intros Hindex Hd Hrest.
  set (texts := (λ t, VStr (strftime (date_format i) t)) <$> ts).
  assert (∀ df, foldR format_data_frame_step df
                  (imap ((λ i d, (i, d)) ∘ S) rest) = Ok df) as Hplain.
  { intros df. apply format_data_frame_steps_plain.
    by apply (imap_plain rest S). }
  assert (fillna_index (FlatIndex name texts) (VStr TOTALS_VALUE)
          = FlatIndex name texts) as Hfill.
  { simpl. f_equal. unfold texts. rewrite <- list_fmap_compose.
    by apply list_fmap_ext. }
  assert (map_index_level (FlatIndex name (VTimestamp <$> ts)) 0
            (strftime_value (date_format i)) = Ok (FlatIndex name texts)) as Hmap.
  { unfold map_index_level.
    destruct (decide (0%nat = index_size (FlatIndex name (VTimestamp <$> ts))))
      as [Hz|Hz].
    - simpl in Hz. rewrite length_fmap in Hz. destruct ts; [done|done].
    - rewrite decide_True by done.
      by rewrite is_DatetimeIndex_timestamps, mapR_present_strftime. }
  exists (set_columns_name (set_index data_frame (FlatIndex name texts))
            metrics_dimension_key).
  split; [|split; [done|split; [done|]]].
  - assert (format_data_frame_step data_frame (0%nat, d)
            = Ok (set_index data_frame (FlatIndex name texts))) as Hstep.
    { unfold format_data_frame_step. cbn beta iota. rewrite Hd, Hindex.
      fold (date_format i). by rewrite Hmap. }
    unfold format_data_frame. cbn [imap foldR].
    rewrite Hstep. cbn [mbind result_bind].
    rewrite Hplain. cbn [mbind result_bind set_index df_index].
    by rewrite Hfill.
  - intros Hts.
    assert (format_data_frame_step
              (set_columns_name (set_index data_frame (FlatIndex name texts))
                 metrics_dimension_key) (0%nat, d) = Raise AttributeError) as Hstep.
    { unfold format_data_frame_step. cbn beta iota. rewrite Hd.
      cbn [set_columns_name set_index df_index].
      unfold map_index_level.
      destruct ts as [|t ts]; [done|]. unfold texts. rewrite fmap_cons.
      rewrite decide_False by done. rewrite decide_True by done.
      reflexivity. }
    unfold format_data_frame. cbn [imap foldR]. by rewrite Hstep.
Qed.

(* =================================================================== *)
(** ** Totals of a date dimension *)
(* =================================================================== *)

Lemma mapR_present_dates fmt (values : list scalar) :
  Forall (λ x, x = VNone ∨ ∃ t, x = VTimestamp t) values →
  is_DatetimeIndex values = true ∧
  mapR (map_present (strftime_value fmt)) values =
    Ok ((λ x, match x with
              | VTimestamp t => VStr (strftime fmt t)
              | _ => x
              end) <$> values).
Proof.
  induction 1 as [|x values Hx _ [IH1 IH2]]; [done|].
  split.
  - unfold is_DatetimeIndex. cbn [forallb].
    fold (is_DatetimeIndex values). rewrite IH1.
    by destruct Hx as [-> | [t ->]].
  - rewrite fmap_cons. cbn [mapR]. rewrite IH2.
    by destruct Hx as [-> | [t ->]].
Qed.

(** C5. The normalisation of the frame replaces every missing entry of
    the row index by the totals sentinel and leaves no missing entry; in
    the header tree built with the totals descriptor in the item map, a
    node carries the marker ['fireant-totals'] exactly when the value it
    was built from is the sentinel, and such a node has the header
    "Totals".  The normalisation returns on the totals row of a date
    dimension: on a single-level index of timestamps with missing entries
    and a datetime dimension in first place, every timestamp becomes its
    text under the date format and every missing entry the sentinel. *)
Theorem totals_invariant_holds :
  (∀ data_frame dimensions df',
     format_data_frame data_frame dimensions = Ok df' →
     Forall2 (Forall2 normalized_entry)
       (index_tuples (df_index data_frame)) (index_tuples (df_index df'))) ∧
  (∀ data_frame item_map dimension_display_values cols,
     transform_metric_column_headers data_frame
       (dict_set item_map TOTALS_VALUE TotalsItem) dimension_display_values
       = Ok cols →
     totals_invariant (columns_names (df_columns data_frame))
       (columns_tuples (df_columns data_frame)) cols) ∧
  (∀ data_frame name values d rest i,
     df_index data_frame = FlatIndex name values →
     Forall (λ x, x = VNone ∨ ∃ t, x = VTimestamp t) values →
     d_interval d = Some i →
     Forall (λ d', d_interval d' = None) rest →
     ∃ df',
       format_data_frame data_frame (d :: rest) = Ok df' ∧
       df_index df' =
         FlatIndex name
           ((λ x, match x with
                  | VTimestamp t => VStr (strftime (date_format i) t)
                  | _ => VStr TOTALS_VALUE
                  end) <$> values)).
Proof.
  split; [|split].
  - intros df dims df' H. unfold format_data_frame in H.
    inv_bind H. injection H as <-. simpl.
    apply format_data_frame_steps_nulls in Ha.
    rewrite index_tuples_fillna.
    apply Forall2_fmap_r. eapply Forall2_impl; [exact Ha|].
    intros row row' Hrow. apply Forall2_fmap_r.
    eapply Forall2_impl; [exact Hrow|].
    intros x y Hxy. unfold same_nulls in Hxy. unfold normalized_entry.
    rewrite Hxy. unfold compose. destruct (isnull y) eqn:Hy; [done|].
    by rewrite Hy.
  - intros df im ddv cols H. by eapply make_columns_totals.
  - intros df name values d rest i Hindex Hvalues Hd Hrest.
    set (texts := (λ x, match x with
                        | VTimestamp t => VStr (strftime (date_format i) t)
                        | _ => x
                        end) <$> values).
    assert (map_index_level (FlatIndex name values) 0
              (strftime_value (date_format i)) = Ok (FlatIndex name texts)) as Hmap.
    { unfold map_index_level.
      destruct (decide (0%nat = index_size (FlatIndex name values))) as [Hz|Hz].
      - simpl in Hz. unfold texts. by destruct values.
      - rewrite decide_True by done.
        destruct (mapR_present_dates (date_format i) values Hvalues) as [-> ->].
        done. }
    assert (format_data_frame_step df (0%nat, d)
            = Ok (set_index df (FlatIndex name texts))) as Hstep.
    { unfold format_data_frame_step. cbn beta iota. rewrite Hd, Hindex.
      fold (date_format i). by rewrite Hmap. }
    eexists. split.
    + unfold format_data_frame. cbn [imap foldR].
      rewrite Hstep. cbn [mbind result_bind].
      rewrite format_data_frame_steps_plain by (by apply (imap_plain rest S)).
      cbn [mbind result_bind]. reflexivity.
    + cbn [set_columns_name set_index df_index fillna_index]. f_equal.
      unfold texts. rewrite <- list_fmap_compose. apply list_fmap_ext.
      intros j x Hx. rewrite Forall_forall in Hvalues.
      destruct (Hvalues x (list_elem_of_lookup_2 _ _ _ Hx)) as [-> | [t ->]]; done.
Qed.

(* =================================================================== *)
(** ** When the header builders fail *)
(* =================================================================== *)

(** The dimension headers need every index level described.  On a
    default integer index the builder returns no column.  Otherwise it
    returns one header per index level, in order, when every level names a
    dimension of the call or the metrics pseudo-dimension, and raises
    [KeyError] as soon as one level does not, an unnamed level included. *)
Theorem dimension_headers_need_every_level (data_frame : DataFrame)
    (dimensions : list Dimension) :
  (is_RangeIndex (df_index data_frame) = true →
   transform_dimension_column_headers data_frame dimensions = Ok []) ∧
  (is_RangeIndex (df_index data_frame) = false →
   Forall (level_described dimensions) (index_names (df_index data_frame)) →
   ∃ cols,
     transform_dimension_column_headers data_frame dimensions = Ok cols ∧
     Forall2 (dimension_header dimensions)
       (index_names (df_index data_frame)) cols) ∧
  (is_RangeIndex (df_index data_frame) = false →
   ¬ Forall (level_described dimensions) (index_names (df_index data_frame)) →
   transform_dimension_column_headers data_frame dimensions = Raise KeyError).
Proof.
  split; [|split].
  - intros Hr. unfold transform_dimension_column_headers. by rewrite Hr.
  - intros Hr Hall.
    destruct (transform_dimension_column_headers_total data_frame dimensions)
      as [cols Hcols]; [by right|].
    exists cols. split; [done|].
    apply transform_dimension_column_headers_derived in Hcols.
    by rewrite Hr in Hcols.
  - intros Hr Hnot.
    destruct (transform_dimension_column_headers data_frame dimensions)
      as [cols|e] eqn:Hcols.
    + exfalso. apply Hnot.
      apply transform_dimension_column_headers_derived in Hcols.
      rewrite Hr in Hcols.
      apply Forall_forall. intros n Hn.
      destruct (Forall2_elem_of_l _ _ _ _ Hcols Hn) as (c & _ & Hc).
      destruct Hc as (_ & _ & _ & d & Hd & Hname & _). by exists d.
    + unfold transform_dimension_column_headers in Hcols. rewrite Hr in Hcols.
      apply mapR_Raise in Hcols as (n & _ & Hn).
      destruct (n ≫= _); [done|]. by injection Hn as <-.
Qed.

Lemma get_header_Ok_iff im ddv k f is_totals :
  (∃ h, get_header im ddv k f is_totals = Ok h) ↔
  (f = Some metrics_dimension_key ∨ is_totals = true → is_Some (dict_get im k)).
Proof.
  unfold get_header.
  destruct (decide (f = Some metrics_dimension_key)) as [Hf|Hf].
  - rewrite bool_decide_true by done. cbn [orb]. split.
    + intros [h Hh] _. destruct (dict_get im k); [eauto | done].
    + intros H. destruct H as [it Hit]; [by left|]. rewrite Hit. eauto.
  - rewrite bool_decide_false by done. cbn [orb]. destruct is_totals.
    + split.
      * intros [h Hh] _. destruct (dict_get im k); [eauto | done].
      * intros H. destruct H as [it Hit]; [by right|]. rewrite Hit. eauto.
    + split; [|eauto]. intros _ [?|?]; done.
Qed.

Lemma get_header_error im ddv k f is_totals e :
  get_header im ddv k f is_totals = Raise e → e = KeyError.
Proof.
  unfold get_header. destruct (_ || _); [|done].
  destruct (dict_get im k); [done|]. by intros [= <-].
Qed.

Lemma described_level_below im f names' (tuples : list (list string)) k :
  header_items_described im (f :: names') tuples →
  header_items_described im names'
    (drop_level0 (filter (λ t, head t = Some k) tuples)).
Proof.
  intros Hd t' j k' Ht' Hj Hc.
  apply list_elem_of_fmap in Ht' as (t & -> & Ht).
  apply list_elem_of_filter in Ht as [_ Ht].
  apply (Hd t (S j) k' Ht); [|done].
  destruct t; [done|]. done.
Qed.

Lemma make_columns_described name im ddv (names : list (option string)) :
  name ≠ NameColumn →
  ∀ tuples prev,
    names ≠ [] →
    Forall (λ t, length t = length names) tuples →
    header_items_described im names tuples →
    ∃ cols, _make_columns name im ddv names tuples prev = Ok cols.
Proof.
  intros Hname.
  induction names as [|f names' IH]; intros tuples prev Hne Hlen Hd; [done|].
  cbn [_make_columns]. apply mapR_total. apply Forall_forall.
  intros [k group] Hg. unfold make_column.
  assert (∃ t, t ∈ tuples ∧ t !! 0%nat = Some k ∧
               match group with
               | Some g => names' ≠ [] ∧ g = filter (λ t, head t = Some k) tuples
               | None => True
               end) as (t & Ht & Hk & Hgroup).
  { unfold level_groups in Hg. destruct names' as [|n1 names''].
    - apply list_elem_of_fmap in Hg as (t & [= -> ->] & Ht).
      exists t. split; [done|]. split; [|done].
      rewrite Forall_forall in Hlen. specialize (Hlen t Ht).
      destruct t; [done|]. done.
    - apply list_elem_of_fmap in Hg as ([k' g] & [= -> ->] & Hg).
      unfold groupby_level0 in Hg.
      apply list_elem_of_fmap in Hg as (k'' & [= -> ->] & Hk'').
      apply elem_of_group_keys in Hk'' as (t & Ht & Hhead).
      exists t. split; [done|]. split; [|done].
      destruct t; [done|]. by injection Hhead as ->. }
  destruct (proj2 (get_header_Ok_iff im ddv k f (bool_decide (TOTALS_VALUE = k))))
    as [h Hh].
  { intros Hc. apply (Hd t 0%nat k Ht Hk).
    destruct Hc as [->|Hc]; [by left|].
    right. by apply bool_decide_eq_true in Hc. }
  rewrite Hh. cbn [mbind result_bind].
  destruct group as [g|]; cbn [mbind result_bind];
    [|destruct name; [eauto | eauto | done]].
  destruct Hgroup as [Hn' ->].
  destruct (IH (drop_level0 (filter (λ t, head t = Some k) tuples))
              (prev ++ [k])%list Hn') as [sub Hsub].
  - apply Forall_forall. intros t' Ht'.
    apply list_elem_of_fmap in Ht' as (t0 & -> & Ht0).
    apply list_elem_of_filter in Ht0 as [_ Ht0].
    rewrite Forall_forall in Hlen. specialize (Hlen t0 Ht0).
    destruct t0; simpl in *; [done | lia].
  - by eapply described_level_below.
  - rewrite Hsub. cbn [mbind result_bind]. eauto.
Qed.

Lemma make_columns_Ok_described name im ddv (names : list (option string)) :
  ∀ tuples prev cols,
    Forall (λ t, length t = length names) tuples →
    _make_columns name im ddv names tuples prev = Ok cols →
    header_items_described im names tuples.
Proof.
  induction names as [|f names' IH]; intros tuples prev cols Hlen Hcols; [done|].
  cbn [_make_columns] in Hcols. apply mapR_Ok in Hcols.
  intros t j k Ht Hj Hc.
  pose proof Hlen as Hlen'. rewrite Forall_forall in Hlen'.
  pose proof (Hlen' t Ht) as Hlt.
  destruct t as [|k0 t']; [done|].
  assert (∃ group, (k0, group) ∈ level_groups names' tuples ∧
                   match group with
                   | Some g => g = filter (λ t, head t = Some k0) tuples
                   | None => names' = []
                   end) as (group & Hg & Hgroup).
  { unfold level_groups. destruct names' as [|n1 names''].
    - exists None. split; [|done]. apply list_elem_of_fmap.
      exists (k0 :: t'). done.
    - exists (Some (filter (λ t, head t = Some k0) tuples)). split; [|done].
      apply list_elem_of_fmap.
      exists (k0, filter (λ t, head t = Some k0) tuples). split; [done|].
      unfold groupby_level0. apply list_elem_of_fmap. exists k0. split; [done|].
      apply elem_of_group_keys. exists (k0 :: t'). done. }
  destruct (Forall2_elem_of_l _ _ _ _ Hcols Hg) as (c & _ & Hc0).
  destruct j as [|j].
  - injection Hj as ->. unfold make_column in Hc0. inv_bind Hc0.
    apply (proj1 (get_header_Ok_iff im ddv k f (bool_decide (TOTALS_VALUE = k))));
      [eauto|].
    destruct Hc as [Hc | ->].
    + left. simpl in Hc. by injection Hc.
    + right. by apply bool_decide_eq_true.
  - destruct group as [g|].
    + subst g. apply make_column_group in Hc0 as (_ & sub & Hsub & _).
      assert (header_items_described im names'
                (drop_level0 (filter (λ t, head t = Some k0) tuples))) as Hd'.
      { eapply IH; [|exact Hsub].
        apply Forall_forall. intros t0 Ht0.
        apply list_elem_of_fmap in Ht0 as (t1 & -> & Ht1).
        apply list_elem_of_filter in Ht1 as [_ Ht1].
        specialize (Hlen' t1 Ht1). destruct t1; simpl in *; [done | lia]. }
      apply (Hd' t' j k); [|exact Hj|exact Hc].
      apply list_elem_of_fmap. exists (k0 :: t'). split; [done|].
      by apply list_elem_of_filter.
    + subst names'. simpl in Hlt. destruct t'; [done|]. simpl in Hlt. lia.
Qed.

Lemma make_columns_error name im ddv (names : list (option string)) :
  ∀ tuples prev e,
    names ≠ [] →
    _make_columns name im ddv names tuples prev = Raise e →
    e = KeyError ∨ (e = TypeError ∧ name = NameColumn).
Proof.
  induction names as [|f names' IH]; intros tuples prev e Hne Hcols; [done|].
  cbn [_make_columns] in Hcols.
  apply mapR_Raise in Hcols as ([k group] & Hg & Hc).
  unfold make_column in Hc.
  destruct (get_header im ddv k f _) as [h|e'] eqn:Hh; cbn [mbind result_bind] in Hc.
  - destruct group as [g|]; cbn [mbind result_bind] in Hc.
    + destruct (_make_columns name im ddv names' _ _) as [sub|e'] eqn:Hsub;
        cbn [mbind result_bind] in Hc; [done|].
      injection Hc as <-. eapply IH; [|exact Hsub].
      intros ->. unfold level_groups in Hg.
      by apply list_elem_of_fmap in Hg as (? & [= _ ?] & _).
    + destruct name; cbn [mbind result_bind] in Hc; try done.
      injection Hc as <-. by right.
  - injection Hc as <-. left. by eapply get_header_error.
Qed.

Lemma make_columns_no_KeyError name im ddv (names : list (option string)) :
  ∀ tuples prev,
    Forall (λ t, length t = length names) tuples →
    header_items_described im names tuples →
    _make_columns name im ddv names tuples prev ≠ Raise KeyError.
Proof.
  induction names as [|f names' IH]; intros tuples prev Hlen Hd Hcols.
  { destruct tuples as [|t tuples]; [|done].
    cbn [_make_columns] in Hcols. done. }
  cbn [_make_columns] in Hcols.
  apply mapR_Raise in Hcols as ([k group] & Hg & Hc).
  unfold make_column in Hc.
  assert (∃ t, t ∈ tuples ∧ t !! 0%nat = Some k ∧
               match group with
               | Some g => g = filter (λ t, head t = Some k) tuples
               | None => True
               end) as (t & Ht & Hk & Hgroup).
  { unfold level_groups in Hg. destruct names' as [|n1 names''].
    - apply list_elem_of_fmap in Hg as (t & [= -> ->] & Ht).
      exists t. split; [done|]. split; [|done].
      rewrite Forall_forall in Hlen. specialize (Hlen t Ht).
      destruct t; [done|]. done.
    - apply list_elem_of_fmap in Hg as ([k' g] & [= -> ->] & Hg).
      unfold groupby_level0 in Hg.
      apply list_elem_of_fmap in Hg as (k'' & [= -> ->] & Hk'').
      apply elem_of_group_keys in Hk'' as (t & Ht & Hhead).
      exists t. split; [done|]. split; [|done].
      destruct t; [done|]. by injection Hhead as ->. }
  destruct (proj2 (get_header_Ok_iff im ddv k f (bool_decide (TOTALS_VALUE = k))))
    as [h Hh].
  { intros Hc0. apply (Hd t 0%nat k Ht Hk).
    destruct Hc0 as [->|Hc0]; [by left|].
    right. by apply bool_decide_eq_true in Hc0. }
  rewrite Hh in Hc. cbn [mbind result_bind] in Hc.
  destruct group as [g|]; cbn [mbind result_bind] in Hc.
  - subst g.
    destruct (_make_columns name im ddv names' _ _) as [sub|e'] eqn:Hsub;
      cbn [mbind result_bind] in Hc; [done|].
    injection Hc as ->. eapply IH; [| |exact Hsub].
    + apply Forall_forall. intros t' Ht'.
      apply list_elem_of_fmap in Ht' as (t0 & -> & Ht0).
      apply list_elem_of_filter in Ht0 as [_ Ht0].
      rewrite Forall_forall in Hlen. specialize (Hlen t0 Ht0).
      destruct t0; simpl in *; [done | lia].
    + by eapply described_level_below.
  - destruct name; cbn [mbind result_bind] in Hc; done.
Qed.

(** The metric headers need a descriptor for every label they look up,
    and a frame whose attribute [name] is not one of its columns.  On a
    well-formed column index, when the attribute look-up finds no column
    (the frame has the attribute set, or no column is labelled ['name']),
    the header tree is built exactly when the item map holds every label of
    the metrics level and the totals sentinel wherever it occurs in a
    column label, and the builder raises [KeyError] otherwise; labels of
    dimension levels need no entry.  When the look-up finds the column
    labelled ['name'], the builder raises: [TypeError] from the join of the
    first leaf when every label looked up is described, [KeyError] or
    [TypeError] otherwise. *)
Theorem metric_headers_need_descriptors (data_frame : DataFrame)
    (item_map : dict Item) (dimension_display_values : display_values_map) :
  wf_columns (df_columns data_frame) →
  (getattr_name data_frame ≠ NameColumn →
   header_items_described item_map (columns_names (df_columns data_frame))
     (columns_tuples (df_columns data_frame)) →
   ∃ cols,
     transform_metric_column_headers data_frame item_map dimension_display_values
       = Ok cols) ∧
  (getattr_name data_frame ≠ NameColumn →
   ¬ header_items_described item_map (columns_names (df_columns data_frame))
       (columns_tuples (df_columns data_frame)) →
   transform_metric_column_headers data_frame item_map dimension_display_values
     = Raise KeyError) ∧
  (getattr_name data_frame = NameColumn →
   (df_name data_frame = None ∧
    ∃ t, t ∈ columns_tuples (df_columns data_frame) ∧ head t = Some "name") ∧
   ∃ e,
     transform_metric_column_headers data_frame item_map dimension_display_values
       = Raise e ∧
     (e = KeyError ∨ e = TypeError) ∧
     (header_items_described item_map (columns_names (df_columns data_frame))
        (columns_tuples (df_columns data_frame)) → e = TypeError)).
Proof.
  intros Hwf. apply columns_tuples_wf in Hwf as [Hne Hlen].
  unfold transform_metric_column_headers. split; [|split].
  - intros Hname Hd. by apply make_columns_described.
  - intros Hname Hnot.
    destruct (_make_columns _ _ _ _ _ _) as [cols|e] eqn:Hcols.
    + exfalso. apply Hnot. by eapply make_columns_Ok_described.
    + destruct (make_columns_error _ _ _ _ _ _ _ Hne Hcols) as [->|[_ ?]]; done.
  - intros Hname.
    assert (df_name data_frame = None ∧
            ∃ t, t ∈ columns_tuples (df_columns data_frame) ∧ head t = Some "name")
      as Hcolumn.
    { unfold getattr_name in Hname. destruct (df_name data_frame); [done|].
      split; [done|].
      destruct (positions_of (df_columns data_frame) "name") as [|j ps] eqn:E;
        [done|].
      assert (j ∈ positions_of (df_columns data_frame) "name") as Hj
        by (rewrite E; left).
      apply elem_of_positions_from in Hj as (_ & t & Ht & Hh).
      exists t. split; [by eapply list_elem_of_lookup_2 | done]. }
    split; [exact Hcolumn|].
    destruct (_make_columns _ _ _ _ _ _) as [cols|e] eqn:Hcols.
    + exfalso. apply make_columns_name in Hcols; [done | done |].
      destruct Hcolumn as (_ & t & Ht & _). intros Hnil. rewrite Hnil in Ht.
      by apply elem_of_nil in Ht.
    + exists e. split; [done|].
      destruct (make_columns_error _ _ _ _ _ _ _ Hne Hcols) as [->|[-> _]].
      * split; [by left|]. intros Hd.
        by apply (make_columns_no_KeyError _ _ _ _ _ _ Hlen Hd) in Hcols.
      * split; [by right | done].
Qed.

Lemma get_header_text im ddv k f h :
  get_header im ddv k f (bool_decide (TOTALS_VALUE = k)) = Ok h →
  header_text im ddv f k h.
Proof.
  unfold get_header, header_text.
  destruct (decide (f = Some metrics_dimension_key ∨ k = TOTALS_VALUE)) as [Hc|Hc].
  - assert (bool_decide (f = Some metrics_dimension_key) ||
            bool_decide (TOTALS_VALUE = k) = true) as ->.
    { destruct Hc as [-> | ->].
      - by rewrite bool_decide_true.
      - rewrite (bool_decide_true (TOTALS_VALUE = _)) by done. apply orb_true_r. }
    destruct (dict_get im k) as [item|]; [|done]. intros [= <-]. eauto.
  - rewrite bool_decide_false by (intros ?; apply Hc; by left).
    rewrite bool_decide_false by (intros ?; apply Hc; by right).
    by intros [= <-].
Qed.

Lemma make_columns_texts name im ddv (names : list (option string)) :
  ∀ tuples prev cols,
    _make_columns name im ddv names tuples prev = Ok cols →
    header_texts im ddv names tuples cols.
Proof.
  induction names as [|f names' IH]; intros tuples prev cols H; [done|].
  cbn [_make_columns] in H. apply mapR_Ok in H. cbn [header_texts].
  eapply Forall2_impl; [exact H|].
  intros [cv group] c Hstep. cbn [fst snd]. split.
  - unfold make_column in Hstep. inv_bind Hstep. inv_bind Hstep.
    injection Hstep as <-. cbn [Header]. by apply get_header_text.
  - destruct group as [g|].
    + apply make_column_group in Hstep as (_ & sub & Hsub & ->). by eapply IH.
    + apply make_column_leaf in Hstep as (-> & _). done.
Qed.

(** The text of every header.  At every depth of the header tree, a
    node of the metrics level and a node built from the totals sentinel
    read the label of their descriptor; every other node reads the display
    value that the call holds for its dimension value, and the value
    itself when it holds none. *)
Theorem header_texts_hold (data_frame : DataFrame) (item_map : dict Item)
    (dimension_display_values : display_values_map) (cols : list column) :
  transform_metric_column_headers data_frame item_map dimension_display_values
    = Ok cols →
  header_texts item_map dimension_display_values
    (columns_names (df_columns data_frame))
    (columns_tuples (df_columns data_frame)) cols.
Proof. apply make_columns_texts. Qed.

(* =================================================================== *)
(** ** Row records and the whole transform *)
(* =================================================================== *)

Lemma dict_get_set_some {V} (d : dict V) k k' v :
  is_Some (dict_get (dict_set d k' v) k) ↔ k = k' ∨ is_Some (dict_get d k).
Proof.
  destruct (decide (k = k')) as [->|Hne].
  - rewrite dict_get_set_eq. split; [by left | eauto].
  - rewrite dict_get_set_ne by done. split; [by right | by intros [?|?]].
Qed.

Lemma setdeepattr_keys keys d v d' k :
  setdeepattr d keys v = Ok d' →
  (is_Some (dict_get d' k) ↔ head keys = Some k ∨ is_Some (dict_get d k)).
Proof.
  destruct keys as [|top rest]; [done|].
  assert (∀ n, is_Some (dict_get (dict_set d top n) k) ↔
               head (top :: rest) = Some k ∨ is_Some (dict_get d k)) as Hset.
  { intros n. rewrite dict_get_set_some. simpl. split.
    - intros [-> | H]; [by left | by right].
    - intros [[= ->] | H]; [by left | by right]. }
  destruct rest as [|r rest].
  - simpl. intros [= <-]. apply Hset.
  - rewrite setdeepattr_cons by done. intros H. inv_bind H. inv_bind H.
    injection H as <-. apply Hset.
Qed.

Lemma add_value_cells_keys im (entries : list (list string * scalar)) :
  ∀ row row' k,
    foldR (add_value_cell im) row entries = Ok row' →
    (is_Some (dict_get row' k) ↔
     is_Some (dict_get row k) ∨ ∃ e, e ∈ entries ∧ head e.1 = Some k).
Proof.
  induction entries as [|[key v] entries IH]; intros row row' k H; simpl in H.
  - injection H as <-. split; [by left|].
    intros [?|(e & He & _)]; [done|]. by apply elem_of_nil in He.
  - inv_bind H. apply add_value_cell_Ok in Ha as (top & display & _ & _ & Hset).
    rewrite (IH _ _ _ H). rewrite (setdeepattr_keys _ _ _ _ k Hset). split.
    + intros [[Hh|Hr]|(e & He & Hk)].
      * right. exists (key, v). split; [by left | done].
      * by left.
      * right. exists e. split; [by right | done].
    + intros [Hr|(e & He & Hk)].
      * left. by right.
      * apply elem_of_cons in He as [-> | He]; [left; by left | right; eauto].
Qed.

Lemma add_index_cells_keys ddv (entries : list (option string * scalar)) :
  ∀ row k,
    is_Some (dict_get (foldl (add_index_cell ddv) row entries) k) ↔
    is_Some (dict_get row k) ∨ ∃ v, (Some k, v) ∈ entries.
Proof.
  induction entries as [|[n v] entries IH]; intros row k; cbn [foldl].
  - split; [by left|]. intros [?|(v & Hv)]; [done|]. by apply elem_of_nil in Hv.
  - rewrite IH. unfold add_index_cell. cbn [fst snd].
    destruct n as [key|].
    + rewrite dict_get_set_some. split.
      * intros [[-> | Hr]|(v' & Hv')].
        -- right. exists v. by left.
        -- by left.
        -- right. exists v'. by right.
      * intros [Hr|(v' & Hv')]; [left; by right|].
        apply elem_of_cons in Hv' as [[= -> ->] | Hv']; [left; by left|].
        right. eauto.
    + split.
      * intros [Hr|(v' & Hv')]; [by left|]. right. exists v'. by right.
      * intros [Hr|(v' & Hv')]; [by left|].
        apply elem_of_cons in Hv' as [[=] | Hv']. right. eauto.
Qed.

Lemma elem_of_zip_fst {A B} (l : list A) (k : list B) (x : A) :
  length k = length l → (x ∈ l ↔ ∃ y, (x, y) ∈ zip l k).
Proof.
  intros Hlen. split.
  - intros Hx. apply list_elem_of_lookup in Hx as [j Hj].
    destruct (lookup_lt_is_Some_2 k j) as [y Hy].
    { rewrite Hlen. by eapply lookup_lt_Some. }
    exists y. apply (list_elem_of_lookup_2 _ j).
    rewrite lookup_zip_with, Hj. simpl. by rewrite Hy.
  - intros [y Hy]. by apply elem_of_zip_l in Hy.
Qed.

(** The row builder returns one record per row, with one key per named
    index level and per outermost column label, and no other key: an
    unnamed level (the default integer index) leaves no entry. *)
Theorem row_record_keys (data_frame : DataFrame) (item_map : dict Item)
    (dimension_display_values : display_values_map) (rows : list (dict node)) :
  wf_frame data_frame →
  Forall (λ t, length t = length (index_names (df_index data_frame)))
    (index_tuples (df_index data_frame)) →
  transform_data data_frame item_map dimension_display_values = Ok rows →
  length rows = index_size (df_index data_frame) ∧
  ∀ row k, row ∈ rows →
    (is_Some (dict_get row k) ↔
     Some k ∈ index_names (df_index data_frame) ∨
     ∃ t, t ∈ columns_tuples (df_columns data_frame) ∧ head t = Some k).
Proof.
  intros (Hwf & Hrows & Hcells) Hindex H. split.
  - unfold transform_data, iterrows in H. apply mapR_length in H.
    rewrite H, length_zip_with, length_fmap, index_size_tuples. lia.
  - intros row k Hrow. apply list_elem_of_lookup in Hrow as [i Hi].
    destruct (transform_data_row _ _ _ _ _ _ H Hi)
      as (index & series & Hx & Hs & Hr).
    unfold transform_row in Hr.
    rewrite (add_value_cells_keys _ _ _ _ k Hr), add_index_cells_keys.
    rewrite Forall_forall in Hindex, Hcells.
    pose proof (Hindex index (list_elem_of_lookup_2 _ _ _ Hx)) as Hlx.
    pose proof (Hcells series (list_elem_of_lookup_2 _ _ _ Hs)) as Hls.
    split.
    + intros [[[? ?]|(v & Hv)]|((t & x) & He & Hk)]; [done| |].
      * left. by apply elem_of_zip_l in Hv.
      * right. exists t. split; [|done]. by apply elem_of_zip_l in He.
    + intros [Hn|(t & Ht & Hk)].
      * left. right.
        apply (elem_of_zip_fst _ (index_item item_map <$> index)) in Hn;
          [done|]. by rewrite length_fmap.
      * right.
        apply (elem_of_zip_fst _ (astype (values_dtype data_frame) <$> series))
          in Ht as [x Hx']; [|by rewrite length_fmap].
        exists (t, x). done.
Qed.

Lemma positions_of_absent (c : Columns) (k : string) :
  (∀ t, t ∈ columns_tuples c → head t ≠ Some k) → positions_of c k = [].
Proof.
  intros Habsent. unfold positions_of.
  destruct (positions_from 0 (columns_tuples c) k) as [|j ps] eqn:E; [done|].
  assert (j ∈ positions_from 0 (columns_tuples c) k) as Hj by (rewrite E; by left).
  apply elem_of_positions_from in Hj as (_ & t & Ht & Hk).
  destruct (Habsent t); [|done]. by eapply list_elem_of_lookup_2.
Qed.

(** A requested column that the result set lacks is a [KeyError].  When
    the display column of a dimension or the column of a metric or
    reference of the widget is not among the columns of the frame, the
    transform raises [KeyError], whatever else the frame holds. *)
Theorem transform_needs_every_column (self : ReactTable) (data_frame : DataFrame)
    (dimensions : list Dimension) (references : list Reference) (k : string) :
  k ∈ (display_columns dimensions ++
       dict_keys (make_item_map self references))%list →
  (∀ t, t ∈ columns_tuples (df_columns data_frame) → head t ≠ Some k) →
  transform self data_frame dimensions references = Raise KeyError.
Proof.
  intros Hk Habsent. apply positions_of_absent in Habsent.
  unfold transform, select_and_fill, getitem_list.
  erewrite mapR_fails; [done | exact Hk | by rewrite Habsent |].
  intros y e _. destruct (positions_of _ y); [by intros [= <-] | done].
Qed.

(** One record per row.  When nothing is pivoted and the frame has one
    row of cells per index entry, a transform that returns gives as many
    records as the frame has rows, in whatever state the cells are. *)
Theorem transform_one_record_per_row (self : ReactTable) (data_frame : DataFrame)
    (dimensions : list Dimension) (references : list Reference) (out : Output) :
  (∀ d keys, pivot_data_frame d keys (transpose self) = Ok d) →
  wf_frame data_frame →
  transform self data_frame dimensions references = Ok out →
  length (out_data out) = length (df_values data_frame) ∧
  length (out_data out) = index_size (df_index data_frame).
Proof.
  intros Hpivot (Hwf & Hrows & Hal) H.
  unfold transform in H.
  inv_bind H. rename a into filled, Ha into Hfill.
  inv_bind H. destruct a as [ddv df1]. rename Ha into Hmdv.
  inv_bind H. rename a into df2, Ha into Hfmt.
  inv_bind H. rewrite Hpivot in Ha. injection Ha as <-.
  unfold build_output in H. inv_bind H. inv_bind H. inv_bind H.
  injection H as <-. simpl. rename Ha1 into Hdata.
  pose proof (select_and_fill_values _ _ _ Hfill) as (selected & Hsel & Hi0 & _ & _).
  pose proof (getitem_list_wf _ _ _ Hwf Hal Hsel) as (_ & _ & Hi0' & _).
  apply (select_and_fill_wf _ _ _ Hwf Hal) in Hfill as (Hwf0 & Hal0 & _ & Hrows0).
  pose proof (map_display_values_values _ _ _ _ Hmdv) as Hrows1. simpl in Hrows1.
  apply (map_display_values_wf _ (_, filled) _ _ Hwf0 Hal0) in Hmdv
    as (_ & _ & Hi1 & _). simpl in Hi1.
  pose proof (format_data_frame_shape _ _ _ Hfmt) as [Hsize _].
  apply format_data_frame_values in Hfmt as (Hv2 & _ & _).
  unfold transform_data, iterrows in Hdata. apply mapR_length in Hdata.
  rewrite Hdata, length_zip_with, length_fmap, index_size_tuples,
    Hsize, Hi1, Hi0, Hi0', Hv2.
  apply Forall2_length in Hrows0, Hrows1. lia.
Qed.

Lemma dict_keys_set {V} (d : dict V) k v x :
  x ∈ dict_keys (dict_set d k v) ↔ x = k ∨ x ∈ dict_keys d.
Proof.
  unfold dict_keys. induction d as [|[k' v'] d IH]; simpl.
  - rewrite list_elem_of_singleton. split; [by left|]. intros [?|H]; [done|].
    by apply elem_of_nil in H.
  - destruct (decide (k = k')) as [->|Hne]; simpl.
    + rewrite !elem_of_cons. pure_tauto.
    + rewrite !elem_of_cons, IH. pure_tauto.
Qed.

Lemma dict_keys_set_NoDup {V} (d : dict V) k v :
  NoDup (dict_keys d) → NoDup (dict_keys (dict_set d k v)).
Proof.
  unfold dict_keys. induction d as [|[k' v'] d IH]; simpl; intros Hd.
  - apply NoDup_singleton.
  - apply NoDup_cons in Hd as [Hk' Hd].
    destruct (decide (k = k')) as [->|Hne]; simpl.
    + by apply NoDup_cons.
    + apply NoDup_cons. split; [|by apply IH].
      intros Hin. apply (dict_keys_set d k v k') in Hin as [?|?]; done.
Qed.

Lemma dict_of_list_NoDup {V} (kvs : list (string * V)) :
  ∀ m, NoDup (dict_keys m) →
       NoDup (dict_keys (foldl (λ m kv, dict_set m kv.1 kv.2) m kvs)).
Proof.
  induction kvs as [|[k v] kvs IH]; intros m Hm; [done|].
  cbn [foldl]. apply IH. by apply dict_keys_set_NoDup.
Qed.

Lemma dict_of_list_get {V} (kvs : list (string * V)) :
  ∀ m k v,
    dict_get (foldl (λ m kv, dict_set m kv.1 kv.2) m kvs) k = Some v →
    dict_get m k = Some v ∨ (k, v) ∈ kvs.
Proof.
  induction kvs as [|[k' v'] kvs IH]; intros m k v H; [by left|].
  cbn [foldl] in H. apply IH in H as [H|H]; [|right; by right].
  cbn [fst snd] in H. destruct (decide (k = k')) as [->|Hne].
  - rewrite dict_get_set_eq in H. injection H as ->. right. by left.
  - rewrite dict_get_set_ne in H by done. by left.
Qed.

Lemma dict_of_list_member {V} (kvs : list (string * V)) :
  ∀ m k,
    is_Some (dict_get m k) ∨ k ∈ kvs.*1 →
    is_Some (dict_get (foldl (λ m kv, dict_set m kv.1 kv.2) m kvs) k).
Proof.
  induction kvs as [|[k' v'] kvs IH]; intros m k H.
  - destruct H as [H|H]; [done|]. by apply elem_of_nil in H.
  - cbn [foldl]. apply IH. cbn [fst snd]. rewrite dict_get_set_some.
    destruct H as [H|H]; [left; by right|].
    rewrite fmap_cons in H. apply elem_of_cons in H as [-> | H];
      [left; by left | by right].
Qed.

Lemma dict_of_list_last {V} (kvs : list (string * V)) :
  ∀ m k v later,
    k ∉ later.*1 →
    dict_get (foldl (λ m kv, dict_set m kv.1 kv.2) m (kvs ++ (k, v) :: later)) k
      = Some v.
Proof.
  intros m k v later Hlater. rewrite foldl_app. cbn [foldl fst snd].
  generalize (foldl (λ m kv, dict_set m kv.1 kv.2) m kvs). intros m0.
  assert (dict_get (dict_set m0 k v) k = Some v) as H0 by apply dict_get_set_eq.
  revert H0. generalize (dict_set m0 k v). clear m0.
  induction later as [|[k' v'] later IH]; intros m0 H0; [done|].
  rewrite fmap_cons, not_elem_of_cons in Hlater. destruct Hlater as [Hne Hlater].
  cbn [foldl fst snd]. apply IH; [done|].
  by rewrite dict_get_set_ne.
Qed.

Lemma elem_of_item_pairs (self : ReactTable) (references : list Reference) k it :
  (k, it) ∈ item_pairs self references ↔
  ∃ i r, i ∈ items self ∧ r ∈ None :: (Some <$> references) ∧
         k = format_metric_key (reference_key i r) ∧ it = ReferenceItem i r.
Proof.
  unfold item_pairs. rewrite list_elem_of_bind. split.
  - intros (i & Hin & Hi). apply list_elem_of_bind in Hin as (r & Hin & Hr).
    apply list_elem_of_singleton in Hin. injection Hin as -> ->.
    by exists i, r.
  - intros (i & r & Hi & Hr & -> & ->). exists i. split; [|done].
    apply list_elem_of_bind. exists r. split; [|done].
    by apply list_elem_of_singleton.
Qed.

(** The item map of a call.  Its keys are distinct; every entry is the
    item of one metric of the widget under no reference or under one of
    the references of the call, filed under the formatted key of that
    pair, and carries the prefix, suffix and precision of the metric;
    every such pair has an entry; and of the pairs with the same key the
    last one is the one found. *)
Theorem item_map_entries (self : ReactTable) (references : list Reference) :
  NoDup (dict_keys (make_item_map self references)) ∧
  (∀ k it,
     dict_get (make_item_map self references) k = Some it →
     ∃ i r, i ∈ items self ∧ r ∈ None :: (Some <$> references) ∧
            k = format_metric_key (reference_key i r) ∧
            it = ReferenceItem i r ∧
            i_prefix it = m_prefix i ∧ i_suffix it = m_suffix i ∧
            i_precision it = m_precision i) ∧
  (∀ i r, i ∈ items self → r ∈ None :: (Some <$> references) →
     is_Some (dict_get (make_item_map self references)
                (format_metric_key (reference_key i r)))) ∧
  (∀ before k it after,
     item_pairs self references = (before ++ (k, it) :: after)%list →
     k ∉ after.*1 →
     dict_get (make_item_map self references) k = Some it).
Proof.
  unfold make_item_map. fold (item_pairs self references).
  split; [|split; [|split]].
  - apply dict_of_list_NoDup. constructor.
  - intros k it H. apply dict_of_list_get in H as [H|H]; [done|].
    apply elem_of_item_pairs in H as (i & r & Hi & Hr & -> & ->).
    by exists i, r.
  - intros i r Hi Hr. apply dict_of_list_member. right.
    apply list_elem_of_fmap.
    exists (format_metric_key (reference_key i r), ReferenceItem i r).
    split; [done|]. apply elem_of_item_pairs. by exists i, r.
  - intros before k it after -> Hafter. by apply dict_of_list_last.
Qed.

(* =================================================================== *)
(** ** The display columns *)
(* =================================================================== *)

Lemma pick_app {A} (ps qs : list nat) (l : list A) :
  pick (ps ++ qs) l = (pick ps l ++ pick qs l)%list.
Proof. unfold pick. apply omap_app. Qed.

Lemma pick_app_l {A} (ps : list nat) (l k : list A) :
  Forall (λ j, (j < length l)%nat) ps → pick ps (l ++ k) = pick ps l.
Proof.
  unfold pick. induction ps as [|p ps IH]; intros Hps; [done|].
  apply Forall_cons in Hps as [Hp Hps]. cbn -[lookup].
  rewrite lookup_app_l by done. by rewrite IH.
Qed.

Lemma pick_filter_seq {A} (Q : nat → Prop) `{!∀ i, Decision (Q i)}
    (P : A → Prop) `{!∀ x, Decision (P x)} (l : list A) :
  (∀ i x, l !! i = Some x → (Q i ↔ P x)) →
  pick (filter Q (seq 0 (length l))) l = filter P l.
Proof.
  induction l as [|x l IH] using rev_ind; intros HQ; [done|].
  rewrite length_app. cbn [length]. rewrite Nat.add_1_r, seq_S. cbn [Nat.add].
  rewrite !filter_app, pick_app. f_equal.
  - rewrite pick_app_l.
    + apply IH. intros i y Hi. apply HQ. by rewrite lookup_app_l by (by eapply lookup_lt_Some).
    + apply Forall_forall. intros j Hj. apply list_elem_of_filter in Hj as [_ Hj].
      apply elem_of_seq in Hj. lia.
  - assert ((l ++ [x])%list !! length l = Some x) as Hx.
    { rewrite lookup_app_r by done. by rewrite Nat.sub_diag. }
    destruct (decide (Q (length l))) as [Hq|Hq].
    + rewrite filter_cons_True by done.
      rewrite filter_cons_True by (by apply (HQ _ _ Hx)).
      unfold pick. cbn -[lookup]. by rewrite Hx.
    + rewrite filter_cons_False by done.
      rewrite filter_cons_False by (by rewrite <- (HQ _ _ Hx)).
      done.
Qed.

Lemma filter_all {A} (P : A → Prop) `{!∀ x, Decision (P x)} (l : list A) :
  (∀ x, x ∈ l → P x) → filter P l = l.
Proof.
  induction l as [|x l IH]; intros Hall; [done|].
  rewrite filter_cons_True by (apply Hall; by left).
  f_equal. apply IH. intros y Hy. apply Hall. by right.
Qed.

Lemma positions_of_head (c : Columns) (k : string) i t :
  columns_tuples c !! i = Some t →
  (i ∉ positions_of c k ↔ head t ≠ Some k).
Proof.
  intros Hi. unfold positions_of. rewrite elem_of_positions_from.
  rewrite Nat.sub_0_r. split.
  - intros Hn Hk. apply Hn. split; [lia|]. by exists t.
  - intros Hk (_ & t' & Ht' & Hk'). rewrite Hi in Ht'. by injection Ht' as <-.
Qed.

Lemma positions_of_present (c : Columns) (k : string) :
  positions_of c k ≠ [] → ∃ t, t ∈ columns_tuples c ∧ head t = Some k.
Proof.
  intros Hne. destruct (positions_of c k) as [|j ps] eqn:E; [done|].
  assert (j ∈ positions_of c k) as Hj by (rewrite E; by left).
  unfold positions_of in Hj.
  apply elem_of_positions_from in Hj as (_ & t & Ht & Hk).
  exists t. split; [by eapply list_elem_of_lookup_2 | done].
Qed.

Lemma delitem_columns df k df' :
  delitem df k = Ok df' →
  columns_tuples (df_columns df') =
    filter (λ t, head t ≠ Some k) (columns_tuples (df_columns df)) ∧
  (∃ t, t ∈ columns_tuples (df_columns df) ∧ head t = Some k) ∧
  df_index df' = df_index df ∧ df_name df' = df_name df ∧
  columns_names (df_columns df') = columns_names (df_columns df).
Proof.
  unfold delitem. intros H.
  destruct (positions_of (df_columns df) k) as [|j ps] eqn:E; [done|].
  injection H as <-. cbn [df_columns df_index df_name].
  split; [|split; [|split; [done|split; [done|]]]].
  - rewrite columns_tuples_take. rewrite <- E.
    apply pick_filter_seq. intros i t. apply positions_of_head.
  - apply positions_of_present. by rewrite E.
  - by destruct (df_columns df).
Qed.

Lemma delitem_error df k e : delitem df k = Raise e → e = KeyError.
Proof.
  unfold delitem. destruct (positions_of _ _); [by intros [= <-] | done].
Qed.

Lemma getitem_error df k e : getitem df k = Raise e → e = KeyError.
Proof.
  unfold getitem. destruct (positions_of _ _); [by intros [= <-] | done].
Qed.

Lemma level_values_error index k e : level_values index k = Raise e → e = KeyError.
Proof.
  unfold level_values. destruct index as [n | name values | names tuples].
  - by intros [= <-].
  - destruct (decide (name = Some k)); [done | by intros [= <-]].
  - destruct (list_find _ names) as [[i n]|]; [done | by intros [= <-]].
Qed.

Lemma map_display_values_step_error acc d e :
  map_display_values_step acc d = Raise e → e = KeyError.
Proof.
  destruct acc as [ddv df]. unfold map_display_values_step.
  destruct (d_has_display_field d).
  - destruct (getitem df _) as [series|e'] eqn:Hg; cbn [mbind result_bind].
    2:{ intros [= <-]. by eapply getitem_error. }
    destruct (level_values _ _) as [level|e'] eqn:Hl; cbn [mbind result_bind].
    2:{ intros [= <-]. by eapply level_values_error. }
    destruct (delitem df _) as [df'|e'] eqn:Hd; cbn [mbind result_bind].
    2:{ intros [= <-]. by eapply delitem_error. }
    by destruct (d_display_values d).
  - cbn [mbind result_bind]. by destruct (d_display_values d).
Qed.

Lemma map_display_values_step_columns ddv df d ddv' df' :
  map_display_values_step (ddv, df) d = Ok (ddv', df') →
  columns_tuples (df_columns df') =
    filter (λ t, ¬ (d_has_display_field d = true ∧
                    head t = Some (format_dimension_key (d_display_key d))))
           (columns_tuples (df_columns df)) ∧
  (d_has_display_field d = true →
   ∃ t, t ∈ columns_tuples (df_columns df) ∧
        head t = Some (format_dimension_key (d_display_key d))) ∧
  df_index df' = df_index df ∧ df_name df' = df_name df ∧
  columns_names (df_columns df') = columns_names (df_columns df).
Proof.
  unfold map_display_values_step. intros H.
  inv_bind H. destruct a as [ddv1 df1].
  assert (df1 = df') as -> by (destruct (d_display_values d); by injection H).
  clear H. destruct (d_has_display_field d).
  - inv_bind Ha. inv_bind Ha. inv_bind Ha. injection Ha as _ <-.
    match goal with
    | Hdel : delitem _ _ = Ok _ |- _ =>
        apply delitem_columns in Hdel as (Hc & Hp & Hi & Hn & Hcn)
    end.
    split; [|done]. rewrite Hc. apply list_filter_iff. intros t.
    split; [intros ? [_ ?]; done | intros Hn' ?; apply Hn'; done].
  - injection Ha as _ <-. split; [|done].
    symmetry. apply filter_all. by intros t _ [? _].
Qed.

Lemma map_display_values_columns (dimensions : list Dimension) :
  ∀ ddv df ddv' df',
    foldR map_display_values_step (ddv, df) dimensions = Ok (ddv', df') →
    columns_tuples (df_columns df') =
      filter (λ t, Forall (λ k, head t ≠ Some k) (display_columns dimensions))
             (columns_tuples (df_columns df)) ∧
    NoDup (display_columns dimensions) ∧
    (∀ k, k ∈ display_columns dimensions →
          ∃ t, t ∈ columns_tuples (df_columns df) ∧ head t = Some k) ∧
    df_index df' = df_index df ∧ df_name df' = df_name df ∧
    columns_names (df_columns df') = columns_names (df_columns df).
Proof.
  induction dimensions as [|d dimensions IH]; intros ddv df ddv' df' H;
    cbn [foldR] in H.
  - injection H as _ <-. split; [|split; [constructor|split; [|done]]].
    + symmetry. apply filter_all. intros t _. constructor.
    + intros k Hk. by apply elem_of_nil in Hk.
  - inv_bind H. destruct a as [ddv1 df1].
    apply map_display_values_step_columns in Ha as (Hc1 & Hp1 & Hi1 & Hn1 & Hcn1).
    apply IH in H as (Hc & Hnd & Hp & Hi & Hn & Hcn).
    rewrite display_columns_cons.
    split; [|split; [|split; [|split; [congruence|split; congruence]]]].
    + rewrite Hc, Hc1, list_filter_filter. apply list_filter_iff. intros t.
      destruct (d_has_display_field d).
      * rewrite Forall_cons. split.
        -- intros [Hr Hd]. split; [|done]. intros Hk. by apply Hd.
        -- intros [Hk Hr]. split; [done|]. by intros [_ ?].
      * split; [by intros [? _] | intros ?; split; [done | by intros [? _]]].
    + destruct (d_has_display_field d) eqn:Hd; [|done].
      apply NoDup_cons. split; [|done]. intros Hin.
      destruct (Hp _ Hin) as (t & Ht & Hk). rewrite Hc1 in Ht.
      apply list_elem_of_filter in Ht as [Hnot _]. by apply Hnot.
    + intros k Hk.
      assert (k ∈ display_columns dimensions →
              ∃ t, t ∈ columns_tuples (df_columns df) ∧ head t = Some k) as Hrest.
      { intros Hin. destruct (Hp _ Hin) as (t & Ht & Hkt). rewrite Hc1 in Ht.
        apply list_elem_of_filter in Ht as [_ Ht]. by exists t. }
      destruct (d_has_display_field d); [|by apply Hrest].
      apply elem_of_cons in Hk as [-> | Hk]; [by apply Hp1 | by apply Hrest].
Qed.

(** The display columns are consumed, once each.  When
    [map_display_values] returns, the frame has lost exactly the display
    columns of the dimensions that have a display field and kept its other
    columns in their order, its index, and its rows.  It returns only when
    every such display column is in the frame and no two dimensions share
    one; otherwise it raises [KeyError], its only exception. *)
Theorem display_columns_are_consumed (df : DataFrame) (dimensions : list Dimension) :
  (∀ ddv df',
     map_display_values df dimensions = Ok (ddv, df') →
     columns_tuples (df_columns df') =
       filter (λ t, Forall (λ k, head t ≠ Some k) (display_columns dimensions))
              (columns_tuples (df_columns df)) ∧
     df_index df' = df_index df ∧
     length (df_values df') = length (df_values df)) ∧
  (∀ e, map_display_values df dimensions = Raise e → e = KeyError) ∧
  (¬ NoDup (display_columns dimensions) →
   map_display_values df dimensions = Raise KeyError) ∧
  (∀ k, k ∈ display_columns dimensions →
        (∀ t, t ∈ columns_tuples (df_columns df) → head t ≠ Some k) →
        map_display_values df dimensions = Raise KeyError).
Proof.
  assert (∀ e, map_display_values df dimensions = Raise e → e = KeyError) as Herr.
  { intros e H. unfold map_display_values in H.
    apply foldR_Raise in H as (acc & d & _ & H).
    by eapply map_display_values_step_error. }
  split; [|split; [done|split]].
  - intros ddv df' H. unfold map_display_values in H.
    pose proof (map_display_values_values _ _ _ _ H) as Hrows.
    apply map_display_values_columns in H as (Hc & _ & _ & Hi & _).
    split; [done|]. split; [done|]. by apply Forall2_length in Hrows.
  - intros Hdup.
    destruct (map_display_values df dimensions) as [[ddv df']|e] eqn:H.
    + unfold map_display_values in H.
      by apply map_display_values_columns in H as (_ & Hnd & _).
    + by rewrite (Herr e).
  - intros k Hk Habsent.
    destruct (map_display_values df dimensions) as [[ddv df']|e] eqn:H.
    + unfold map_display_values in H.
      apply map_display_values_columns in H as (_ & _ & Hp & _).
      destruct (Hp k Hk) as (t & Ht & Hkt). by destruct (Habsent t Ht).
    + by rewrite (Herr e).
Qed.

(* =================================================================== *)
(** ** The columns of the output *)
(* =================================================================== *)

Lemma positions_flat_absent (labels : list string) (k : string) :
  ∀ i, k ∉ labels → positions_from i ((λ l, [l]) <$> labels) k = [].
Proof.
  induction labels as [|l labels IH]; intros i Hk; [done|].
  apply not_elem_of_cons in Hk as [Hne Hk].
  rewrite fmap_cons. cbn [positions_from head].
  rewrite decide_False by (intros [= ->]; done). by apply IH.
Qed.

Lemma positions_flat_NoDup (labels : list string) (k : string) :
  ∀ i, NoDup labels → k ∈ labels →
       ∃ j, positions_from i ((λ l, [l]) <$> labels) k = [(i + j)%nat] ∧
            labels !! j = Some k.
Proof.
  induction labels as [|l labels IH]; intros i Hnd Hk.
  - by apply elem_of_nil in Hk.
  - apply NoDup_cons in Hnd as [Hl Hnd].
    rewrite fmap_cons. cbn [positions_from head].
    destruct (decide (Some l = Some k)) as [[= ->]|Hne].
    + exists 0%nat. rewrite positions_flat_absent by done.
      by rewrite Nat.add_0_r.
    + apply elem_of_cons in Hk as [-> | Hk]; [done|].
      destruct (IH (S i) Hnd Hk) as (j & Hj & Hlook).
      exists (S j). rewrite Hj. split; [|done]. f_equal. lia.
Qed.

Lemma getitem_list_flat df name labels requested selected :
  df_columns df = FlatColumns name labels → NoDup labels →
  getitem_list df requested = Ok selected →
  df_columns selected = FlatColumns name requested ∧
  df_index selected = df_index df ∧ df_name selected = None.
Proof.
  intros Hc Hnd. unfold getitem_list. intros H. inv_bind H. injection H as <-.
  cbn [df_columns df_index df_name]. split; [|done].
  rewrite Hc in *. cbn [take_columns]. f_equal.
  apply mapR_Ok in Ha. clear Hc.
  induction Ha as [|k ps requested pss Hk _ IH]; [done|].
  cbn [concat]. rewrite pick_app, IH. clear IH.
  assert (ps = positions_of (FlatColumns name labels) k ∧ ps ≠ []) as [-> Hne].
  { destruct (positions_of (FlatColumns name labels) k) eqn:E; [done|].
    by injection Hk as <-. }
  destruct (decide (k ∈ labels)) as [Hin|Hout].
  - unfold positions_of. cbn [columns_tuples].
    destruct (positions_flat_NoDup labels k 0 Hnd Hin) as (j & -> & Hj).
    unfold pick. cbn -[lookup]. by rewrite Hj.
  - exfalso. apply Hne. unfold positions_of. cbn [columns_tuples].
    by apply positions_flat_absent.
Qed.

Lemma delitem_flat df name labels k df' :
  df_columns df = FlatColumns name labels →
  delitem df k = Ok df' →
  df_columns df' = FlatColumns name (filter (λ l, l ≠ k) labels).
Proof.
  intros Hc. unfold delitem. intros H.
  destruct (positions_of (df_columns df) k) as [|j ps] eqn:E; [done|].
  injection H as <-. cbn [df_columns]. rewrite <- E. rewrite Hc.
  cbn [take_columns columns_tuples]. f_equal. rewrite length_fmap.
  apply pick_filter_seq. intros i l Hi.
  rewrite elem_of_positions_flat. rewrite Hi. split.
  - intros Hn ->. done.
  - intros Hn [= ->]. done.
Qed.

Lemma map_display_values_step_flat ddv df name labels d ddv' df' :
  df_columns df = FlatColumns name labels →
  map_display_values_step (ddv, df) d = Ok (ddv', df') →
  df_columns df' =
    FlatColumns name
      (filter (λ l, ¬ (d_has_display_field d = true ∧
                       l = format_dimension_key (d_display_key d))) labels).
Proof.
  intros Hc. unfold map_display_values_step. intros H.
  inv_bind H. destruct a as [ddv1 df1].
  assert (df1 = df') as -> by (destruct (d_display_values d); by injection H).
  clear H. destruct (d_has_display_field d).
  - inv_bind Ha. inv_bind Ha. inv_bind Ha. injection Ha as _ <-.
    match goal with
    | Hdel : delitem _ _ = Ok _ |- _ =>
        rewrite (delitem_flat _ _ _ _ _ Hc Hdel)
    end.
    f_equal. apply list_filter_iff. intros l.
    split; [intros ? [_ ?]; done | intros Hn ?; apply Hn; done].
  - injection Ha as _ <-. rewrite Hc. f_equal.
    symmetry. apply filter_all. by intros l _ [? _].
Qed.

Lemma map_display_values_flat (dimensions : list Dimension) :
  ∀ ddv df name labels ddv' df',
    df_columns df = FlatColumns name labels →
    foldR map_display_values_step (ddv, df) dimensions = Ok (ddv', df') →
    df_columns df' =
      FlatColumns name (filter (λ l, l ∉ display_columns dimensions) labels).
Proof.
  induction dimensions as [|d dimensions IH];
    intros ddv df name labels ddv' df' Hc H; cbn [foldR] in H.
  - injection H as _ <-. rewrite Hc. f_equal. symmetry. apply filter_all.
    intros l _ Hl. by apply elem_of_nil in Hl.
  - inv_bind H. destruct a as [ddv1 df1].
    pose proof (map_display_values_step_flat _ _ _ _ _ _ _ Hc Ha) as Hc1.
    rewrite (IH _ _ _ _ _ _ Hc1 H). f_equal.
    rewrite list_filter_filter. apply list_filter_iff. intros l.
    rewrite display_columns_cons. destruct (d_has_display_field d).
    + rewrite not_elem_of_cons. split.
      * intros [Hr Hd]. split; [|done]. intros ->. by apply Hd.
      * intros [Hk Hr]. split; [done|]. by intros [_ ?].
    + split; [by intros [? _] | intros ?; split; [done | by intros [? _]]].
Qed.

Lemma map_index_level_range index level fmt index' :
  map_index_level index level (strftime_value fmt) = Ok index' →
  is_RangeIndex index' = is_RangeIndex index.
Proof.
  unfold map_index_level.
  destruct (decide (0%nat = index_size index)) as [Hz|Hz].
  { by intros [= <-]. }
  destruct index as [n | name values | names tuples]; simpl in *.
  - destruct (decide (level = 0%nat)); [|done].
    intros H. inv_bind H. apply mapR_Ok in Ha.
    destruct n as [|n]; [done|]. simpl in Ha.
    inversion Ha; subst. discriminate.
  - destruct (decide (level = 0%nat)); [|done].
    intros H. inv_bind H. by injection H as <-.
  - intros H. inv_bind H. by injection H as <-.
Qed.

Lemma format_data_frame_steps_range entries :
  ∀ df df', foldR format_data_frame_step df entries = Ok df' →
    is_RangeIndex (df_index df') = is_RangeIndex (df_index df).
Proof.
  induction entries as [|[i d] entries IH]; intros df df' H; cbn [foldR] in H.
  - by injection H as <-.
  - inv_bind H. rewrite (IH _ _ H).
    unfold format_data_frame_step in Ha. cbn beta iota in Ha.
    destruct (d_interval d).
    + inv_bind Ha. injection Ha as <-. cbn [set_index df_index].
      by eapply map_index_level_range.
    + by injection Ha as <-.
Qed.

Lemma format_data_frame_range df dimensions df' :
  format_data_frame df dimensions = Ok df' →
  is_RangeIndex (df_index df') = is_RangeIndex (df_index df).
Proof.
  unfold format_data_frame. intros H. inv_bind H. injection H as <-.
  cbn [set_columns_name set_index df_index].
  rewrite <- (format_data_frame_steps_range _ _ _ Ha).
  by destruct (df_index a).
Qed.

Lemma filter_none {A} (P : A → Prop) `{!∀ x, Decision (P x)} (l : list A) :
  (∀ x, x ∈ l → ¬ P x) → filter P l = [].
Proof.
  induction l as [|x l IH]; intros Hnone; [done|].
  rewrite filter_cons_False by (apply Hnone; by left).
  apply IH. intros y Hy. apply Hnone. by right.
Qed.

Lemma format_data_frame_flat df dimensions df' name labels :
  df_columns df = FlatColumns name labels →
  format_data_frame df dimensions = Ok df' →
  df_columns df' = FlatColumns (Some metrics_dimension_key) labels ∧
  df_name df' = df_name df.
Proof.
  intros Hc. unfold format_data_frame. intros H. inv_bind H. injection H as <-.
  apply format_data_frame_steps_values in Ha as (_ & Hc' & Hn).
  cbn [set_columns_name set_index df_columns df_name].
  by rewrite Hc', Hc, Hn.
Qed.

(** The columns of the output follow the widget, not the result set.
    For a result set with distinct single-level column labels and a call
    that pivots nothing, a transform that returns gives first one column
    per index level (none for the default integer index), described by its
    dimension, and then exactly one column per entry of the item map, in
    the order of the metrics of the widget and of the references of the
    call: the order of the columns in the result set, its other columns
    and the display columns have no part in it. *)
Theorem output_columns_follow_the_widget (self : ReactTable)
    (data_frame : DataFrame) (dimensions : list Dimension)
    (references : list Reference) (out : Output)
    (name : option string) (labels : list string) :
  (∀ d keys, pivot_data_frame d keys (transpose self) = Ok d) →
  df_columns data_frame = FlatColumns name labels → NoDup labels →
  (∀ k, k ∈ display_columns dimensions →
        k ∉ dict_keys (make_item_map self references)) →
  transform self data_frame dimensions references = Ok out →
  ∃ dimension_columns metric_columns,
    out_columns out = (dimension_columns ++ metric_columns)%list ∧
    (if is_RangeIndex (df_index data_frame) then dimension_columns = []
     else Forall2 (dimension_header dimensions)
            (index_names (df_index data_frame)) dimension_columns) ∧
    Forall2 (metric_header
               (dict_set (make_item_map self references) TOTALS_VALUE TotalsItem))
            (dict_keys (make_item_map self references)) metric_columns.
Proof.
  intros Hpivot Hc Hnd Hdisjoint H.
  unfold transform in H.
  inv_bind H. rename a into filled, Ha into Hfill.
  inv_bind H. destruct a as [ddv df1]. rename Ha into Hmdv.
  inv_bind H. rename a into df2, Ha into Hfmt.
  inv_bind H. rewrite Hpivot in Ha. injection Ha as <-.
  unfold build_output in H. inv_bind H. inv_bind H. inv_bind H.
  injection H as <-. cbn [out_columns].
  rename a into dimension_columns, a0 into metric_columns.
  rename Ha into Hdims, Ha0 into Hmetrics.
  exists dimension_columns, metric_columns. split; [done|].
  unfold select_and_fill in Hfill. inv_bind Hfill. injection Hfill as <-.
  apply (getitem_list_flat _ _ _ _ _ Hc Hnd) in Ha as (Hc0 & Hi0 & Hn0).
  assert (df_columns (replace_inf (VStr "Inf") (fillna (VStr "NaN") (copy a)))
          = FlatColumns name (display_columns dimensions ++
                              dict_keys (make_item_map self references))%list)
    as Hcf by exact Hc0.
  unfold map_display_values in Hmdv.
  pose proof (map_display_values_columns _ _ _ _ _ Hmdv)
    as (_ & Hnd' & _ & Hi1 & Hn1 & _).
  pose proof (map_display_values_flat _ _ _ _ _ _ _ Hcf Hmdv) as Hc1.
  assert (filter (λ l, l ∉ display_columns dimensions)
            (display_columns dimensions ++
             dict_keys (make_item_map self references))%list
          = dict_keys (make_item_map self references)) as Hlabels.
  { rewrite filter_app.
    rewrite (filter_all _ (dict_keys _)) by (intros l Hl Hd; by eapply Hdisjoint).
    by rewrite filter_none by (intros l Hl Hn; done). }
  rewrite Hlabels in Hc1.
  apply (format_data_frame_flat _ _ _ _ _ Hc1) in Hfmt as Hc2.
  destruct Hc2 as [Hc2 Hn2].
  pose proof (format_data_frame_range _ _ _ Hfmt) as Hr2.
  pose proof (format_data_frame_shape _ _ _ Hfmt) as [_ Hnames2].
  split.
  - apply transform_dimension_column_headers_derived in Hdims.
    rewrite Hr2, Hi1 in Hdims. cbn [replace_inf fillna copy map_cells df_index] in Hdims.
    rewrite Hi0 in Hdims.
    destruct (is_RangeIndex (df_index data_frame)); [done|].
    rewrite Hnames2, Hi1 in Hdims.
    cbn [replace_inf fillna copy map_cells df_index] in Hdims.
    by rewrite Hi0 in Hdims.
  - eapply transform_metric_column_headers_derived; [exact Hc2| |exact Hmetrics].
    rewrite Hn2, Hn1. done.
Qed.

(* =================================================================== *)
(** ** The display values *)
(* =================================================================== *)

Lemma py_eq_refl (x : scalar) : isnull x = false → py_eq x x = true.
Proof.
  intros Hx. unfold py_eq.
  destruct (num_val x) as [q|] eqn:Hq.
  - apply Qeq_bool_iff. reflexivity.
  - destruct x as [| b | n | f | s | t]; try done.
    + destruct f; try done. by apply bool_decide_eq_true.
    + by apply bool_decide_eq_true.
    + by apply bool_decide_eq_true.
Qed.

Lemma vdict_get_is_Some (d : list (scalar * scalar)) (k : scalar) :
  is_Some (vdict_get d k) ↔ ∃ k', k' ∈ d.*1 ∧ py_eq k k' = true.
Proof.
  induction d as [|[k' v] d IH]; simpl.
  - split; [by intros [? ?] | intros (? & H & _); by apply elem_of_nil in H].
  - destruct (py_eq k k') eqn:E.
    + split; [|eauto]. intros _. exists k'. split; [by left | done].
    + rewrite IH. split.
      * intros (k1 & Hk1 & Heq). exists k1. split; [by right | done].
      * intros (k1 & Hk1 & Heq).
        apply elem_of_cons in Hk1 as [-> | Hk1]; [congruence|]. eauto.
Qed.

Lemma group_first_keys (rows : list (scalar * scalar)) :
  ∀ acc k0,
    (∃ k1, k1 ∈ acc.*1 ∧ py_eq k0 k1 = true) ∨
    (isnull k0 = false ∧ ∃ x, (k0, x) ∈ rows) →
    ∃ k1, k1 ∈ (group_first acc rows).*1 ∧ py_eq k0 k1 = true.
Proof.
  induction rows as [|[k x] rows IH]; intros acc k0 H; cbn [group_first].
  - destruct H as [H|(_ & x & Hx)]; [done|]. by apply elem_of_nil in Hx.
  - destruct (isnull k) eqn:Hk.
    + apply IH. destruct H as [H|(Hn & x0 & Hx0)]; [by left|]. right.
      split; [done|]. apply elem_of_cons in Hx0 as [[= -> ->] | Hx0];
        [congruence | eauto].
    + destruct (vdict_get acc k) as [old|] eqn:Hget.
      * assert (∃ k1, k1 ∈ acc.*1 ∧ py_eq k k1 = true) as Hin.
        { apply vdict_get_is_Some. by rewrite Hget. }
        assert (∀ acc', acc'.*1 = acc.*1 →
                  ∃ k1, k1 ∈ (group_first acc' rows).*1 ∧ py_eq k0 k1 = true)
          as Hsame.
        { intros acc' Hkeys. apply IH. rewrite Hkeys.
          destruct H as [H|(Hn & x0 & Hx0)]; [by left|].
          apply elem_of_cons in Hx0 as [[= -> ->] | Hx0]; [by left|].
          right. eauto. }
        destruct (isnull old && negb (isnull x)); [|by apply Hsame].
        apply Hsame. rewrite <- list_fmap_compose. apply list_fmap_ext.
        intros i [k' v'] _. simpl. by destruct (py_eq k k').
      * apply IH. rewrite fmap_app, fmap_cons. cbn [fst fmap list_fmap].
        destruct H as [(k1 & Hk1 & Heq)|(Hn & x0 & Hx0)].
        -- left. exists k1. split; [|done]. apply elem_of_app. by left.
        -- apply elem_of_cons in Hx0 as [[= -> ->] | Hx0]; [|right; eauto].
           left. exists k. split.
           ++ apply elem_of_app. right. by left.
           ++ by apply py_eq_refl.
Qed.

Lemma group_first_not_null (rows : list (scalar * scalar)) :
  ∀ acc, Forall (λ e, isnull e.1 = false) acc →
         Forall (λ e, isnull e.1 = false) (group_first acc rows).
Proof.
  induction rows as [|[k x] rows IH]; intros acc Hacc; cbn [group_first]; [done|].
  destruct (isnull k) eqn:Hk; [by apply IH|].
  destruct (vdict_get acc k) as [old|].
  - destruct (isnull old && negb (isnull x)); [|by apply IH].
    apply IH. apply Forall_fmap. eapply Forall_impl; [exact Hacc|].
    intros [k' v'] Hk'. simpl in *. by destruct (py_eq k k').
  - apply IH. apply Forall_app. split; [done|]. by constructor.
Qed.

Lemma fill_first_entries (d : list (scalar * scalar)) :
  (fill_first d).*1 = d.*1 ∧
  Forall (λ e, isnull e.2 = false) (fill_first d).
Proof.
  unfold fill_first. split.
  - rewrite <- list_fmap_compose. by apply list_fmap_ext.
  - apply Forall_fmap, Forall_forall. intros [k v] _. simpl.
    by destruct (isnull v) eqn:E.
Qed.

Lemma length_level_values index k level :
  level_values index k = Ok level → length level = index_size index.
Proof.
  unfold level_values. destruct index as [n | name values | names tuples].
  - done.
  - destruct (decide (name = Some k)); [|done]. by intros [= <-].
  - destruct (list_find _ names) as [[i n]|]; [|done]. intros [= <-].
    by rewrite length_fmap.
Qed.

Lemma length_getitem df k series :
  getitem df k = Ok series → length series = length (df_values df).
Proof.
  unfold getitem. destruct (positions_of _ _); [done|]. intros [= <-].
  by rewrite length_fmap.
Qed.

(** What one step of the loop leaves in the map of display values. *)
Lemma map_display_values_step_map ddv df d ddv' df' :
  map_display_values_step (ddv, df) d = Ok (ddv', df') →
  (∀ k, k ≠ format_dimension_key (d_key d) → dict_get ddv' k = dict_get ddv k) ∧
  (d_has_display_field d = false → d_display_values d = None → ddv' = ddv) ∧
  (∀ dv, d_display_values d = Some dv →
         dict_get ddv' (format_dimension_key (d_key d)) = Some dv) ∧
  (d_has_display_field d = true → d_display_values d = None →
   ∃ series level,
     getitem df (format_dimension_key (d_display_key d)) = Ok series ∧
     level_values (df_index df) (format_dimension_key (d_key d)) = Ok level ∧
     dict_get ddv' (format_dimension_key (d_key d)) =
       Some (fill_first (group_first [] (zip level series)))).
Proof.
  unfold map_display_values_step. intros H.
  inv_bind H. destruct a as [ddv1 df1].
  assert ((∀ k, k ≠ format_dimension_key (d_key d) →
                dict_get ddv1 k = dict_get ddv k) ∧
          (d_has_display_field d = false → ddv1 = ddv) ∧
          (d_has_display_field d = true →
           ∃ series level,
             getitem df (format_dimension_key (d_display_key d)) = Ok series ∧
             level_values (df_index df) (format_dimension_key (d_key d)) = Ok level ∧
             dict_get ddv1 (format_dimension_key (d_key d)) =
               Some (fill_first (group_first [] (zip level series)))))
    as (Hother & Hnone & Hsome).
  { destruct (d_has_display_field d).
    - inv_bind Ha. inv_bind Ha. inv_bind Ha. injection Ha as <- _.
      split; [|split; [done|]].
      + intros k Hk. by rewrite dict_get_set_ne.
      + intros _. eexists _, _. split; [done|]. split; [done|].
        apply dict_get_set_eq.
    - injection Ha as <- _. done. }
  destruct (d_display_values d) as [dv|]; injection H as <- _.
  - split; [|split; [done|split; [|done]]].
    + intros k Hk. rewrite dict_get_set_ne by done. by apply Hother.
    + intros dv' [= <-]. apply dict_get_set_eq.
  - split; [done|]. split; [by intros Hf _; apply Hnone|]. split; [done|].
    intros Hf _. by apply Hsome.
Qed.

Lemma map_display_values_later (dimensions : list Dimension) (key : string) :
  ∀ ddv df ddv' df',
    Forall (λ d, format_dimension_key (d_key d) = key →
                 d_has_display_field d = false ∧ d_display_values d = None)
           dimensions →
    foldR map_display_values_step (ddv, df) dimensions = Ok (ddv', df') →
    dict_get ddv' key = dict_get ddv key.
Proof.
  induction dimensions as [|d dimensions IH]; intros ddv df ddv' df' Hall H;
    cbn [foldR] in H.
  - by injection H as <- _.
  - apply Forall_cons in Hall as [Hd Hall].
    inv_bind H. destruct a as [ddv1 df1].
    rewrite (IH _ _ _ _ Hall H).
    apply map_display_values_step_map in Ha as (Hother & Hnone & _).
    destruct (decide (format_dimension_key (d_key d) = key)) as [Heq|Hne].
    + destruct (Hd Heq) as [Hf Hv]. by rewrite (Hnone Hf Hv).
    + by apply Hother.
Qed.

Lemma foldR_app {A B} (f : B → A → result B) (xs ys : list A) :
  ∀ acc b, foldR f acc (xs ++ ys) = Ok b →
           ∃ mid, foldR f acc xs = Ok mid ∧ foldR f mid ys = Ok b.
Proof.
  induction xs as [|x xs IH]; intros acc b H; cbn [foldR app] in *.
  - by exists acc.
  - inv_bind H. destruct (IH _ _ H) as (mid & H1 & H2).
    exists mid. by rewrite Ha.
Qed.

Lemma map_display_values_keys (dimensions : list Dimension) :
  ∀ ddv df ddv' df' k,
    foldR map_display_values_step (ddv, df) dimensions = Ok (ddv', df') →
    (is_Some (dict_get ddv' k) ↔
     is_Some (dict_get ddv k) ∨
     ∃ d, d ∈ dimensions ∧ k = format_dimension_key (d_key d) ∧
          (d_has_display_field d = true ∨ is_Some (d_display_values d))).
Proof.
  induction dimensions as [|d dimensions IH]; intros ddv df ddv' df' k H;
    cbn [foldR] in H.
  - injection H as <- _. split; [by left|].
    intros [?|(d & Hd & _)]; [done|]. by apply elem_of_nil in Hd.
  - inv_bind H. destruct a as [ddv1 df1]. rewrite (IH _ _ _ _ _ H).
    apply map_display_values_step_map in Ha as (Hother & Hnone & Hattr & Hfield).
    assert (is_Some (dict_get ddv1 k) ↔
            is_Some (dict_get ddv k) ∨
            (k = format_dimension_key (d_key d) ∧
             (d_has_display_field d = true ∨ is_Some (d_display_values d))))
      as Hstep.
    { destruct (decide (k = format_dimension_key (d_key d))) as [->|Hne].
      - destruct (d_display_values d) as [dv|] eqn:Hdv.
        + rewrite (Hattr dv eq_refl). split; [|eauto]. intros _. right. eauto.
        + destruct (d_has_display_field d) eqn:Hf.
          * destruct (Hfield eq_refl eq_refl) as (s & l & _ & _ & ->).
            split; [|eauto]. intros _. right. eauto.
          * rewrite (Hnone eq_refl eq_refl). split; [by left|].
            intros [?|(_ & [?|[? ?]])]; done.
      - rewrite (Hother k Hne). split; [by left|]. intros [?|[? _]]; done. }
    rewrite Hstep. split.
    + intros [[?|[-> Hd]]|(d' & Hd' & Hk & Hw)].
      * by left.
      * right. exists d. split; [by left | done].
      * right. exists d'. split; [by right | done].
    + intros [?|(d' & Hd' & Hk & Hw)]; [left; by left|].
      apply elem_of_cons in Hd' as [-> | Hd'].
      * left. right. done.
      * right. exists d'. done.
Qed.

(** The display values of a call.  The map has an entry exactly for the
    dimensions that have a display field or carry display values.  For a
    dimension that carries them, the entry is what it carries, whether or
    not it also has a display field.  For a dimension with a display field
    only, the entry is read off the frame: it gives a display value to
    every value of its index level that is not missing, and never a
    missing one (a missing display is the text [null]). *)
Theorem display_values_of_a_call (df : DataFrame) (dimensions : list Dimension)
    (ddv : display_values_map) (df' : DataFrame) :
  length (df_values df) = index_size (df_index df) →
  map_display_values df dimensions = Ok (ddv, df') →
  (∀ k, is_Some (dict_get ddv k) ↔
        ∃ d, d ∈ dimensions ∧ k = format_dimension_key (d_key d) ∧
             (d_has_display_field d = true ∨ is_Some (d_display_values d))) ∧
  (∀ before d after,
     dimensions = (before ++ d :: after)%list →
     Forall (λ d', format_dimension_key (d_key d') = format_dimension_key (d_key d) →
                   d_has_display_field d' = false ∧ d_display_values d' = None)
            after →
     match d_display_values d with
     | Some display_values =>
         dict_get ddv (format_dimension_key (d_key d)) = Some display_values
     | None =>
         d_has_display_field d = true →
         ∃ entry level,
           dict_get ddv (format_dimension_key (d_key d)) = Some entry ∧
           level_values (df_index df) (format_dimension_key (d_key d)) = Ok level ∧
           Forall (λ e, isnull e.1 = false ∧ isnull e.2 = false) entry ∧
           ∀ x, x ∈ level → isnull x = false → is_Some (vdict_get entry x)
     end).
Proof.
  intros Hrows H. unfold map_display_values in H. split.
  - intros k. rewrite (map_display_values_keys _ _ _ _ _ k H). split.
    + intros [[? ?]|?]; done.
    + intros ?. by right.
  - intros before d after -> Hafter.
    apply foldR_app in H as ([ddv0 df0] & Hbefore & H).
    cbn [foldR] in H. inv_bind H. destruct a as [ddv1 df1].
    rewrite (map_display_values_later _ _ _ _ _ _ Hafter H).
    pose proof (map_display_values_values _ _ _ _ Hbefore) as Hv0.
    apply Forall2_length in Hv0. cbn [snd] in Hv0.
    apply map_display_values_columns in Hbefore as (_ & _ & _ & Hi0 & _).
    apply map_display_values_step_map in Ha as (_ & _ & Hattr & Hfield).
    destruct (d_display_values d) as [dv|]; [by apply Hattr|].
    intros Hf. destruct (Hfield Hf eq_refl) as (series & level & Hs & Hl & Hget).
    rewrite Hi0 in Hl.
    exists (fill_first (group_first [] (zip level series))), level.
    split; [done|]. split; [done|].
    destruct (fill_first_entries (group_first [] (zip level series)))
      as [Hkeys Hvalues].
    split.
    + apply Forall_forall. intros e He. split.
      * pose proof (group_first_not_null (zip level series) [] (Forall_nil_2 _))
          as Hnn.
        rewrite Forall_forall in Hnn.
        assert (e.1 ∈ (fill_first (group_first [] (zip level series))).*1) as He1.
        { apply list_elem_of_fmap. by exists e. }
        rewrite Hkeys in He1. apply list_elem_of_fmap in He1 as (e' & -> & He').
        by apply Hnn.
      * rewrite Forall_forall in Hvalues. by apply Hvalues.
    + intros x Hx Hnull. apply vdict_get_is_Some. rewrite Hkeys.
      apply group_first_keys. right. split; [done|].
      apply (elem_of_zip_fst level series) in Hx; [done|].
      rewrite (length_getitem _ _ _ Hs), (length_level_values _ _ _ Hl).
      lia.
Qed.

Lemma group_first_values (rows : list (scalar * scalar)) :
  ∀ acc e, e ∈ group_first acc rows → e.2 ∈ acc.*2 ∨ e.2 ∈ rows.*2.
Proof.
  induction rows as [|[k x] rows IH]; intros acc e He; cbn [group_first] in He.
  - left. apply list_elem_of_fmap. by exists e.
  - assert (∀ acc', (∀ v, v ∈ acc'.*2 → v ∈ acc.*2 ∨ v = x) →
                    e ∈ group_first acc' rows →
                    e.2 ∈ acc.*2 ∨ e.2 ∈ ((k, x) :: rows).*2) as Hstep.
    { intros acc' Hacc' He'. rewrite fmap_cons. cbn [snd].
      apply IH in He' as [Hin|Hin].
      - destruct (Hacc' _ Hin) as [? | ->]; [by left | right; by left].
      - right. by right. }
    destruct (isnull k).
    { apply (Hstep acc); [by left | done]. }
    destruct (vdict_get acc k) as [old|].
    + destruct (isnull old && negb (isnull x)).
      * eapply Hstep; [|exact He].
        intros v Hv. apply list_elem_of_fmap in Hv as (e' & -> & He').
        apply list_elem_of_fmap in He' as ([k' v'] & -> & Hkv). cbn [fst snd].
        destruct (py_eq k k'); [by right|]. left.
        apply list_elem_of_fmap. by exists (k', v').
      * apply (Hstep acc); [by left | done].
    + apply (Hstep (acc ++ [(k, x)])%list); [|done].
      intros v Hv. rewrite fmap_app in Hv. apply elem_of_app in Hv as [Hv|Hv].
      * by left.
      * right. by apply list_elem_of_singleton in Hv.
Qed.

Lemma getitem_cells df k series :
  aligned df → getitem df k = Ok series →
  ∀ x, x ∈ series → ∃ row, row ∈ df_values df ∧ x ∈ row.
Proof.
  unfold getitem. intros Hal H x Hx.
  destruct (positions_of (df_columns df) k) as [|i ps] eqn:E; [done|].
  injection H as <-. apply list_elem_of_fmap in Hx as (row & -> & Hrow).
  exists row. split; [done|].
  assert (i < length row)%nat as Hi.
  { unfold aligned in Hal. rewrite Forall_forall in Hal. rewrite (Hal row Hrow).
    assert (i ∈ positions_of (df_columns df) k) as Hin by (rewrite E; by left).
    apply positions_from_lt in Hin. lia. }
  apply lookup_lt_is_Some_2 in Hi as [y Hy]. rewrite Hy. cbn [default].
  by eapply list_elem_of_lookup_2.
Qed.

(** In the transform the display values are filled cells.  The display
    values are read off the frame after its missing cells have become the
    text [NaN]: every display value taken from a display column is the
    filled form of a cell of the result set, so a missing display is shown
    as [NaN] and the text [null] of [map_display_values] is not used. *)
Theorem display_values_are_filled_cells (data_frame : DataFrame)
    (labels : list string) (filled : DataFrame) (dimensions : list Dimension)
    (ddv : display_values_map) (df' : DataFrame) :
  wf_columns (df_columns data_frame) → aligned data_frame →
  select_and_fill data_frame labels = Ok filled →
  map_display_values filled dimensions = Ok (ddv, df') →
  ∀ before d after,
    dimensions = (before ++ d :: after)%list →
    Forall (λ d', format_dimension_key (d_key d') = format_dimension_key (d_key d) →
                  d_has_display_field d' = false ∧ d_display_values d' = None)
           after →
    d_has_display_field d = true → d_display_values d = None →
    ∃ entry,
      dict_get ddv (format_dimension_key (d_key d)) = Some entry ∧
      Forall (λ e, ∃ row y, row ∈ df_values data_frame ∧ y ∈ row ∧
                            e.2 = fill_cell y) entry.
Proof.
  intros Hwf Hal Hfill H before d after -> Hafter Hf Hv.
  apply (select_and_fill_wf _ _ _ Hwf Hal) in Hfill as (Hwf0 & Hal0 & _ & Hrows0).
  unfold map_display_values in H.
  apply foldR_app in H as ([ddv0 df0] & Hbefore & H).
  cbn [foldR] in H. inv_bind H. destruct a as [ddv1 df1].
  rewrite (map_display_values_later _ _ _ _ _ _ Hafter H).
  pose proof (map_display_values_values _ _ _ _ Hbefore) as Hwithin.
  cbn [snd] in Hwithin.
  apply (map_display_values_wf _ (_, filled) _ _ Hwf0 Hal0) in Hbefore
    as (_ & Hal1 & _ & _).
  apply map_display_values_step_map in Ha as (_ & _ & _ & Hfield).
  destruct (Hfield Hf Hv) as (series & level & Hs & _ & Hget).
  exists (fill_first (group_first [] (zip level series))). split; [done|].
  apply Forall_forall. intros e He.
  unfold fill_first in He. apply list_elem_of_fmap in He as (e0 & -> & He0).
  cbn [snd].
  apply group_first_values in He0 as [Hnil|Hin]; [by apply elem_of_nil in Hnil|].
  apply list_elem_of_fmap in Hin as ([k x] & Hx & Hkx). cbn [snd] in Hx.
  apply elem_of_zip_r in Hkx.
  destruct (getitem_cells _ _ _ Hal1 Hs x Hkx) as (row0 & Hrow0 & Hx0).
  apply list_elem_of_lookup in Hrow0 as [i Hi].
  destruct (Forall2_lookup_l _ _ _ _ _ Hwithin Hi) as (rowf & Hif & Hsub).
  destruct (Forall2_lookup_l _ _ _ _ _ Hrows0 Hif) as (row & Hir & Hcells).
  destruct (Hcells x (Hsub x Hx0)) as (y & Hy & Hxy).
  exists row, y. split; [by eapply list_elem_of_lookup_2|]. split; [done|].
  rewrite Hx, Hxy.
  by destruct (fill_cell_not_null y) as [-> _].
Qed.

(* =================================================================== *)
(** ** When the transform returns *)
(* =================================================================== *)

Lemma positions_flat_present name (labels : list string) k :
  k ∈ labels → positions_of (FlatColumns name labels) k ≠ [].
Proof.
  intros Hk Hnil. apply list_elem_of_lookup in Hk as [j Hj].
  apply (elem_of_positions_flat name) in Hj. rewrite Hnil in Hj.
  by apply elem_of_nil in Hj.
Qed.

Lemma getitem_list_total df name labels (requested : list string) :
  df_columns df = FlatColumns name labels →
  (∀ k, k ∈ requested → k ∈ labels) →
  ∃ selected, getitem_list df requested = Ok selected.
Proof.
  intros Hc Hall. unfold getitem_list.
  destruct (mapR_total
              (λ k, match positions_of (df_columns df) k with
                    | [] => Raise KeyError
                    | ps => Ok ps
                    end) requested) as [pss Hpss].
  - apply Forall_forall. intros k Hk. rewrite Hc.
    pose proof (positions_flat_present name labels k (Hall k Hk)) as Hne.
    destruct (positions_of (FlatColumns name labels) k); [done | eauto].
  - rewrite Hpss. cbn [mbind result_bind]. eauto.
Qed.

Lemma map_display_values_step_total ddv df name labels d :
  df_columns df = FlatColumns name labels →
  (d_has_display_field d = true →
   format_dimension_key (d_display_key d) ∈ labels ∧
   Some (format_dimension_key (d_key d)) ∈ index_names (df_index df)) →
  ∃ ddv' df', map_display_values_step (ddv, df) d = Ok (ddv', df').
Proof.
  intros Hc Hd. unfold map_display_values_step.
  destruct (d_has_display_field d).
  - destruct (Hd eq_refl) as [Hk Hlevel].
    pose proof (positions_flat_present name labels _ Hk) as Hne.
    destruct (level_values_named _ _ Hlevel) as [level Hl].
    unfold getitem, delitem. rewrite Hc.
    destruct (positions_of (FlatColumns name labels) _) as [|j ps]; [done|].
    cbn [mbind result_bind]. rewrite Hl. cbn [mbind result_bind].
    destruct (d_display_values d); eauto.
  - cbn [mbind result_bind]. destruct (d_display_values d); eauto.
Qed.

Lemma map_display_values_total (dimensions : list Dimension) :
  ∀ ddv df name labels,
    df_columns df = FlatColumns name labels →
    NoDup (display_columns dimensions) →
    (∀ k, k ∈ display_columns dimensions → k ∈ labels) →
    (∀ d, d ∈ dimensions → d_has_display_field d = true →
          Some (format_dimension_key (d_key d)) ∈ index_names (df_index df)) →
    ∃ ddv' df',
      foldR map_display_values_step (ddv, df) dimensions = Ok (ddv', df').
Proof.
  induction dimensions as [|d dimensions IH];
    intros ddv df name labels Hc Hnd Hin Hlevels; cbn [foldR]; [eauto|].
  rewrite display_columns_cons in Hnd, Hin.
  destruct (map_display_values_step_total ddv df name labels d Hc)
    as (ddv1 & df1 & Hstep).
  { intros Hf. rewrite Hf in Hin. split.
    - apply Hin. by left.
    - apply Hlevels; [by left | done]. }
  rewrite Hstep. cbn [mbind result_bind].
  pose proof (map_display_values_step_flat _ _ _ _ _ _ _ Hc Hstep) as Hc1.
  pose proof (map_display_values_step_columns _ _ _ _ _ Hstep)
    as (_ & _ & Hi1 & _).
  eapply (IH _ _ _ _ Hc1).
  - destruct (d_has_display_field d); [|done]. by apply NoDup_cons in Hnd as [_ ?].
  - intros k Hk. apply list_elem_of_filter. split.
    + intros [Hf ->]. rewrite Hf in Hnd. by apply NoDup_cons in Hnd as [? _].
    + apply Hin. destruct (d_has_display_field d); [by right | done].
  - intros d' Hd' Hf'. rewrite Hi1. apply Hlevels; [by right | done].
Qed.

Lemma display_value_valid v prefix suffix precision :
  valid_precision precision →
  ∃ s, display_value v prefix suffix precision = Ok s.
Proof.
  intros Hp. unfold display_value.
  destruct v as [| [|] | n | f | s | t]; destruct precision as [p|]; simpl in *;
    eauto.
  destruct (decide (0 ≤ p ≤ INT_MAX)%Z); [simpl; eauto | done].
Qed.

Lemma add_value_cells_total im (entries : list (list string * scalar)) :
  (∀ k it, dict_get im k = Some it → valid_precision (i_precision it)) →
  Forall (λ e, ∃ l, e.1 = [l]) entries →
  ∀ row, ∃ row', foldR (add_value_cell im) row entries = Ok row'.
Proof.
  intros Hvalid. induction entries as [|[key v] entries IH]; intros Hall row;
    cbn [foldR]; [eauto|].
  apply Forall_cons in Hall as [[l Hl] Hall]. simpl in Hl. subst key.
  assert (∃ row1, add_value_cell im row ([l], v) = Ok row1) as [row1 Hrow1].
  { unfold add_value_cell. cbn [head mbind result_bind]. unfold value_display.
    destruct (dict_get im l) as [it|] eqn:Hit.
    - destruct (display_value_valid v (i_prefix it) (i_suffix it) (i_precision it))
        as [s Hs]; [by eapply Hvalid|].
      rewrite Hs. cbn [mbind result_bind setdeepattr]. eauto.
    - cbn [mbind result_bind setdeepattr]. eauto. }
  rewrite Hrow1. cbn [mbind result_bind]. by apply IH.
Qed.

Lemma transform_data_total_flat df im ddv name labels :
  df_columns df = FlatColumns name labels →
  (∀ k it, dict_get im k = Some it → valid_precision (i_precision it)) →
  ∃ rows, transform_data df im ddv = Ok rows.
Proof.
  intros Hc Hvalid. unfold transform_data, iterrows. apply mapR_total.
  apply Forall_forall. intros [index series] _. unfold transform_row.
  apply add_value_cells_total; [done|].
  apply Forall_forall. intros [key v] Hkv. apply elem_of_zip_l in Hkv.
  rewrite Hc in Hkv. cbn [columns_tuples] in Hkv.
  apply list_elem_of_fmap in Hkv as (l & -> & _). by exists l.
Qed.

(** The transform returns on a well-formed call.  With nothing pivoted,
    distinct single-level column labels that include every requested
    column, display columns that are distinct from each other and from the
    metric columns, an index that carries the level of every dimension
    with a display field and whose levels all name a dimension, no datetime
    dimension, and an admissible precision on every metric, the transform
    does not raise, whatever the cells hold.  No metric column is labelled
    ['name'], which pandas would hand out as the attribute [name] of the
    frame. *)
Theorem transform_returns_on_well_formed_call (self : ReactTable)
    (data_frame : DataFrame) (dimensions : list Dimension)
    (references : list Reference) (name : option string) (labels : list string) :
  (∀ d keys, pivot_data_frame d keys (transpose self) = Ok d) →
  df_columns data_frame = FlatColumns name labels → NoDup labels →
  (∀ k, k ∈ (display_columns dimensions ++
             dict_keys (make_item_map self references))%list → k ∈ labels) →
  NoDup (display_columns dimensions) →
  (∀ k, k ∈ display_columns dimensions →
        k ∉ dict_keys (make_item_map self references)) →
  "name" ∉ dict_keys (make_item_map self references) →
  (∀ d, d ∈ dimensions → d_has_display_field d = true →
        Some (format_dimension_key (d_key d)) ∈ index_names (df_index data_frame)) →
  Forall (λ d, d_interval d = None) dimensions →
  (is_RangeIndex (df_index data_frame) = true ∨
   Forall (level_described dimensions) (index_names (df_index data_frame))) →
  Forall (λ i, valid_precision (m_precision i)) (items self) →
  ∃ out, transform self data_frame dimensions references = Ok out.
Proof.
  intros Hpivot Hc Hnd Hin Hndd Hdisjoint Hnoname Hlevels Hplain Hdescribed Hvalid.
  unfold transform.
  destruct (getitem_list_total data_frame name labels _ Hc Hin) as [selected Hsel].
  unfold select_and_fill. rewrite Hsel. cbn [mbind result_bind].
  apply (getitem_list_flat _ _ _ _ _ Hc Hnd) in Hsel as (Hc0 & Hi0 & Hn0).
  set (filled := replace_inf (VStr "Inf") (fillna (VStr "NaN") (copy selected))).
  assert (df_columns filled =
            FlatColumns name (display_columns dimensions ++
                              dict_keys (make_item_map self references))%list)
    as Hcf by exact Hc0.
  assert (df_index filled = df_index data_frame) as Hif by exact Hi0.
  assert (∃ ddv df1, map_display_values filled dimensions = Ok (ddv, df1))
    as (ddv & df1 & Hmdv).
  { unfold map_display_values.
    eapply (map_display_values_total dimensions _ filled _ _ Hcf Hndd).
    - intros k Hk. apply elem_of_app. by left.
    - intros d Hd Hf. rewrite Hif. by apply Hlevels. }
  rewrite Hmdv. cbn [mbind result_bind].
  unfold map_display_values in Hmdv.
  pose proof (map_display_values_columns _ _ _ _ _ Hmdv)
    as (_ & _ & _ & Hi1 & Hn1 & _).
  pose proof (map_display_values_flat _ _ _ _ _ _ _ Hcf Hmdv) as Hc1.
  assert (filter (λ l, l ∉ display_columns dimensions)
            (display_columns dimensions ++
             dict_keys (make_item_map self references))%list
          = dict_keys (make_item_map self references)) as Hlabels.
  { rewrite filter_app.
    rewrite (filter_all _ (dict_keys _)) by (intros l Hl Hd; by eapply Hdisjoint).
    by rewrite filter_none by (intros l Hl Hn; done). }
  rewrite Hlabels in Hc1.
  assert (∃ df2, format_data_frame df1 dimensions = Ok df2) as [df2 Hfmt].
  { unfold format_data_frame.
    rewrite format_data_frame_steps_plain by (by apply (imap_plain dimensions id)).
    cbn [mbind result_bind]. eauto. }
  rewrite Hfmt. cbn [mbind result_bind]. rewrite Hpivot. cbn [mbind result_bind].
  pose proof (format_data_frame_flat _ _ _ _ _ Hc1 Hfmt) as [Hc2 Hn2].
  pose proof (format_data_frame_range _ _ _ Hfmt) as Hr2.
  pose proof (format_data_frame_shape _ _ _ Hfmt) as [_ Hnames2].
  unfold build_output.
  destruct (transform_dimension_column_headers_total df2 dimensions)
    as [dimension_columns Hdims].
  { rewrite Hr2, Hnames2, Hi1, Hif. exact Hdescribed. }
  rewrite Hdims. cbn [mbind result_bind].
  destruct (transform_metric_column_headers_flat df2
              (dict_set (make_item_map self references) TOTALS_VALUE TotalsItem)
              ddv _ Hc2) as [metric_columns Hmetrics].
  { by eapply getattr_name_flat. }
  { intros x Hx. by apply dict_get_set_is_Some, dict_keys_get. }
  rewrite Hmetrics. cbn [mbind result_bind].
  destruct (transform_data_total_flat df2
              (dict_set (make_item_map self references) TOTALS_VALUE TotalsItem)
              ddv _ _ Hc2) as [rows Hrows].
  { intros k it Hit.
    destruct (decide (k = TOTALS_VALUE)) as [->|Hne].
    - rewrite dict_get_set_eq in Hit. by injection Hit as <-.
    - rewrite dict_get_set_ne in Hit by done.
      unfold make_item_map in Hit. fold (item_pairs self references) in Hit.
      apply dict_of_list_get in Hit as [Hit|Hit]; [done|].
      apply elem_of_item_pairs in Hit as (i & r & Hi & _ & _ & ->).
      rewrite Forall_forall in Hvalid. by apply Hvalid. }
  rewrite Hrows. cbn [mbind result_bind]. eauto.
Qed.

(* =================================================================== *)
(** ** Missing and infinite cells in the records *)
(* =================================================================== *)

Lemma pick_zip {A B} (ps : list nat) (l1 : list A) (l2 : list B) :
  length l1 = length l2 →
  pick ps (zip l1 l2) = zip (pick ps l1) (pick ps l2).
Proof.
  intros Hlen. unfold pick. induction ps as [|j ps IH]; [done|].
  cbn -[lookup zip_with]. rewrite lookup_zip_with.
  destruct (l1 !! j) as [x|] eqn:H1; destruct (l2 !! j) as [y|] eqn:H2;
    cbn -[lookup zip_with].
  - rewrite IH. done.
  - apply lookup_lt_Some in H1. apply lookup_ge_None in H2. lia.
  - apply lookup_ge_None in H1. apply lookup_lt_Some in H2. lia.
  - exact IH.
Qed.

Lemma elem_of_zip_fmap_r {A B C} (f : B → C) (l : list A) (k : list B) a c :
  (a, c) ∈ zip l (f <$> k) → ∃ b, c = f b ∧ (a, b) ∈ zip l k.
Proof.
  intros H. apply list_elem_of_lookup in H as [i Hi].
  apply lookup_zip_with_Some in Hi as (a' & c' & Heq & Ha & Hc).
  injection Heq as <- <-. rewrite list_lookup_fmap in Hc.
  destruct (k !! i) as [b|] eqn:Hb; [|done]. injection Hc as <-.
  exists b. split; [done|]. apply (list_elem_of_lookup_2 _ i).
  apply lookup_zip_with_Some. eauto.
Qed.

Lemma columns_within_refl df : columns_within df df.
Proof. apply Forall_Forall2_diag, Forall_forall. done. Qed.

Lemma columns_within_trans A B C :
  columns_within A B → columns_within B C → columns_within A C.
Proof.
  intros H1 H2. eapply Forall2_trans; [| exact H1 | exact H2].
  intros a b c Hab Hbc e He. auto.
Qed.

Lemma taken_cells (c : Columns) (ps : list nat) (rows : list (list scalar)) :
  Forall (λ row, length row = length (columns_tuples c)) rows →
  Forall2 (λ row' row, ∀ e, e ∈ zip (columns_tuples (take_columns c ps)) row' →
                            e ∈ zip (columns_tuples c) row)
    (pick ps <$> rows) rows.
Proof.
  intros Hal. apply Forall2_fmap_l, Forall_Forall2_diag.
  eapply Forall_impl; [exact Hal|]. intros row Hrow e He.
  rewrite columns_tuples_take, <- pick_zip in He by done.
  by apply elem_of_pick in He.
Qed.

Lemma getitem_list_cells df labels selected :
  aligned df → getitem_list df labels = Ok selected → columns_within selected df.
Proof.
  unfold getitem_list. intros Hal H. inv_bind H. injection H as <-.
  by apply taken_cells.
Qed.

Lemma delitem_cells df k df' :
  aligned df → delitem df k = Ok df' → columns_within df' df.
Proof.
  unfold delitem. intros Hal H.
  destruct (positions_of (df_columns df) k); [done|]. injection H as <-.
  by apply taken_cells.
Qed.

Lemma map_display_values_step_cells ddv df d ddv' df' :
  wf_columns (df_columns df) → aligned df →
  map_display_values_step (ddv, df) d = Ok (ddv', df') →
  columns_within df' df ∧ wf_columns (df_columns df') ∧ aligned df'.
Proof.
  intros Hwf Hal. unfold map_display_values_step. intros H.
  inv_bind H. destruct a as [ddv1 df1].
  assert (df1 = df') as -> by (destruct (d_display_values d); by injection H).
  clear H. destruct (d_has_display_field d).
  - inv_bind Ha. inv_bind Ha. inv_bind Ha. injection Ha as _ <-.
    match goal with
    | Hdel : delitem _ _ = Ok _ |- _ =>
        pose proof (delitem_cells _ _ _ Hal Hdel) as Hcells;
        apply (delitem_wf _ _ _ Hwf Hal) in Hdel as (Hwf' & Hal' & _)
    end.
    done.
  - injection Ha as _ <-. split; [apply columns_within_refl | done].
Qed.

Lemma map_display_values_cells (dimensions : list Dimension) :
  ∀ ddv df ddv' df',
    wf_columns (df_columns df) → aligned df →
    foldR map_display_values_step (ddv, df) dimensions = Ok (ddv', df') →
    columns_within df' df ∧ wf_columns (df_columns df') ∧ aligned df'.
Proof.
  induction dimensions as [|d dimensions IH]; intros ddv df ddv' df' Hwf Hal H;
    cbn [foldR] in H.
  - injection H as _ <-. split; [apply columns_within_refl | done].
  - inv_bind H. destruct a as [ddv1 df1].
    apply (map_display_values_step_cells _ _ _ _ _ Hwf Hal) in Ha
      as (Hc1 & Hwf1 & Hal1).
    apply (IH _ _ _ _ Hwf1 Hal1) in H as (Hc & Hwf' & Hal').
    split; [by eapply columns_within_trans | done].
Qed.

Lemma select_and_fill_cells df labels filled :
  aligned df → select_and_fill df labels = Ok filled →
  Forall2 (λ row original,
             ∀ t x, (t, x) ∈ zip (columns_tuples (df_columns filled)) row →
               ∃ y, x = fill_cell y ∧
                    (t, y) ∈ zip (columns_tuples (df_columns df)) original)
    (df_values filled) (df_values df).
Proof.
  intros Hal H.
  apply select_and_fill_values in H as (selected & Hsel & _ & Hc & Hv).
  pose proof (getitem_list_cells _ _ _ Hal Hsel) as Hcells.
  rewrite Hc, Hv.
  change (map (map fill_cell) (df_values selected))
    with ((λ row : list scalar, fill_cell <$> row) <$> df_values selected).
  apply Forall2_fmap_l. eapply Forall2_impl; [exact Hcells|].
  intros srow original Hin t x Hx. cbn beta in Hx.
  apply elem_of_zip_fmap_r in Hx as (y & -> & Hy).
  exists y. split; [done|]. by apply Hin.
Qed.

Lemma astype_text (d : dtype) (s : string) : astype d (VStr s) = VStr s.
Proof. by destruct d. Qed.

(** C10. What [fillna('NaN')] followed by [replace([inf, -inf], 'Inf')]
    makes of a cell: the text ['NaN'] where the cell was missing, the text
    ['Inf'] where it was an infinity of either sign, and the cell itself
    otherwise; the frame the transform works on holds these for every cell
    of the selected columns, and no missing and no infinite cell.  The
    texts surface in the records: for a result set with distinct
    single-level column labels and a call that pivots nothing, a transform
    that returns gives one record per row, and the record of a row holds
    under the key of every metric column a cell whose raw is the text
    ['NaN'] where the cell of that row and column was missing, the text
    ['Inf'] where it was infinite, and otherwise the cell as the iteration
    over the rows yields it (an integer beside a column of floats as the
    float of the same value). *)
Theorem missing_and_infinite_cells_become_text :
  (fill_cell VNone = VStr "NaN" ∧
   fill_cell (VFloat S754_nan) = VStr "NaN" ∧
   (∀ s, fill_cell (VFloat (S754_infinity s)) = VStr "Inf") ∧
   (∀ x, isnull x = false → is_inf x = false → fill_cell x = x)) ∧
  (∀ data_frame labels df',
     select_and_fill data_frame labels = Ok df' →
     ∃ selected,
       getitem_list data_frame labels = Ok selected ∧
       df_values df' = map (map fill_cell) (df_values selected) ∧
       Forall (Forall (λ x, isnull x = false ∧ is_inf x = false)) (df_values df')) ∧
  (∀ self data_frame dimensions references out name labels,
     (∀ d keys, pivot_data_frame d keys (transpose self) = Ok d) →
     df_columns data_frame = FlatColumns name labels → NoDup labels →
     wf_frame data_frame →
     (∀ k, k ∈ display_columns dimensions →
           k ∉ dict_keys (make_item_map self references)) →
     transform self data_frame dimensions references = Ok out →
     length (out_data out) = length (df_values data_frame) ∧
     ∀ i original j k y,
       df_values data_frame !! i = Some original →
       labels !! j = Some k →
       k ∈ dict_keys (make_item_map self references) →
       original !! j = Some y →
       ∃ row raw display,
         out_data out !! i = Some row ∧
         getdeep row [k] = Some (cell_value raw display) ∧
         (isnull y = true → raw = VStr "NaN") ∧
         (is_inf y = true → raw = VStr "Inf") ∧
         (isnull y = false → is_inf y = false →
          raw = y ∨ ∃ n, y = VInt n ∧ raw = VFloat (float_of_int n))).
Proof.
  split; [|split].
  - repeat split; try done. intros x Hn Hi. unfold fill_cell. by rewrite Hn, Hi.
  - intros df labels df' H.
    apply select_and_fill_values in H as (selected & Hsel & _ & _ & Hv).
    exists selected. split; [done|]. split; [done|]. rewrite Hv.
    apply Forall_forall. intros row Hrow.
    apply list_elem_of_In, in_map_iff in Hrow as (r & <- & _).
    apply Forall_forall. intros x Hx.
    apply list_elem_of_In, in_map_iff in Hx as (y & <- & _).
    apply fill_cell_not_null.
  - intros self df dims refs out name labels Hpivot Hc Hnd (Hwf & Hrows & Hal)
      Hdisjoint H.
    unfold transform in H.
    inv_bind H. rename a into filled, Ha into Hfill.
    inv_bind H. destruct a as [ddv df1]. rename Ha into Hmdv.
    inv_bind H. rename a into df2, Ha into Hfmt.
    inv_bind H. rewrite Hpivot in Ha. injection Ha as <-.
    unfold build_output in H. inv_bind H. inv_bind H. inv_bind H.
    injection H as <-. cbn [out_data]. rename a1 into rows, Ha1 into Hdata.
    (* the columns of the frame the records are built from *)
    pose proof (select_and_fill_values _ _ _ Hfill) as (selected & Hsel & Hi0 & Hcs & _).
    pose proof (getitem_list_flat _ _ _ _ _ Hc Hnd Hsel) as (Hc0 & Hi0' & _).
    assert (df_columns filled =
              FlatColumns name (display_columns dims ++
                                dict_keys (make_item_map self refs))%list)
      as Hcf by (by rewrite Hcs).
    unfold map_display_values in Hmdv.
    pose proof (map_display_values_flat _ _ _ _ _ _ _ Hcf Hmdv) as Hc1.
    assert (filter (λ l, l ∉ display_columns dims)
              (display_columns dims ++ dict_keys (make_item_map self refs))%list
            = dict_keys (make_item_map self refs)) as Hlabels.
    { rewrite filter_app.
      rewrite (filter_all _ (dict_keys _)) by (intros l Hl Hd; by eapply Hdisjoint).
      by rewrite filter_none by (intros l Hl Hn; done). }
    rewrite Hlabels in Hc1.
    pose proof (format_data_frame_flat _ _ _ _ _ Hc1 Hfmt) as [Hc2 _].
    (* the cells of that frame *)
    pose proof (select_and_fill_cells _ _ _ Hal Hfill) as Hcells0.
    pose proof (select_and_fill_wf _ _ _ Hwf Hal Hfill) as (Hwf0 & Hal0 & _ & _).
    pose proof (map_display_values_columns _ _ _ _ _ Hmdv) as (_ & _ & _ & Hi1 & _).
    pose proof (map_display_values_cells _ _ _ _ _ Hwf0 Hal0 Hmdv)
      as (Hcells1 & Hwf1 & Hal1).
    pose proof (format_data_frame_shape _ _ _ Hfmt) as [Hsize _].
    pose proof (format_data_frame_values _ _ _ Hfmt) as (Hv2 & Ht2 & _).
    assert (aligned df2) as Hal2 by (by eapply aligned_same).
    assert (length rows = length (df_values df)) as Hlength.
    { unfold transform_data, iterrows in Hdata. apply mapR_length in Hdata.
      rewrite Hdata, length_zip_with, length_fmap, index_size_tuples,
        Hsize, Hi1, Hi0, Hi0', Hv2.
      apply Forall2_length in Hcells0, Hcells1. lia. }
    split; [exact Hlength|].
    intros i original j k y Ho Hj Hk Hy.
    destruct (lookup_lt_is_Some_2 rows i) as [row Hrow].
    { rewrite Hlength. by eapply lookup_lt_Some. }
    destruct (transform_data_row _ _ _ _ _ _ Hdata Hrow)
      as (index & series & _ & Hs & Hr).
    unfold transform_row in Hr.
    assert (length series = length (columns_tuples (df_columns df2))) as Hlen.
    { unfold aligned in Hal2. rewrite Forall_forall in Hal2.
      apply Hal2. by eapply list_elem_of_lookup_2. }
    eapply add_value_cells_some with (n := 1%nat) (key := [k]) in Hr
      as (value & display & Hin & Hget).
    2:{ apply Forall_forall. intros [key v] Hkv. cbn [fst].
        apply elem_of_zip_l in Hkv. rewrite Hc2 in Hkv. cbn [columns_tuples] in Hkv.
        apply list_elem_of_fmap in Hkv as (l & -> & _). reflexivity. }
    2:{ rewrite fst_zip by (rewrite length_fmap; lia).
        rewrite Hc2. cbn [columns_tuples]. apply list_elem_of_fmap. by exists k. }
    apply elem_of_zip_fmap_r in Hin as (x & -> & Hin).
    rewrite Ht2 in Hin. rewrite Hv2 in Hs.
    destruct (Forall2_lookup_l _ _ _ _ _ Hcells1 Hs) as (frow & Hf & Hwithin).
    destruct (Forall2_lookup_l _ _ _ _ _ Hcells0 Hf) as (orow & Ho' & Hfilled).
    rewrite Ho in Ho'. injection Ho' as <-.
    destruct (Hfilled [k] x (Hwithin _ Hin)) as (y' & -> & Hy').
    assert (y' = y) as ->.
    { rewrite Hc in Hy'. cbn [columns_tuples] in Hy'.
      apply list_elem_of_lookup in Hy' as [j' Hj'].
      apply lookup_zip_with_Some in Hj' as (t & b & Heq & Ha' & Hb').
      injection Heq as <- <-. rewrite list_lookup_fmap in Ha'.
      destruct (labels !! j') as [l|] eqn:Hl; [|done]. injection Ha' as ->.
      assert (j' = j) as -> by (by eapply NoDup_lookup).
      congruence. }
    exists row, (astype (values_dtype df2) (fill_cell y)), display.
    split; [done|]. split; [done|]. unfold fill_cell.
    split; [|split].
    + intros ->. apply astype_text.
    + intros Hinf.
      assert (isnull y = false) as ->
        by (destruct y as [| | |f| |]; try done; by destruct f).
      rewrite Hinf. apply astype_text.
    + intros -> ->.
      destruct (astype_cases (values_dtype df2) y) as [?|(n & ? & _ & ?)]; eauto.
Qed.

(* =================================================================== *)
(** ** Accessors and records of one transform *)
(* =================================================================== *)






End ReactTable.

(* ===================================================================== *)
(** * The value formatter: properties *)
(* ===================================================================== *)

Lemma digits_only_app s1 s2 :
  digits_only (s1 +:+ s2) = digits_only s1 && digits_only s2.
Proof.
  induction s1 as [|c s1 IH]; simpl; [done|].
  rewrite IH. by rewrite andb_assoc.
Qed.

Lemma length_app_string s1 s2 :
  String.length (s1 +:+ s2) = (String.length s1 + String.length s2)%nat.
Proof. induction s1; simpl; [done|]. by f_equal. Qed.

Lemma append_empty_r s : s +:+ "" = s.
Proof.
  induction s as [|c s IH]; [done|].
  change (String c (s +:+ "") = String c s). by rewrite IH.
Qed.

Lemma string_of_uint_digits (u : Decimal.uint) :
  digits_only (NilEmpty.string_of_uint u) = true.
Proof. induction u; simpl; auto. Qed.

Lemma str_of_N_digits (n : N) : digits_only (str_of_N n) = true.
Proof.
  unfold str_of_N, NilZero.string_of_uint.
  destruct (N.to_uint n) eqn:E; try done; simpl;
    apply (string_of_uint_digits).
Qed.

Lemma str_of_N_one_digit (d : N) :
  (d < 10)%N → String.length (str_of_N d) = 1%nat.
Proof.
  intros Hd.
  assert (d ∈ [0; 1; 2; 3; 4; 5; 6; 7; 8; 9]%N) as Hin.
  { destruct d as [|p]; [set_solver|].
    do 4 (destruct p as [p|p|]; try lia; try set_solver). }
  repeat (apply elem_of_cons in Hin as [-> | Hin]; [reflexivity|]).
  by apply elem_of_nil in Hin.
Qed.

Lemma frac_digits_length (p : nat) (r : N) :
  String.length (frac_digits p r) = p.
Proof.
  revert r. induction p as [|p IH]; intros r; simpl; [done|].
  rewrite length_app_string, IH, str_of_N_one_digit; [lia|].
  apply N.mod_lt. lia.
Qed.

Lemma frac_digits_digits (p : nat) (r : N) :
  digits_only (frac_digits p r) = true.
Proof.
  revert r. induction p as [|p IH]; intros r; simpl; [done|].
  by rewrite digits_only_app, IH, str_of_N_digits.
Qed.

(** C2. The formatter returns for every scalar and every admissible
    precision; it renders booleans as lowercase text before anything else,
    a float under a precision in fixed point, an integer with thousands
    separators, any other value by its string conversion, and puts the
    result between prefix and suffix, an unset one being empty.  A finite
    float under a precision of [p] digits has exactly [p] digits after the
    point.  The four examples of the specification evaluate as stated. *)
Theorem display_value_total :
  (∀ v prefix suffix precision,
     valid_precision precision →
     display_value v prefix suffix precision =
       Ok (or_empty prefix +:+ formatted_value v precision +:+ or_empty suffix)) ∧
  (∀ s m e p, ∃ whole frac,
     format_fixed (S754_finite s m e) (S p) =
       sign_str s +:+ whole +:+ "." +:+ frac ∧
     String.length frac = S p ∧
     digits_only whole = true ∧ digits_only frac = true) ∧
  (∀ s m e, ∃ whole,
     format_fixed (S754_finite s m e) 0 = sign_str s +:+ whole ∧
     digits_only whole = true) ∧
  or_empty None = "" ∧
  display_value (VBool true) None None None = Ok "true" ∧
  display_value (VBool false) None None None = Ok "false" ∧
  display_value (VInt 1234567) None None None = Ok "1,234,567" ∧
  display_value (VFloat float_3_14159) None None (Some 2%Z) = Ok "3.14" ∧
  display_value (VInt 5) (Some "$") None None = Ok "$5".
Proof.
  split; [|split; [|split; [|repeat split; vm_compute; reflexivity]]].
  - intros v pre suf precision Hp. unfold display_value.
    destruct v as [| [|] | n | f | s | t]; destruct precision as [p|]; simpl in *;
      try reflexivity.
    destruct (decide (0 ≤ p ≤ INT_MAX)%Z) as [_|Hn]; [reflexivity | contradiction].
  - intros s m e p.
    exists (str_of_N (scaled_round m e (S p) / 10 ^ N.of_nat (S p))),
           (frac_digits (S p) (scaled_round m e (S p) mod 10 ^ N.of_nat (S p))).
    split; [reflexivity|].
    split; [apply frac_digits_length|].
    split; [apply str_of_N_digits | apply frac_digits_digits].
  - intros s m e.
    exists (str_of_N (scaled_round m e 0 / 10 ^ N.of_nat 0)).
    split; [|apply str_of_N_digits].
    unfold format_fixed, fixed_of_N. by rewrite append_empty_r.
Qed.

(* ===================================================================== *)
(** * Modifiers: properties *)
(* ===================================================================== *)

Lemma get_wrapped_key_class (c : pyclass) (d : gmap string attr) :
  is_modifier c = true → d !! "wrapped_key" = None →
  get_wrapped_key (mkObject c d) = Ok (wrapped_key c).
Proof.
  intros Hc Hd. unfold get_wrapped_key, object_getattribute. simpl.
  rewrite Hd. by destruct c.
Qed.

Lemma class_property_wrapped_key (c : pyclass) :
  class_property c (wrapped_key c) = None.
Proof. by destruct c. Qed.

Lemma wrapped_key_not_itself (c : pyclass) : wrapped_key c ≠ "wrapped_key".
Proof. by destruct c. Qed.

Lemma new_modifier_Ok (c : pyclass) (wrapped : attr) (h : objects) :
  is_modifier c = true →
  new_modifier c wrapped h =
    Ok (fresh (dom h),
        <[fresh (dom h) := mkObject c {[wrapped_key c := wrapped]}]> h).
Proof.
  intros Hc. unfold new_modifier. rewrite lookup_insert_eq. simpl.
  rewrite get_wrapped_key_class by done. simpl.
  rewrite lookup_insert_eq. simpl. rewrite Hc.
  rewrite get_wrapped_key_class by done. simpl.
  rewrite decide_True by done.
  unfold object_setattr. simpl. rewrite class_property_wrapped_key. simpl.
  by rewrite insert_insert_eq, insert_empty.
Qed.

Lemma class_holds_false (c : pyclass) (name : string) :
  class_holds c name = false →
  class_property c name = None ∧ class_attribute c name = None.
Proof.
  unfold class_holds. intros H. apply bool_decide_eq_false in H.
  destruct (class_property c name), (class_attribute c name); try done;
    exfalso; apply H; eauto.
Qed.

(** C8, as the code has it. For a wrapper built by [Modifier(W)] (or a
    subclass) around an ordinary object [W]: reading an attribute that the
    wrapper does not hold itself returns what reading it on [W] returns;
    setting an attribute other than the slot name of the wrapper writes it
    to [W] when it is in the own state of [W] and leaves the wrapper as it
    is; when it is not in the own state of [W], the attribute is set on
    the wrapper and [W] is left as it is, except for a property of the
    wrapper class, where the assignment raises [AttributeError] and
    nothing changes; the only property is [definition] of [Rollup].
    Setting the slot name itself always rebinds the slot of the wrapper;
    and [definition] read on a [Rollup] is the null value whatever the
    wrapper and the wrapped dimension hold. *)
Theorem modifier_delegation :
  (∀ (c : pyclass) (h : objects) (lw : positive) (members : list (string * attr))
     (dw : gmap string attr) (fuel : nat),
     is_modifier c = true →
     h !! lw = Some (mkObject (Plain members) dw) →
     ∃ lm h1,
       new_modifier c (ARef lw) h = Ok (lm, h1) ∧
       lm ≠ lw ∧
       h1 !! lw = Some (mkObject (Plain members) dw) ∧
       h1 !! lm = Some (mkObject c {[wrapped_key c := ARef lw]}) ∧
       (∀ foo, foo ≠ wrapped_key c → class_holds c foo = false →
          py_getattr (S (S fuel)) h1 (ARef lm) foo =
            py_getattr (S fuel) h1 (ARef lw) foo ∧
          py_getattr (S fuel) h1 (ARef lw) foo =
            object_getattribute (mkObject (Plain members) dw) foo) ∧
       (∀ foo v, foo ≠ wrapped_key c → is_Some (dw !! foo) →
          py_setattr (S (S fuel)) h1 (ARef lm) foo v =
            Ok (<[lw := mkObject (Plain members) (<[foo := v]> dw)]> h1)) ∧
       (∀ foo v, foo ≠ wrapped_key c → dw !! foo = None →
          class_property c foo = None →
          py_setattr (S (S fuel)) h1 (ARef lm) foo v =
            Ok (<[lm := mkObject c (<[foo := v]> {[wrapped_key c := ARef lw]})]> h1)) ∧
       (∀ foo v, foo ≠ wrapped_key c → dw !! foo = None →
          is_Some (class_property c foo) →
          py_setattr (S (S fuel)) h1 (ARef lm) foo v = Raise AttributeError) ∧
       (∀ v,
          py_setattr (S fuel) h1 (ARef lm) (wrapped_key c) v =
            Ok (<[lm := mkObject c {[wrapped_key c := v]}]> h1))) ∧
  (∀ (c : pyclass) (foo : string),
     is_Some (class_property c foo) ↔ c = Rollup ∧ foo = "definition") ∧
  (∀ (h : objects) (l : positive) (d : gmap string attr) (fuel : nat),
     h !! l = Some (mkObject Rollup d) →
     py_getattr (S fuel) h (ARef l) "definition" = Ok ANullValue).
Proof.
  split.
  - intros c h lw members dw fuel Hc Hw.
    exists (fresh (dom h)),
           (<[fresh (dom h) := mkObject c {[wrapped_key c := ARef lw]}]> h).
    assert (fresh (dom h) ≠ lw) as Hne.
    { intros Heq. apply (is_fresh (dom h)). rewrite Heq.
      apply elem_of_dom. eauto. }
    set (lm := fresh (dom h)) in *.
    assert (get_wrapped_key (mkObject c {[wrapped_key c := ARef lw]})
            = Ok (wrapped_key c)) as Hwk.
    { apply get_wrapped_key_class; [done|]. simpl.
      apply lookup_singleton_ne, wrapped_key_not_itself. }
    assert (object_getattribute (mkObject c {[wrapped_key c := ARef lw]})
              (wrapped_key c) = Ok (ARef lw)) as Hslot.
    { unfold object_getattribute. simpl.
      by rewrite class_property_wrapped_key, lookup_singleton_eq. }
    split; [by apply new_modifier_Ok|]. split; [done|].
    split; [by rewrite lookup_insert_ne|].
    split; [by rewrite lookup_insert_eq|].
    split; [|split; [|split; [|split]]].
    + intros foo Hfoo Hholds. apply class_holds_false in Hholds as [Hp Ha].
      split.
      * cbn [py_getattr]. rewrite lookup_insert_eq.
        assert (({[wrapped_key c := ARef lw]} : gmap string attr) !! foo = None)
          as Hd by (by apply lookup_singleton_ne).
        unfold object_getattribute at 1. cbn [ob_class ob_dict].
        rewrite Hp, Hd, Ha, Hc.
        rewrite decide_False by (by intros [? ?]).
        rewrite Hwk. cbn [mbind result_bind]. rewrite Hslot. cbn [mbind result_bind].
        destruct fuel; reflexivity.
      * cbn [py_getattr]. rewrite lookup_insert_ne by done. rewrite Hw.
        unfold object_getattribute. cbn [ob_class ob_dict class_property].
        destruct (dw !! foo); [done|].
        destruct (class_attribute (Plain members) foo); done.
    + intros foo v Hfoo Hin.
      cbn [py_setattr]. rewrite lookup_insert_eq. cbn [ob_class]. rewrite Hc, Hwk.
      cbn [mbind result_bind]. rewrite decide_False by done.
      rewrite Hslot. cbn [mbind result_bind].
      rewrite lookup_insert_ne by done. rewrite Hw. cbn [mbind result_bind ob_dict].
      rewrite decide_True by done. reflexivity.
    + intros foo v Hfoo Hnone Hprop.
      cbn [py_setattr]. rewrite lookup_insert_eq. cbn [ob_class]. rewrite Hc, Hwk.
      cbn [mbind result_bind]. rewrite decide_False by done.
      rewrite Hslot. cbn [mbind result_bind].
      rewrite lookup_insert_ne by done. rewrite Hw. cbn [mbind result_bind ob_dict].
      rewrite decide_False by (rewrite Hnone; by intros [? ?]).
      unfold object_setattr. cbn [ob_class ob_dict]. rewrite Hprop.
      cbn [mbind result_bind]. by rewrite insert_insert_eq.
    + intros foo v Hfoo Hnone [p Hprop].
      cbn [py_setattr]. rewrite lookup_insert_eq. cbn [ob_class]. rewrite Hc, Hwk.
      cbn [mbind result_bind]. rewrite decide_False by done.
      rewrite Hslot. cbn [mbind result_bind].
      rewrite lookup_insert_ne by done. rewrite Hw. cbn [mbind result_bind ob_dict].
      rewrite decide_False by (rewrite Hnone; by intros [? ?]).
      unfold object_setattr. cbn [ob_class ob_dict]. by rewrite Hprop.
    + intros v.
      cbn [py_setattr]. rewrite lookup_insert_eq. cbn [ob_class]. rewrite Hc, Hwk.
      cbn [mbind result_bind]. rewrite decide_True by done.
      unfold object_setattr. cbn [ob_class ob_dict].
      rewrite class_property_wrapped_key. cbn [mbind result_bind].
      by rewrite insert_singleton_eq.
  - split.
    + intros c foo. unfold class_property. split.
      * intros [p Hp]. destruct c; try done.
        destruct (decide (foo = "definition")); done.
      * intros [-> ->]. by eexists.
    + intros h l d fuel Hl. cbn [py_getattr]. rewrite Hl. reflexivity.
Qed.

(* ===================================================================== *)
(** * The value formatter: separators and failures *)
(* ===================================================================== *)

Lemma chars_of_string_of_chars (l : list ascii) :
  chars_of_string (string_of_chars l) = l.
Proof. apply list_ascii_of_string_of_list_ascii. Qed.

Lemma string_of_chars_of_string (s : string) :
  string_of_chars (chars_of_string s) = s.
Proof. apply string_of_list_ascii_of_string. Qed.

Lemma digits_only_chars (s : string) :
  digits_only s = true → Forall (λ c, is_digit c = true) (chars_of_string s).
Proof.
  induction s as [|c s IH]; simpl; intros H; [constructor|].
  apply andb_true_iff in H as [Hc Hs]. constructor; auto.
Qed.

Lemma is_digit_not_separator (c : ascii) : is_digit c = true → c ≠ ","%char.
Proof. intros H ->. done. Qed.

Lemma group3_rev_filter (ds : list ascii) :
  ∀ k, Forall (λ c, is_digit c = true) ds →
       filter (λ c, c ≠ ","%char) (group3_rev k ds) = ds.
Proof.
  induction ds as [|d ds IH]; intros k Hds; [done|].
  apply Forall_cons in Hds as [Hd Hds].
  pose proof (is_digit_not_separator _ Hd) as Hne.
  cbn [group3_rev].
  destruct k as [|[|[|[|k]]]];
    rewrite ?(filter_cons_False _ ","%char) by (intros ?; done);
    rewrite filter_cons_True by done; by rewrite IH.
Qed.

Lemma group3_rev_grouped (ds : list ascii) :
  ∀ k, (k ≤ 3)%nat → Forall (λ c, is_digit c = true) ds →
       grouped_rev k (group3_rev k ds) = true.
Proof.
  induction ds as [|d ds IH]; intros k Hk Hds; [done|].
  apply Forall_cons in Hds as [Hd Hds].
  cbn [group3_rev].
  destruct k as [|[|[|[|k]]]]; [| | | |lia]; cbn [grouped_rev];
    rewrite ?bool_decide_true by done; rewrite Hd; cbn [andb]; apply IH; (lia || done).
Qed.

Lemma filter_rev {A} (P : A → Prop) `{∀ x, Decision (P x)} (l : list A) :
  filter P (rev l) = rev (filter P l).
Proof.
  induction l as [|x l IH]; [done|]. cbn [rev].
  rewrite filter_app, IH.
  destruct (decide (P x)).
  - rewrite !filter_cons_True by done. done.
  - rewrite !filter_cons_False by done. by rewrite app_nil_r.
Qed.

Lemma remove_separators_cons_other (c : ascii) (s : string) :
  c ≠ ","%char → remove_separators (String c s) = String c (remove_separators s).
Proof.
  intros Hc. unfold remove_separators, chars_of_string, string_of_chars.
  cbn [list_ascii_of_string]. by rewrite filter_cons_True.
Qed.

(** Integers are grouped in threes and nothing else: for every [int] the
    formatter returns the sign followed by the decimal digits in groups of
    three from the right, and taking the separators out gives back
    [str(n)]. *)
Theorem thousands_separators_round_trip (n : Z) (precision : option Z) :
  ∃ s g,
    display_value (VInt n) None None precision = Ok s ∧
    s = sign_str (n <? 0)%Z +:+ g ∧
    well_grouped g = true ∧
    remove_separators g = str_of_N (Z.abs_N n) ∧
    remove_separators s = py_str (VInt n).
Proof.
  set (digits := chars_of_string (str_of_N (Z.abs_N n))).
  set (g := string_of_chars (rev (group3_rev 0 (rev digits)))).
  assert (Forall (λ c, is_digit c = true) (rev digits)) as Hdigits.
  { apply Forall_forall. intros c Hc.
    apply list_elem_of_In, in_rev, list_elem_of_In in Hc.
    pose proof (digits_only_chars _ (str_of_N_digits (Z.abs_N n))) as Hall.
    rewrite Forall_forall in Hall. by apply Hall. }
  assert (remove_separators g = str_of_N (Z.abs_N n)) as Hround.
  { unfold remove_separators, g. rewrite chars_of_string_of_chars.
    rewrite filter_rev, group3_rev_filter by done.
    rewrite rev_involutive. apply string_of_chars_of_string. }
  exists (sign_str (n <? 0)%Z +:+ g), g.
  split; [|split; [done|split; [|split; [done|]]]].
  - unfold display_value.
    assert (format_numeric_value precision (VInt n) = Ok (format_thousands n)) as ->.
    { by destruct precision. }
    cbn [mbind result_bind or_empty default].
    rewrite append_empty_r. unfold format_thousands. fold digits. fold g.
    by destruct (n <? 0)%Z.
  - unfold well_grouped, g. rewrite chars_of_string_of_chars, rev_involutive.
    apply group3_rev_grouped; [lia|done].
  - cbn [py_str]. destruct n as [|p|p]; cbn [Z.ltb Z.compare sign_str].
    + exact Hround.
    + exact Hround.
    + change ("-" +:+ g) with (String "-"%char g).
      rewrite remove_separators_cons_other by done. rewrite Hround.
      reflexivity.
Qed.

(** The formatter fails for one reason only: a [float] under a precision
    that the format specifier refuses, and the exception is a
    [ValueError].  Under every other value the precision is not looked
    at. *)
Theorem display_value_raises_only_on_precision (v : scalar)
    (prefix suffix : option string) (precision : option Z) :
  (∀ e, display_value v prefix suffix precision = Raise e ↔
        e = ValueError ∧
        ∃ f p, v = VFloat f ∧ precision = Some p ∧ ¬ (0 ≤ p ≤ INT_MAX)%Z) ∧
  ((∀ f, v ≠ VFloat f) →
   display_value v prefix suffix precision = display_value v prefix suffix None).
Proof.
  split.
  - intros e. unfold display_value. split.
    + destruct v as [| [|] | n | f | s | t]; destruct precision as [p|];
        cbn; try done.
      destruct (decide (0 ≤ p ≤ INT_MAX)%Z) as [?|Hn]; cbn; [done|].
      intros [= <-]. split; [done|]. by exists f, p.
    + intros (-> & f & p & -> & -> & Hp). cbn.
      by rewrite decide_False by done.
  - intros Hv. unfold display_value.
    destruct v as [| [|] | n | f | s | t]; destruct precision as [p|];
      try done. by destruct (Hv f).
Qed.

(* ===================================================================== *)
(** * Modifiers: copies, nesting, round trips *)
(* ===================================================================== *)

Lemma object_getattribute_error (o : pyobject) (name : string) (e : exn) :
  object_getattribute o name = Raise e → e = AttributeError.
Proof.
  unfold object_getattribute.
  destruct (class_property _ _); [done|].
  destruct (ob_dict o !! name); [done|].
  destruct (class_attribute _ _); [done|]. by intros [= <-].
Qed.

Lemma py_getattr_plain (h : objects) l members d fuel name :
  h !! l = Some (mkObject (Plain members) d) →
  py_getattr (S fuel) h (ARef l) name =
    object_getattribute (mkObject (Plain members) d) name.
Proof.
  intros Hl. cbn [py_getattr]. rewrite Hl.
  destruct (object_getattribute _ name) as [a|e] eqn:E; [done|].
  apply object_getattribute_error in E as ->. done.
Qed.

Lemma py_getattr_own (h : objects) l c d a fuel name :
  h !! l = Some (mkObject c d) → class_property c name = None →
  d !! name = Some a →
  py_getattr (S fuel) h (ARef l) name = Ok a.
Proof.
  intros Hl Hp Hd. cbn [py_getattr]. rewrite Hl.
  unfold object_getattribute. cbn [ob_class ob_dict]. by rewrite Hp, Hd.
Qed.

Lemma object_getattribute_slot (c : pyclass) d w :
  d !! wrapped_key c = Some w →
  object_getattribute (mkObject c d) (wrapped_key c) = Ok w.
Proof.
  intros Hd. unfold object_getattribute. cbn [ob_class ob_dict].
  by rewrite class_property_wrapped_key, Hd.
Qed.

Lemma py_getattr_delegates (h : objects) l c d w fuel name :
  h !! l = Some (mkObject c d) → is_modifier c = true →
  d !! "wrapped_key" = None → d !! wrapped_key c = Some w →
  d !! name = None → class_holds c name = false →
  py_getattr (S fuel) h (ARef l) name = py_getattr fuel h w name.
Proof.
  intros Hl Hc Hk Hw Hd Hholds. apply class_holds_false in Hholds as [Hp Ha].
  cbn [py_getattr]. rewrite Hl.
  unfold object_getattribute at 1. cbn [ob_class ob_dict].
  rewrite Hp, Hd, Ha, Hc.
  rewrite decide_False by (by intros [? ?]).
  rewrite get_wrapped_key_class by done. cbn [mbind result_bind].
  erewrite object_getattribute_slot by done. cbn [mbind result_bind].
  destruct fuel; reflexivity.
Qed.

Lemma py_setattr_plain (h : objects) l members d fuel name v :
  h !! l = Some (mkObject (Plain members) d) →
  py_setattr (S fuel) h (ARef l) name v =
    Ok (<[l := mkObject (Plain members) (<[name := v]> d)]> h).
Proof. intros Hl. cbn [py_setattr]. rewrite Hl. reflexivity. Qed.

Lemma py_setattr_slot (h : objects) l c d fuel v :
  h !! l = Some (mkObject c d) → is_modifier c = true →
  d !! "wrapped_key" = None →
  py_setattr (S fuel) h (ARef l) (wrapped_key c) v =
    Ok (<[l := mkObject c (<[wrapped_key c := v]> d)]> h).
Proof.
  intros Hl Hc Hk. cbn [py_setattr]. rewrite Hl. cbn [ob_class]. rewrite Hc.
  rewrite get_wrapped_key_class by done. cbn [mbind result_bind].
  rewrite decide_True by done.
  unfold object_setattr. cbn [ob_class ob_dict].
  by rewrite class_property_wrapped_key.
Qed.

Lemma py_setattr_local (h : objects) l c d lw w fuel name v :
  h !! l = Some (mkObject c d) → is_modifier c = true →
  d !! "wrapped_key" = None → d !! wrapped_key c = Some (ARef lw) →
  h !! lw = Some w → ob_dict w !! name = None →
  name ≠ wrapped_key c →
  py_setattr (S fuel) h (ARef l) name v =
    (o' ← object_setattr (mkObject c d) name v; Ok (<[l := o']> h)).
Proof.
  intros Hl Hc Hk Hs Hw Hn Hne. cbn [py_setattr]. rewrite Hl. cbn [ob_class].
  rewrite Hc. rewrite get_wrapped_key_class by done. cbn [mbind result_bind].
  rewrite decide_False by done.
  erewrite object_getattribute_slot by done. cbn [mbind result_bind].
  rewrite Hw. cbn [mbind result_bind].
  rewrite decide_False by (rewrite Hn; by intros [? ?]). reflexivity.
Qed.

Lemma py_setattr_through (h : objects) l c d lw w fuel name v :
  h !! l = Some (mkObject c d) → is_modifier c = true →
  d !! "wrapped_key" = None → d !! wrapped_key c = Some (ARef lw) →
  h !! lw = Some w → is_Some (ob_dict w !! name) →
  name ≠ wrapped_key c →
  py_setattr (S fuel) h (ARef l) name v = py_setattr fuel h (ARef lw) name v.
Proof.
  intros Hl Hc Hk Hs Hw Hn Hne. cbn [py_setattr]. rewrite Hl. cbn [ob_class].
  rewrite Hc. rewrite get_wrapped_key_class by done. cbn [mbind result_bind].
  rewrite decide_False by done.
  erewrite object_getattribute_slot by done. cbn [mbind result_bind].
  rewrite Hw. cbn [mbind result_bind].
  rewrite decide_True by done. reflexivity.
Qed.

Lemma fresh_not_in (h : objects) l (o : pyobject) :
  h !! l = Some o → fresh (dom h) ≠ l.
Proof.
  intros Hl Heq. apply (is_fresh (dom h)). rewrite Heq.
  apply elem_of_dom. eauto.
Qed.

Lemma slot_singleton_no_key (c : pyclass) (w : attr) :
  ({[wrapped_key c := w]} : gmap string attr) !! "wrapped_key" = None.
Proof. apply lookup_singleton_ne, wrapped_key_not_itself. Qed.

(** A copy of a wrapper is shallow. [copy.copy(m)] succeeds and allocates
    one object, of the class and with the state of [m], and changes no
    existing object; every attribute reads the same through the copy as
    through [m]; a write through the copy to an attribute the wrapped
    object holds is read back through [m], both share the wrapped object;
    an attribute set on the copy itself, the slot included, leaves [m] as
    it was. *)
Theorem copy_is_shallow (h : objects) (l lw : positive) (c : pyclass)
    (d : gmap string attr) (members : list (string * attr))
    (dw : gmap string attr) :
  is_modifier c = true →
  h !! l = Some (mkObject c d) →
  d !! "wrapped_key" = None →
  d !! wrapped_key c = Some (ARef lw) →
  h !! lw = Some (mkObject (Plain members) dw) →
  ∃ l' h',
    modifier_copy h l = Ok (l', h') ∧
    h !! l' = None ∧
    h' = <[l' := mkObject c d]> h ∧
    (∀ fuel name,
       py_getattr fuel h' (ARef l') name = py_getattr fuel h' (ARef l) name) ∧
    (∀ fuel foo v,
       foo ≠ wrapped_key c → is_Some (dw !! foo) →
       d !! foo = None → class_holds c foo = false →
       ∃ h2, py_setattr (S (S fuel)) h' (ARef l') foo v = Ok h2 ∧
             py_getattr (S (S fuel)) h2 (ARef l) foo = Ok v) ∧
    (∀ fuel foo v,
       foo ≠ wrapped_key c → dw !! foo = None → class_property c foo = None →
       ∃ h2, py_setattr (S fuel) h' (ARef l') foo v = Ok h2 ∧
             h2 !! l' = Some (mkObject c (<[foo := v]> d)) ∧
             h2 !! l = Some (mkObject c d) ∧
             h2 !! lw = Some (mkObject (Plain members) dw)) ∧
    (∀ fuel v,
       ∃ h2, py_setattr (S fuel) h' (ARef l') (wrapped_key c) v = Ok h2 ∧
             h2 !! l' = Some (mkObject c (<[wrapped_key c := v]> d)) ∧
             h2 !! l = Some (mkObject c d)).
Proof.
  intros Hc Hl Hk Hs Hw.
  pose proof (fresh_not_in _ _ _ Hl) as Hne.
  pose proof (fresh_not_in _ _ _ Hw) as Hnew.
  assert (h !! fresh (dom h) = None) as Hfresh.
  { apply not_elem_of_dom, is_fresh. }
  assert (l ≠ lw) as Hllw.
  { intros ->. rewrite Hl in Hw. injection Hw as -> _. done. }
  set (l' := fresh (dom h)) in *.
  exists l', (<[l' := mkObject c d]> h).
  assert (modifier_copy h l = Ok (l', <[l' := mkObject c d]> h)) as Hcopy.
  { unfold modifier_copy. rewrite Hl. cbn [mbind result_bind ob_class].
    fold l'. rewrite lookup_insert_eq. cbn [mbind result_bind].
    rewrite lookup_insert_ne by done. rewrite Hl.
    cbn [mbind result_bind ob_class ob_dict].
    unfold dict_update. rewrite (right_id_L ∅ (∪)).
    by rewrite insert_insert_eq. }
  set (h' := <[l' := mkObject c d]> h) in *.
  assert (h' !! l' = Some (mkObject c d)) as Hl'1 by apply lookup_insert_eq.
  assert (h' !! l = Some (mkObject c d)) as Hl1
    by (unfold h'; by rewrite lookup_insert_ne).
  assert (h' !! lw = Some (mkObject (Plain members) dw)) as Hw1
    by (unfold h'; by rewrite lookup_insert_ne).
  split; [done|]. split; [done|]. split; [done|].
  split; [|split; [|split]].
  - intros [|fuel] name; [done|]. cbn [py_getattr]. by rewrite Hl'1, Hl1.
  - intros fuel foo v Hfoo Hin Hd Hholds.
    exists (<[lw := mkObject (Plain members) (<[foo := v]> dw)]> h').
    split.
    + erewrite py_setattr_through; [|exact Hl'1|done..].
      by apply py_setattr_plain.
    + erewrite py_getattr_delegates;
        [|by rewrite lookup_insert_ne by done|done..].
      erewrite py_getattr_plain by apply lookup_insert_eq.
      unfold object_getattribute. cbn [ob_class ob_dict class_property].
      by rewrite lookup_insert_eq.
  - intros fuel foo v Hfoo Hnone Hprop.
    exists (<[l' := mkObject c (<[foo := v]> d)]> h').
    split; [|split; [|split]].
    + erewrite py_setattr_local; [|exact Hl'1|done..].
      unfold object_setattr. cbn [ob_class ob_dict]. by rewrite Hprop.
    + apply lookup_insert_eq.
    + by rewrite lookup_insert_ne.
    + by rewrite lookup_insert_ne.
  - intros fuel v.
    exists (<[l' := mkObject c (<[wrapped_key c := v]> d)]> h').
    split; [|split].
    + by apply py_setattr_slot.
    + apply lookup_insert_eq.
    + by rewrite lookup_insert_ne.
Qed.

Lemma wrap_all_reads (foo : string) (r : result attr) (cs : list pyclass) :
  ∀ (w : attr) (h : objects) (n : nat),
    Forall (λ c, is_modifier c = true ∧ class_holds c foo = false ∧
                 foo ≠ wrapped_key c) cs →
    (∀ h', h ⊆ h' → ∀ fuel, py_getattr (n + fuel) h' w foo = r) →
    ∃ outer h1,
      wrap_all cs w h = Ok (outer, h1) ∧ h ⊆ h1 ∧
      ∀ h', h1 ⊆ h' → ∀ fuel, py_getattr (length cs + n + fuel) h' outer foo = r.
Proof.
  induction cs as [|c cs IH]; intros w h n Hcs Hread.
  - exists w, h. done.
  - apply Forall_cons in Hcs as [(Hc & Hholds & Hfoo) Hcs].
    cbn [wrap_all]. rewrite new_modifier_Ok by done. cbn [mbind result_bind].
    set (l := fresh (dom h)).
    set (h0 := <[l := mkObject c {[wrapped_key c := w]}]> h).
    assert (h ⊆ h0) as Hsub.
    { apply insert_subseteq, not_elem_of_dom, is_fresh. }
    destruct (IH (ARef l) h0 (S n) Hcs) as (outer & h1 & Hwrap & Hsub1 & Hout).
    { intros h' Hh' fuel. cbn [Nat.add].
      erewrite py_getattr_delegates.
      - apply Hread. by etrans.
      - eapply lookup_weaken; [|exact Hh']. apply lookup_insert_eq.
      - done.
      - apply slot_singleton_no_key.
      - apply lookup_singleton_eq.
      - by apply lookup_singleton_ne.
      - done. }
    exists outer, h1. split; [done|]. split; [by etrans|].
    intros h' Hh' fuel. cbn [length].
    replace (S (length cs) + n + fuel)%nat with (length cs + S n + fuel)%nat by lia.
    by apply Hout.
Qed.

(** Reads delegate through any depth of nesting.  For an ordinary object
    [W] wrapped by the classes [c_1], ..., [c_n] in turn, none of which
    holds [foo], reading [foo] on the outermost wrapper returns what
    reading it on [W] returns, an [AttributeError] included; the
    wrapping itself leaves [W] as it is. *)
Theorem nested_wrappers_read_through (cs : list pyclass) (h : objects)
    (lw : positive) (members : list (string * attr)) (dw : gmap string attr)
    (foo : string) :
  Forall (λ c, is_modifier c = true ∧ class_holds c foo = false ∧
               foo ≠ wrapped_key c) cs →
  h !! lw = Some (mkObject (Plain members) dw) →
  ∃ outer h1,
    wrap_all cs (ARef lw) h = Ok (outer, h1) ∧
    h1 !! lw = Some (mkObject (Plain members) dw) ∧
    ∀ fuel,
      py_getattr (S (length cs + fuel)) h1 outer foo =
        object_getattribute (mkObject (Plain members) dw) foo.
Proof.
  intros Hcs Hw.
  destruct (wrap_all_reads foo
              (object_getattribute (mkObject (Plain members) dw) foo)
              cs (ARef lw) h 1 Hcs) as (outer & h1 & Hwrap & Hsub & Hread).
  { intros h' Hh' fuel. cbn [Nat.add]. apply py_getattr_plain.
    by eapply lookup_weaken. }
  exists outer, h1. split; [done|]. split; [by eapply lookup_weaken|].
  intros fuel. specialize (Hread h1 (reflexivity _) fuel).
  by replace (length cs + 1 + fuel)%nat with (S (length cs + fuel)) in Hread by lia.
Qed.

(** Writes do not reach through two wrappers.  With [W] wrapped by [c1]
    and that wrapper wrapped by [c2], setting on the outer wrapper an
    attribute that [W] holds in its own state sets it on the outer wrapper:
    the test looks at the state of the inner wrapper only.  [W] and the
    inner wrapper stay as they were; the outer wrapper then reads the new
    value and the inner wrapper still reads the value of [W]. *)
Theorem write_through_stops_at_inner_wrapper (c1 c2 : pyclass) (h : objects)
    (lw : positive) (members : list (string * attr)) (dw : gmap string attr)
    (foo : string) (old v : attr) (fuel : nat) :
  is_modifier c1 = true → is_modifier c2 = true →
  h !! lw = Some (mkObject (Plain members) dw) →
  dw !! foo = Some old →
  foo ≠ wrapped_key c1 → foo ≠ wrapped_key c2 →
  class_holds c1 foo = false → class_holds c2 foo = false →
  ∃ inner h1 outer h2 h3,
    new_modifier c1 (ARef lw) h = Ok (inner, h1) ∧
    new_modifier c2 (ARef inner) h1 = Ok (outer, h2) ∧
    py_getattr (S (S (S fuel))) h2 (ARef outer) foo = Ok old ∧
    py_setattr (S fuel) h2 (ARef outer) foo v = Ok h3 ∧
    h3 !! lw = Some (mkObject (Plain members) dw) ∧
    h3 !! inner = Some (mkObject c1 {[wrapped_key c1 := ARef lw]}) ∧
    py_getattr (S fuel) h3 (ARef outer) foo = Ok v ∧
    py_getattr (S (S fuel)) h3 (ARef inner) foo = Ok old.
Proof.
  intros Hc1 Hc2 Hw Hold Hf1 Hf2 Hh1 Hh2.
  pose proof (class_holds_false _ _ Hh2) as [Hp2 _].
  set (inner := fresh (dom h)).
  set (h1 := <[inner := mkObject c1 {[wrapped_key c1 := ARef lw]}]> h).
  set (outer := fresh (dom h1)).
  set (h2 := <[outer := mkObject c2 {[wrapped_key c2 := ARef inner]}]> h1).
  set (h3 := <[outer := mkObject c2
                 (<[foo := v]> {[wrapped_key c2 := ARef inner]})]> h2).
  assert (inner ≠ lw) as Hne1 by (by eapply fresh_not_in).
  assert (h1 !! inner = Some (mkObject c1 {[wrapped_key c1 := ARef lw]})) as Hi1
    by apply lookup_insert_eq.
  assert (h1 !! lw = Some (mkObject (Plain members) dw)) as Hw1
    by (unfold h1; by rewrite lookup_insert_ne).
  assert (outer ≠ inner) as Hne2 by (by eapply fresh_not_in).
  assert (outer ≠ lw) as Hne3 by (by eapply fresh_not_in).
  assert (h2 !! outer = Some (mkObject c2 {[wrapped_key c2 := ARef inner]})) as Ho2
    by apply lookup_insert_eq.
  assert (h2 !! inner = Some (mkObject c1 {[wrapped_key c1 := ARef lw]})) as Hi2
    by (unfold h2; by rewrite lookup_insert_ne).
  assert (h2 !! lw = Some (mkObject (Plain members) dw)) as Hw2
    by (unfold h2; by rewrite lookup_insert_ne).
  assert (h3 !! inner = Some (mkObject c1 {[wrapped_key c1 := ARef lw]})) as Hi3
    by (unfold h3; by rewrite lookup_insert_ne).
  assert (h3 !! lw = Some (mkObject (Plain members) dw)) as Hw3
    by (unfold h3; by rewrite lookup_insert_ne).
  assert (∀ h' k, h' !! inner = Some (mkObject c1 {[wrapped_key c1 := ARef lw]}) →
                  h' !! lw = Some (mkObject (Plain members) dw) →
                  py_getattr (S (S k)) h' (ARef inner) foo = Ok old) as Hread.
  { intros h' k Hi Hw'.
    erewrite py_getattr_delegates;
      [|exact Hi|done|apply slot_singleton_no_key|apply lookup_singleton_eq
       |by apply lookup_singleton_ne|done].
    erewrite py_getattr_plain by exact Hw'.
    unfold object_getattribute. cbn [ob_class ob_dict class_property].
    by rewrite Hold. }
  exists inner, h1, outer, h2, h3.
  split; [by apply new_modifier_Ok|]. split; [by apply new_modifier_Ok|].
  split; [|split; [|split; [done|split; [done|split]]]].
  - erewrite py_getattr_delegates;
      [|exact Ho2|done|apply slot_singleton_no_key|apply lookup_singleton_eq
       |by apply lookup_singleton_ne|done].
    by apply Hread.
  - erewrite py_setattr_local;
      [|exact Ho2|done|apply slot_singleton_no_key|apply lookup_singleton_eq
       |exact Hi2|by apply lookup_singleton_ne|done].
    unfold object_setattr. cbn [ob_class ob_dict]. by rewrite Hp2.
  - eapply py_getattr_own; [apply lookup_insert_eq|done|apply lookup_insert_eq].
  - by apply Hread.
Qed.

(** What is set through a wrapper is what is read back through it.  For a
    wrapper of an ordinary object and an attribute that the wrapper class
    does not hold, [m.foo = v] followed by [m.foo] gives [v], whether the
    write went through to the wrapped object or stayed on the wrapper; and
    the slot reads back what the constructor or a later assignment put
    there. *)
Theorem set_then_get_through_wrapper (c : pyclass) (h : objects) (lw : positive)
    (members : list (string * attr)) (dw : gmap string attr) (fuel : nat) :
  is_modifier c = true →
  h !! lw = Some (mkObject (Plain members) dw) →
  ∃ lm h1,
    new_modifier c (ARef lw) h = Ok (lm, h1) ∧
    py_getattr (S fuel) h1 (ARef lm) (wrapped_key c) = Ok (ARef lw) ∧
    (∀ foo v, foo ≠ wrapped_key c → class_holds c foo = false →
       ∃ h2, py_setattr (S (S fuel)) h1 (ARef lm) foo v = Ok h2 ∧
             py_getattr (S (S fuel)) h2 (ARef lm) foo = Ok v) ∧
    (∀ v, ∃ h2, py_setattr (S fuel) h1 (ARef lm) (wrapped_key c) v = Ok h2 ∧
                py_getattr (S fuel) h2 (ARef lm) (wrapped_key c) = Ok v).
Proof.
  intros Hc Hw.
  set (lm := fresh (dom h)).
  set (h1 := <[lm := mkObject c {[wrapped_key c := ARef lw]}]> h).
  assert (lm ≠ lw) as Hne by (by eapply fresh_not_in).
  assert (h1 !! lm = Some (mkObject c {[wrapped_key c := ARef lw]})) as Hm
    by apply lookup_insert_eq.
  assert (h1 !! lw = Some (mkObject (Plain members) dw)) as Hw1
    by (unfold h1; by rewrite lookup_insert_ne).
  exists lm, h1. split; [by apply new_modifier_Ok|].
  split; [|split].
  - eapply py_getattr_own;
      [exact Hm|apply class_property_wrapped_key|apply lookup_singleton_eq].
  - intros foo v Hfoo Hholds.
    pose proof (class_holds_false _ _ Hholds) as [Hp _].
    destruct (dw !! foo) as [old|] eqn:Hold.
    + exists (<[lw := mkObject (Plain members) (<[foo := v]> dw)]> h1). split.
      * erewrite py_setattr_through;
          [|exact Hm|done|apply slot_singleton_no_key|apply lookup_singleton_eq
           |exact Hw1|by (cbn [ob_dict]; rewrite Hold)|done].
        by apply py_setattr_plain.
      * erewrite py_getattr_delegates;
          [|by rewrite lookup_insert_ne by done|done|apply slot_singleton_no_key
           |apply lookup_singleton_eq|by apply lookup_singleton_ne|done].
        erewrite py_getattr_plain by apply lookup_insert_eq.
        unfold object_getattribute. cbn [ob_class ob_dict class_property].
        by rewrite lookup_insert_eq.
    + exists (<[lm := mkObject c (<[foo := v]> {[wrapped_key c := ARef lw]})]> h1).
      split.
      * erewrite py_setattr_local;
          [|exact Hm|done|apply slot_singleton_no_key|apply lookup_singleton_eq
           |exact Hw1|done|done].
        unfold object_setattr. cbn [ob_class ob_dict]. by rewrite Hp.
      * eapply py_getattr_own; [apply lookup_insert_eq|done|apply lookup_insert_eq].
  - intros v.
    exists (<[lm := mkObject c (<[wrapped_key c := v]> {[wrapped_key c := ARef lw]})]> h1).
    split.
    + apply py_setattr_slot; [done..|apply slot_singleton_no_key].
    + eapply py_getattr_own;
        [apply lookup_insert_eq|apply class_property_wrapped_key|apply lookup_insert_eq].
Qed.

(** [definition] cannot be overridden on a [Rollup].  When the wrapped
    dimension holds no [definition] of its own, setting it on the rollup
    raises [AttributeError]: the class defines it as a property without a
    setter.  When the dimension holds one, the assignment changes the
    dimension, and the rollup still reads the null value. *)
Theorem rollup_definition_is_read_only (h : objects) (lw : positive)
    (members : list (string * attr)) (dw : gmap string attr) (v : attr)
    (fuel : nat) :
  h !! lw = Some (mkObject (Plain members) dw) →
  ∃ lm h1,
    new_modifier Rollup (ARef lw) h = Ok (lm, h1) ∧
    (dw !! "definition" = None →
       py_setattr (S fuel) h1 (ARef lm) "definition" v = Raise AttributeError) ∧
    (is_Some (dw !! "definition") →
       ∃ h2,
         py_setattr (S (S fuel)) h1 (ARef lm) "definition" v = Ok h2 ∧
         h2 !! lw = Some (mkObject (Plain members) (<["definition" := v]> dw)) ∧
         py_getattr (S fuel) h2 (ARef lw) "definition" = Ok v ∧
         py_getattr (S fuel) h2 (ARef lm) "definition" = Ok ANullValue).
Proof.
  intros Hw.
  set (lm := fresh (dom h)).
  set (h1 := <[lm := mkObject Rollup {[wrapped_key Rollup := ARef lw]}]> h).
  assert (lm ≠ lw) as Hne by (by eapply fresh_not_in).
  assert (h1 !! lm = Some (mkObject Rollup {[wrapped_key Rollup := ARef lw]})) as Hm
    by apply lookup_insert_eq.
  assert (h1 !! lw = Some (mkObject (Plain members) dw)) as Hw1
    by (unfold h1; by rewrite lookup_insert_ne).
  exists lm, h1. split; [by apply new_modifier_Ok|]. split.
  - intros Hnone.
    erewrite py_setattr_local;
      [|exact Hm|done|apply slot_singleton_no_key|apply lookup_singleton_eq
       |exact Hw1|done|done].
    reflexivity.
  - intros Hsome.
    exists (<[lw := mkObject (Plain members) (<["definition" := v]> dw)]> h1).
    split; [|split; [|split]].
    + erewrite py_setattr_through;
        [|exact Hm|done|apply slot_singleton_no_key|apply lookup_singleton_eq
         |exact Hw1|done|done].
      by apply py_setattr_plain.
    + apply lookup_insert_eq.
    + erewrite py_getattr_plain by apply lookup_insert_eq.
      unfold object_getattribute. cbn [ob_class ob_dict class_property].
      by rewrite lookup_insert_eq.
    + cbn [py_getattr]. rewrite lookup_insert_ne by done. rewrite Hm. reflexivity.
Qed.

(** A wrapper that wraps itself.  After [m.wrapped = m] (the slot name of
    the class), reading an attribute that the wrapper does not hold never
    returns: the look-up goes from the wrapper to the wrapper until the
    interpreter raises [RecursionError], at any depth of stack. *)
Theorem self_wrapping_never_resolves (c : pyclass) (h : objects) (w : attr)
    (foo : string) :
  is_modifier c = true →
  foo ≠ wrapped_key c → class_holds c foo = false →
  ∃ lm h1 h2,
    new_modifier c w h = Ok (lm, h1) ∧
    py_setattr recursion_limit h1 (ARef lm) (wrapped_key c) (ARef lm) = Ok h2 ∧
    ∀ fuel, py_getattr fuel h2 (ARef lm) foo = Raise RecursionError.
Proof.
  intros Hc Hfoo Hholds.
  set (lm := fresh (dom h)).
  set (h1 := <[lm := mkObject c {[wrapped_key c := w]}]> h).
  set (h2 := <[lm := mkObject c {[wrapped_key c := ARef lm]}]> h1).
  exists lm, h1, h2. split; [by apply new_modifier_Ok|]. split.
  - unfold recursion_limit.
    erewrite py_setattr_slot;
      [|apply lookup_insert_eq|done|apply slot_singleton_no_key].
    unfold h2. by rewrite insert_singleton_eq.
  - intros fuel. induction fuel as [|fuel IH]; [done|].
    erewrite py_getattr_delegates;
      [exact IH|apply lookup_insert_eq|done|apply slot_singleton_no_key
       |apply lookup_singleton_eq|by apply lookup_singleton_ne|done].
Qed.

(* ===================================================================== *)
(** * The date formats *)
(* ===================================================================== *)

Lemma strftime_hourly (t : timestamp) :
  strftime (date_format hourly) t =
    pad4 (ts_year t) +:+ "-" +:+ pad2 (ts_month t) +:+ "-" +:+
    pad2 (ts_day t) +:+ " " +:+ month_abbr (ts_month t) +:+ "".
Proof. reflexivity. Qed.

Lemma strftime_year (t : timestamp) :
  strftime "%Y" t = pad4 (ts_year t) +:+ "".
Proof. reflexivity. Qed.

(** What the date formats leave out.  The text of an hourly level is the
    day followed by the abbreviated name of the month ([%h]): it does not
    show the hour, so two timestamps of the same day have the same text.
    The text of a monthly level is the year, as for an annual level, so two
    months of a year have the same text.  An interval that the table does
    not list is formatted as a day. *)
Theorem date_formats_leave_out_fields :
  (∀ t t', same_day t t' →
           strftime (date_format hourly) t = strftime (date_format hourly) t') ∧
  (∀ t t', ts_year t = ts_year t' →
           strftime (date_format monthly) t = strftime (date_format monthly) t') ∧
  (∀ t, strftime (date_format monthly) t = strftime (date_format annually) t) ∧
  (∀ n, date_format (other_interval n) = date_format daily).
Proof.
  split; [|split; [|split]].
  - intros t t' (Hy & Hm & Hd). rewrite !strftime_hourly. by rewrite Hy, Hm, Hd.
  - intros t t' Hy. change (date_format monthly) with "%Y".
    rewrite !strftime_year. by rewrite Hy.
  - done.
  - done.
Qed.

(* ===================================================================== *)
(** * The properties at concrete tables *)
(* ===================================================================== *)

Ltac by_computation := apply (bool_decide_unpack _); vm_compute; exact I.



(** The formatter at a float with a prefix and a precision of two digits. *)
Lemma display_value_total_witness :
  valid_precision (Some 2%Z) ∧
  display_value (VFloat float_3_14159) (Some "$") None (Some 2%Z) =
    Ok (or_empty (Some "$") +:+ formatted_value (VFloat float_3_14159) (Some 2%Z)
        +:+ or_empty None).
Proof.
  assert (valid_precision (Some 2%Z)) as Hp by (unfold valid_precision, INT_MAX; lia).
  split; [exact Hp|]. exact (proj1 display_value_total _ _ _ _ Hp).
Defined.


(** The totals of a result set with a missing region, the totals nodes
    of the pivoted table, and the totals row of the hourly dimension. *)
Lemma totals_invariant_holds_witness :
  ∃ df' cols df'',
    format_data_frame totals_key dimension_key_format plain_dimension
      raw_frame [region] = Ok df' ∧
    Forall2 (Forall2 (normalized_entry totals_key))
      (index_tuples (df_index raw_frame)) (index_tuples (df_index df')) ∧
    transform_metric_column_headers totals_key dimension_key_format plain_dimension
      pivoted_frame (dict_set sales_item_map totals_key (TotalsItem totals_key)) []
      = Ok cols ∧
    totals_invariant totals_key (columns_names (df_columns pivoted_frame))
      (columns_tuples (df_columns pivoted_frame)) cols ∧
    format_data_frame totals_key dimension_key_format plain_dimension
      rolled_up_frame [hour] = Ok df'' ∧
    df_index df'' =
      FlatIndex (Some "$d$hour") [VStr "2019-01-01 Jan"; VStr "~~totals"].
Proof.
  destruct (totals_invariant_holds totals_key dimension_key_format plain_dimension)
    as (Hindex & Hnodes & Hdates).
  assert (format_data_frame totals_key dimension_key_format plain_dimension
            raw_frame [region] = Ok _) as Hf by (vm_compute; reflexivity).
  assert (transform_metric_column_headers totals_key dimension_key_format
            plain_dimension pivoted_frame
            (dict_set sales_item_map totals_key (TotalsItem totals_key)) [] = Ok _)
    as Hc by (vm_compute; reflexivity).
  destruct (Hdates rolled_up_frame (Some "$d$hour") [VTimestamp new_year_noon; VNone]
              hour [] hourly eq_refl) as (df'' & Hfmt & Hidx).
  { constructor; [right; by eexists|]. constructor; [by left | constructor]. }
  { reflexivity. }
  { constructor. }
  eexists _, _, df''.
  split; [exact Hf|]. split; [exact (Hindex _ _ _ Hf)|].
  split; [exact Hc|]. split; [exact (Hnodes _ _ _ _ Hc)|].
  split; [exact Hfmt | exact Hidx].
Defined.

(** C4 as stated fails: the column ["2019"] of the collapsed frame has no
    descriptor in the item map, and its cell has a display entry all the
    same, the raw scalar. *)
Lemma missing_descriptor_has_display :
  ∃ row,
    transform_data raw_key collapsed_frame sales_item_map [] = Ok [row] ∧
    dict_get sales_item_map "2019" = None ∧
    getdeep row ["2019"; "raw"] = Some (Leaf (VInt 1200)) ∧
    getdeep row ["2019"; "display"] = Some (Leaf (VInt 1200)).
Proof.
  eexists. split; [vm_compute; reflexivity|]. repeat split; reflexivity.
Qed.

(** The integer cell of the table with a column of floats: the record
    holds the float 1.0 as raw and its text under the precision of the
    descriptor as display. *)
Lemma column_cell_display_witness :
  ∃ rows row,
    wf_columns (df_columns mixed_frame) ∧
    NoDup (columns_tuples (df_columns mixed_frame)) ∧
    raw_key ≠ "display" ∧
    transform_data raw_key mixed_frame sales_item_map [] = Ok rows ∧
    rows !! 0%nat = Some row ∧
    ∃ top raw display,
      head ["$m$sales"] = Some top ∧
      raw = VFloat (float_of_int 1) ∧
      (raw = VInt 1 ∨
       ∃ n, VInt 1 = VInt n ∧ values_dtype mixed_frame = float64 ∧
            raw = VFloat (float_of_int n)) ∧
      getdeep row ["$m$sales"] = Some (Dict (cell_entries raw_key raw display)) ∧
      match dict_get sales_item_map top with
      | Some item =>
          ∃ s, display_value raw (i_prefix item) (i_suffix item)
                 (i_precision item) = Ok s ∧ display = VStr s
      | None => display = raw
      end.
Proof.
  eexists _, _.
  assert (wf_columns (df_columns mixed_frame)) as Hwf by by_computation.
  assert (NoDup (columns_tuples (df_columns mixed_frame))) as Hnd by by_computation.
  assert (raw_key ≠ "display") as Hraw by discriminate.
  assert (transform_data raw_key mixed_frame sales_item_map [] = Ok _) as Hdata
    by (vm_compute; reflexivity).
  split; [exact Hwf|]. split; [exact Hnd|]. split; [exact Hraw|].
  split; [exact Hdata|]. split; [reflexivity|].
  exact (column_cell_display raw_key mixed_frame sales_item_map [] _
           Hwf Hnd Hraw Hdata 0%nat _ [VInt 1; VFloat float_half] 0%nat
           ["$m$sales"] (VInt 1) eq_refl eq_refl eq_refl eq_refl).
Defined.

(** C7 as stated fails: the region of the second row of the pivoted table
    is the totals key, and the raw of its cell is the label "Totals", not
    the key. *)
Lemma index_raw_is_the_label :
  ∃ rows row,
    transform_data raw_key pivoted_frame sales_item_map [] = Ok rows ∧
    rows !! 1%nat = Some row ∧
    index_tuples (df_index pivoted_frame) !! 1%nat = Some [VStr "~~totals"] ∧
    getdeep row ["$d$region"; "raw"] = Some (Leaf (VStr "Totals")).
Proof.
  eexists _, _. split; [vm_compute; reflexivity|]. repeat split; reflexivity.
Qed.

(** The region cell of the second row of the pivoted table. *)
Lemma index_cell_raw_witness :
  ∃ rows row raw,
    raw_key ≠ "display" ∧
    transform_data raw_key pivoted_frame sales_item_map [] = Ok rows ∧
    rows !! 1%nat = Some row ∧
    getdeep row ["$d$region"] =
      Some (Dict (cell_entries raw_key raw
                    (getdeepattr [] (Some "$d$region") raw VNone))) ∧
    match dict_get sales_item_map "~~totals" with
    | Some item => raw = VStr (i_label item)
    | None => raw = VStr "~~totals"
    end.
Proof.
  assert (raw_key ≠ "display") as Hraw by discriminate.
  assert (transform_data raw_key pivoted_frame sales_item_map [] = Ok _) as Hdata
    by (vm_compute; reflexivity).
  destruct (index_cell_raw raw_key pivoted_frame sales_item_map [] _ Hraw Hdata
              1%nat _ [VStr "~~totals"] 0%nat "$d$region" (VStr "~~totals")
              eq_refl eq_refl eq_refl eq_refl) as (raw & Hget & Hlabel).
  - intros [|j'] Hj'; [done | by destruct j'].
  - by_computation.
  - eexists _, _, raw. split; [exact Hraw|]. split; [exact Hdata|].
    split; [reflexivity|]. split; [exact Hget | exact Hlabel].
Defined.

(** C8 as stated fails at the slot name: the wrapped object has [wrapped]
    in its own state, and setting [wrapped] on the wrapper rebinds the slot
    of the wrapper and leaves the wrapped object as it was. *)
Lemma setting_the_slot_name_is_local :
  ∃ lm h1 h2,
    new_modifier Modifier (ARef 1%positive) {[ 1%positive := object_with_wrapped ]}
      = Ok (lm, h1) ∧
    is_Some (ob_dict object_with_wrapped !! "wrapped") ∧
    py_setattr recursion_limit h1 (ARef lm) "wrapped" (AScalar (VInt 5)) = Ok h2 ∧
    h2 !! 1%positive = Some object_with_wrapped ∧
    h2 !! lm = Some (mkObject Modifier {[ "wrapped" := AScalar (VInt 5) ]}).
Proof.
  eexists _, _, _. split; [vm_compute; reflexivity|].
  split; [by eexists|]. split; [vm_compute; reflexivity|].
  split; vm_compute; reflexivity.
Qed.

(** A [Rollup] around a dimension object with a label: a read and a
    write go to the dimension, and [definition] can be read but not set. *)
Lemma modifier_delegation_witness :
  ∃ lm h1,
    is_modifier Rollup = true ∧
    ({[ 1%positive := labelled_object ]} : objects) !! 1%positive
      = Some labelled_object ∧
    new_modifier Rollup (ARef 1%positive) {[ 1%positive := labelled_object ]}
      = Ok (lm, h1) ∧
    py_getattr 2 h1 (ARef lm) "label" = py_getattr 1 h1 (ARef 1%positive) "label" ∧
    py_setattr 2 h1 (ARef lm) "label" (AScalar (VStr "Area")) =
      Ok (<[1%positive := mkObject (Plain [("kind", AScalar (VStr "dimension"))])
                            (<["label" := AScalar (VStr "Area")]>
                               {[ "label" := AScalar (VStr "Region") ]})]> h1) ∧
    py_setattr 2 h1 (ARef lm) "definition" (AScalar (VStr "region_id")) =
      Raise AttributeError ∧
    py_getattr 1 h1 (ARef lm) "definition" = Ok ANullValue.
Proof.
  destruct modifier_delegation as (Hwrap & Hproperty & Hrollup).
  assert (({[ 1%positive := labelled_object ]} : objects) !! 1%positive
          = Some labelled_object) as Hw by reflexivity.
  destruct (Hwrap Rollup {[ 1%positive := labelled_object ]} 1%positive
              [("kind", AScalar (VStr "dimension"))]
              {[ "label" := AScalar (VStr "Region") ]} 0%nat eq_refl Hw)
    as (lm & h1 & Hnew & Hne & Hlw & Hlm & Hread & Hwrite & _ & Hrefused & _).
  exists lm, h1. split; [reflexivity|]. split; [exact Hw|]. split; [exact Hnew|].
  split; [|split; [|split]].
  - apply Hread; [discriminate | reflexivity].
  - apply Hwrite; [discriminate | by eexists].
  - apply Hrefused; [discriminate | reflexivity |].
    apply Hproperty. done.
  - exact (Hrollup h1 lm _ 0%nat Hlm).
Defined.

(** The caller's frame after a transform of the heap. *)
Lemma transform_leaves_inputs_unchanged_witness :
  caller_heap !! 1%positive = Some (ODataFrame raw_frame) ∧
  (transform_on_heap raw_key totals_key dimension_key_format metric_key_format
     string tagged_key tagged_label plain_dimension no_pivot
     sales_table_object 1%positive [2%positive] [] caller_heap).2 !! 1%positive
    = Some (ODataFrame raw_frame).
Proof.
  assert (caller_heap !! 1%positive = Some (ODataFrame raw_frame)) as H
    by reflexivity.
  split; [exact H|].
  exact (transform_leaves_inputs_unchanged raw_key totals_key dimension_key_format
           metric_key_format string tagged_key tagged_label plain_dimension no_pivot
           sales_table_object 1%positive [2%positive] [] caller_heap
           1%positive (ODataFrame raw_frame) H).
Defined.

(** The transform of the result set with a missing and an infinite cell:
    the records hold the texts. *)
Lemma missing_and_infinite_cells_become_text_witness :
  ∃ out row0 row1 display0 display1,
    (∀ d keys, no_pivot d keys (transpose sales_table) = Ok d) ∧
    df_columns raw_frame = FlatColumns None ["$m$sales"] ∧
    NoDup ["$m$sales"] ∧ wf_frame raw_frame ∧
    transform raw_key totals_key dimension_key_format metric_key_format string
      tagged_key tagged_label plain_dimension no_pivot sales_table raw_frame
      [region] [] = Ok out ∧
    length (out_data out) = 2%nat ∧
    out_data out !! 0%nat = Some row0 ∧
    getdeep row0 ["$m$sales"] = Some (cell_value raw_key (VStr "NaN") display0) ∧
    out_data out !! 1%nat = Some row1 ∧
    getdeep row1 ["$m$sales"] = Some (cell_value raw_key (VStr "Inf") display1).
Proof.
  destruct (missing_and_infinite_cells_become_text raw_key totals_key
              dimension_key_format metric_key_format string tagged_key tagged_label
              plain_dimension no_pivot) as (_ & _ & Hrows).
  assert (∀ d keys, no_pivot d keys (transpose sales_table) = Ok d) as Hpivot
    by reflexivity.
  assert (df_columns raw_frame = FlatColumns None ["$m$sales"]) as Hc
    by reflexivity.
  assert (NoDup ["$m$sales"]) as Hnd by by_computation.
  assert (wf_frame raw_frame) as Hwf by by_computation.
  assert (∀ k, k ∈ display_columns dimension_key_format [region] →
               k ∉ dict_keys (make_item_map metric_key_format string tagged_key
                                tagged_label sales_table [])) as Hdisjoint.
  { intros k Hk. vm_compute in Hk. by apply elem_of_nil in Hk. }
  assert (transform raw_key totals_key dimension_key_format metric_key_format string
            tagged_key tagged_label plain_dimension no_pivot sales_table raw_frame
            [region] [] = Ok _) as Ht by (vm_compute; reflexivity).
  destruct (Hrows sales_table raw_frame [region] [] _ None ["$m$sales"]
              Hpivot Hc Hnd Hwf Hdisjoint Ht) as (Hlength & Hcells).
  assert ("$m$sales" ∈ dict_keys (make_item_map metric_key_format string tagged_key
                                    tagged_label sales_table [])) as Hkey
    by by_computation.
  destruct (Hcells 0%nat [VFloat S754_nan] 0%nat "$m$sales" (VFloat S754_nan)
              eq_refl eq_refl Hkey eq_refl)
    as (row0 & raw0 & display0 & Hrow0 & Hget0 & Hnan & _ & _).
  destruct (Hcells 1%nat [VFloat (S754_infinity false)] 0%nat "$m$sales"
              (VFloat (S754_infinity false)) eq_refl eq_refl Hkey eq_refl)
    as (row1 & raw1 & display1 & Hrow1 & Hget1 & _ & Hinf & _).
  rewrite (Hnan eq_refl) in Hget0. rewrite (Hinf eq_refl) in Hget1.
  eexists _, row0, row1, display0, display1.
  split; [exact Hpivot|]. split; [exact Hc|]. split; [exact Hnd|].
  split; [exact Hwf|]. split; [exact Ht|]. split; [exact Hlength|].
  split; [exact Hrow0|]. split; [exact Hget0|]. split; [exact Hrow1 | exact Hget1].
Defined.

(** The transform of a result set without rows. *)
Lemma transform_of_empty_table_witness :
  ∃ dimension_columns metric_columns metric_labels,
    transform raw_key totals_key dimension_key_format metric_key_format string
      tagged_key tagged_label plain_dimension no_pivot sales_table
      (empty_frame empty_index None ["$m$sales"] None) [region] [] =
      Ok {| out_columns := (dimension_columns ++ metric_columns)%list;
            out_data := [] |} ∧
    (if is_RangeIndex empty_index then dimension_columns = []
     else Forall2 (dimension_header dimension_key_format plain_dimension [region])
            (index_names empty_index) dimension_columns) ∧
    Forall2 (metric_header
               (dict_set (make_item_map metric_key_format string tagged_key
                            tagged_label sales_table [])
                  totals_key (TotalsItem totals_key)))
            metric_labels metric_columns ∧
    (∀ x, x ∈ metric_labels ↔
          x ∈ dict_keys (make_item_map metric_key_format string tagged_key
                           tagged_label sales_table []) ∧
          x ∉ display_columns dimension_key_format [region]).
Proof.
  destruct (transform_of_empty_table raw_key totals_key dimension_key_format
              metric_key_format string tagged_key tagged_label plain_dimension
              no_pivot) as (_ & _ & _ & _ & Hwhole).
  apply (Hwhole sales_table empty_index None ["$m$sales"] None [region] []).
  - reflexivity.
  - reflexivity.
  - intros k Hk. vm_compute in Hk. exact Hk.
  - by_computation.
  - vm_compute. constructor.
  - intros d Hd Hdisp. apply list_elem_of_singleton in Hd as ->. discriminate.
  - right. vm_compute. constructor; [|constructor].
    exists region. split; [left | reflexivity].
Defined.

(* ===================================================================== *)
(** * Further properties at concrete objects and tables *)
(* ===================================================================== *)

(** The copy of a rollup reads like the rollup. *)
Lemma copy_is_shallow_witness :
  ∃ l' h',
    modifier_copy wrapper_heap 2%positive = Ok (l', h') ∧
    wrapper_heap !! l' = None ∧
    ∀ fuel name,
      py_getattr fuel h' (ARef l') name = py_getattr fuel h' (ARef 2%positive) name.
Proof.
  destruct (copy_is_shallow wrapper_heap 2%positive 1%positive Rollup
              {[ "dimension" := ARef 1%positive ]}
              [("kind", AScalar (VStr "dimension"))]
              {[ "label" := AScalar (VStr "Region") ]}
              eq_refl eq_refl eq_refl eq_refl eq_refl)
    as (l' & h' & Hcopy & Hfresh & _ & Hread & _).
  exists l', h'. split; [exact Hcopy|]. split; [exact Hfresh | exact Hread].
Defined.

(** [Rollup(Modifier(W)).label] is the label of [W]. *)
Lemma nested_wrappers_read_through_witness :
  ∃ outer h1,
    wrap_all [Modifier; Rollup] (ARef 1%positive) object_heap = Ok (outer, h1) ∧
    py_getattr 3 h1 outer "label" = Ok (AScalar (VStr "Region")).
Proof.
  assert (Forall (λ c, is_modifier c = true ∧ class_holds c "label" = false ∧
                       "label" ≠ wrapped_key c) [Modifier; Rollup]) as Hcs
    by by_computation.
  destruct (nested_wrappers_read_through [Modifier; Rollup] object_heap 1%positive
              [("kind", AScalar (VStr "dimension"))]
              {[ "label" := AScalar (VStr "Region") ]} "label" Hcs eq_refl)
    as (outer & h1 & Hwrap & _ & Hread).
  exists outer, h1. split; [exact Hwrap|]. exact (Hread 0%nat).
Defined.

(** Setting [label] on [Rollup(Modifier(W))] leaves [W] its label. *)
Lemma write_through_stops_at_inner_wrapper_witness :
  ∃ inner h1 outer h2 h3,
    new_modifier Modifier (ARef 1%positive) object_heap = Ok (inner, h1) ∧
    new_modifier Rollup (ARef inner) h1 = Ok (outer, h2) ∧
    py_setattr 1 h2 (ARef outer) "label" (AScalar (VStr "Area")) = Ok h3 ∧
    h3 !! 1%positive = Some labelled_object ∧
    py_getattr 1 h3 (ARef outer) "label" = Ok (AScalar (VStr "Area")) ∧
    py_getattr 2 h3 (ARef inner) "label" = Ok (AScalar (VStr "Region")).
Proof.
  destruct (write_through_stops_at_inner_wrapper Modifier Rollup object_heap
              1%positive [("kind", AScalar (VStr "dimension"))]
              {[ "label" := AScalar (VStr "Region") ]} "label"
              (AScalar (VStr "Region")) (AScalar (VStr "Area")) 0%nat
              eq_refl eq_refl eq_refl eq_refl
              ltac:(discriminate) ltac:(discriminate) eq_refl eq_refl)
    as (inner & h1 & outer & h2 & h3 & H1 & H2 & _ & H4 & H5 & _ & H7 & H8).
  exists inner, h1, outer, h2, h3. repeat split; assumption.
Defined.

(** [label] and a new attribute both read back through [Rollup(W)]. *)
Lemma set_then_get_through_wrapper_witness :
  ∃ lm h1,
    new_modifier Rollup (ARef 1%positive) object_heap = Ok (lm, h1) ∧
    (∃ h2, py_setattr 2 h1 (ARef lm) "label" (AScalar (VStr "Area")) = Ok h2 ∧
           py_getattr 2 h2 (ARef lm) "label" = Ok (AScalar (VStr "Area"))) ∧
    (∃ h2, py_setattr 2 h1 (ARef lm) "alias" (AScalar (VStr "r")) = Ok h2 ∧
           py_getattr 2 h2 (ARef lm) "alias" = Ok (AScalar (VStr "r"))).
Proof.
  destruct (set_then_get_through_wrapper Rollup object_heap 1%positive
              [("kind", AScalar (VStr "dimension"))]
              {[ "label" := AScalar (VStr "Region") ]} 0%nat eq_refl eq_refl)
    as (lm & h1 & Hnew & _ & Hset & _).
  exists lm, h1. split; [exact Hnew|]. split.
  - apply Hset; [discriminate | reflexivity].
  - apply Hset; [discriminate | reflexivity].
Defined.

(** [definition] on a rollup: refused, or written to the dimension and
    still read as the null value. *)
Lemma rollup_definition_is_read_only_witness :
  (∃ lm h1,
     new_modifier Rollup (ARef 1%positive) object_heap = Ok (lm, h1) ∧
     py_setattr 1 h1 (ARef lm) "definition" (AScalar (VStr "x"))
       = Raise AttributeError) ∧
  (∃ lm h1 h2,
     new_modifier Rollup (ARef 1%positive) {[ 1%positive := defined_dimension ]}
       = Ok (lm, h1) ∧
     py_setattr 2 h1 (ARef lm) "definition" (AScalar (VStr "x")) = Ok h2 ∧
     py_getattr 1 h2 (ARef 1%positive) "definition" = Ok (AScalar (VStr "x")) ∧
     py_getattr 1 h2 (ARef lm) "definition" = Ok ANullValue).
Proof.
  split.
  - destruct (rollup_definition_is_read_only object_heap 1%positive
                [("kind", AScalar (VStr "dimension"))]
                {[ "label" := AScalar (VStr "Region") ]}
                (AScalar (VStr "x")) 0%nat eq_refl)
      as (lm & h1 & Hnew & Hrefused & _).
    exists lm, h1. split; [exact Hnew|]. apply Hrefused. reflexivity.
  - assert (({[ 1%positive := defined_dimension ]} : objects) !! 1%positive
            = Some (mkObject (Plain [])
                      {[ "definition" := AScalar (VStr "region_id") ]})) as Hl
      by apply lookup_singleton_eq.
    destruct (rollup_definition_is_read_only {[ 1%positive := defined_dimension ]}
                1%positive [] {[ "definition" := AScalar (VStr "region_id") ]}
                (AScalar (VStr "x")) 0%nat Hl)
      as (lm & h1 & Hnew & _ & Hwritten).
    destruct Hwritten as (h2 & Hset & _ & Hw & Hm).
    { by_computation. }
    exists lm, h1, h2. repeat split; assumption.
Defined.

(** A modifier that wraps itself never resolves [label]. *)
Lemma self_wrapping_never_resolves_witness :
  ∃ lm h1 h2,
    new_modifier Modifier (AScalar VNone) ∅ = Ok (lm, h1) ∧
    py_setattr recursion_limit h1 (ARef lm) "wrapped" (ARef lm) = Ok h2 ∧
    py_getattr recursion_limit h2 (ARef lm) "label" = Raise RecursionError.
Proof.
  destruct (self_wrapping_never_resolves Modifier ∅ (AScalar VNone) "label"
              eq_refl ltac:(discriminate) eq_refl)
    as (lm & h1 & h2 & Hnew & Hset & Hread).
  exists lm, h1, h2. split; [exact Hnew|]. split; [exact Hset | apply Hread].
Defined.

(** The precision is not looked at for an integer. *)
Lemma display_value_raises_only_on_precision_witness :
  display_value (VInt 5) None None (Some (-1)%Z) = display_value (VInt 5) None None None.
Proof.
  apply (display_value_raises_only_on_precision (VInt 5) None None (Some (-1)%Z)).
  discriminate.
Defined.

(** Noon and evening of new year's day have one text. *)
Lemma date_formats_leave_out_fields_witness :
  strftime (date_format hourly) new_year_noon =
    strftime (date_format hourly) new_year_evening.
Proof.
  apply date_formats_leave_out_fields. repeat split.
Defined.

(** Level 1 of a single-level index. *)
Lemma map_index_level_bounds_witness :
  map_index_level (FlatIndex None [VInt 1]) 1 Ok = Raise AssertionError.
Proof.
  apply (map_index_level_bounds (FlatIndex None [VInt 1]) 1 Ok);
    [discriminate | discriminate | discriminate].
Defined.

(** The normalisation of the result set with a missing region. *)
Lemma format_data_frame_keeps_shape_witness :
  ∃ df',
    format_data_frame totals_key dimension_key_format plain_dimension
      raw_frame [region] = Ok df' ∧
    df_values df' = df_values raw_frame ∧
    index_size (df_index df') = 2%nat ∧
    index_names (df_index df') = [Some "$d$region"].
Proof.
  assert (format_data_frame totals_key dimension_key_format plain_dimension
            raw_frame [region] = Ok _) as H by (vm_compute; reflexivity).
  destruct (format_data_frame_keeps_shape totals_key dimension_key_format
              plain_dimension raw_frame [region] _ H)
    as (Hv & _ & _ & Hs & Hn & _).
  eexists. split; [exact H|]. split; [exact Hv|]. split; [exact Hs | exact Hn].
Defined.

(** The hours of new year's day, formatted once and then once more. *)
Lemma datetime_level_is_formatted_once_witness :
  ∃ df',
    format_data_frame totals_key dimension_key_format plain_dimension
      hourly_frame [hour] = Ok df' ∧
    df_index df' =
      FlatIndex (Some "$d$hour") [VStr "2019-01-01 Jan"; VStr "2019-01-01 Jan"] ∧
    format_data_frame totals_key dimension_key_format plain_dimension
      df' [hour] = Raise AttributeError.
Proof.
  destruct (datetime_level_is_formatted_once totals_key dimension_key_format
              plain_dimension hourly_frame (Some "$d$hour")
              [new_year_noon; new_year_evening] hour [] hourly
              eq_refl eq_refl (Forall_nil_2 _))
    as (df' & Hfmt & Hindex & _ & Hagain).
  exists df'. split; [exact Hfmt|]. split; [exact Hindex|].
  apply Hagain. discriminate.
Defined.

(** An index level that no dimension of the call describes. *)
Lemma dimension_headers_need_every_level_witness :
  transform_dimension_column_headers dimension_key_format plain_dimension
    raw_frame [] = Raise KeyError.
Proof.
  apply (dimension_headers_need_every_level dimension_key_format plain_dimension
           raw_frame []); [reflexivity|].
  intros Hall. apply Forall_cons in Hall as [(d & Hd & Hname) _].
  apply list_elem_of_singleton in Hd as ->. discriminate.
Defined.

(** The pivoted table under an empty item map, and the table with a
    column labelled ['name']. *)
Lemma metric_headers_need_descriptors_witness :
  transform_metric_column_headers totals_key dimension_key_format plain_dimension
    pivoted_frame [] [] = Raise KeyError ∧
  getattr_name name_column_frame = NameColumn ∧
  transform_metric_column_headers totals_key dimension_key_format plain_dimension
    name_column_frame sales_item_map [] = Raise TypeError.
Proof.
  split; [|split; [reflexivity|]].
  - apply (metric_headers_need_descriptors totals_key dimension_key_format
             plain_dimension pivoted_frame [] []); [by_computation | done |].
    intros Hd.
    destruct (Hd ["$m$sales"; "2019"] 0%nat "$m$sales") as [it Hit];
      [by left | reflexivity | by left | discriminate].
  - assert (wf_columns (df_columns name_column_frame)) as Hwf by by_computation.
    destruct (metric_headers_need_descriptors totals_key dimension_key_format
                plain_dimension name_column_frame sales_item_map [] Hwf)
      as (_ & _ & Hcolumn).
    destruct (Hcolumn eq_refl) as (_ & e & He & _ & Htype).
    rewrite He. f_equal. apply Htype.
    intros t j k Ht Hj Hc. exfalso.
    apply elem_of_cons in Ht as [-> | Ht].
    { destruct j as [|j]; [|by destruct j]. injection Hj as <-.
      destruct Hc as [Hc|Hc]; discriminate. }
    apply list_elem_of_singleton in Ht as ->.
    destruct j as [|j]; [|by destruct j]. injection Hj as <-.
    destruct Hc as [Hc|Hc]; discriminate.
Defined.

(** The records of the pivoted table have the region and the metric. *)
Lemma row_record_keys_witness :
  ∃ rows,
    transform_data raw_key pivoted_frame sales_item_map [] = Ok rows ∧
    length rows = 2%nat ∧
    ∀ row k, row ∈ rows →
      (is_Some (dict_get row k) ↔
       Some k ∈ index_names (df_index pivoted_frame) ∨
       ∃ t, t ∈ columns_tuples (df_columns pivoted_frame) ∧ head t = Some k).
Proof.
  assert (wf_frame pivoted_frame) as Hwf by by_computation.
  assert (Forall (λ t, length t = length (index_names (df_index pivoted_frame)))
            (index_tuples (df_index pivoted_frame))) as Hindex by by_computation.
  assert (transform_data raw_key pivoted_frame sales_item_map [] = Ok _) as H
    by (vm_compute; reflexivity).
  eexists. split; [exact H|].
  exact (row_record_keys raw_key pivoted_frame sales_item_map [] _ Hwf Hindex H).
Defined.

(** The collapsed frame has no column for the metric of the widget. *)
Lemma transform_needs_every_column_witness :
  transform raw_key totals_key dimension_key_format metric_key_format string
    tagged_key tagged_label plain_dimension no_pivot sales_table collapsed_frame
    [region] [] = Raise KeyError.
Proof.
  apply (transform_needs_every_column raw_key totals_key dimension_key_format
           metric_key_format string tagged_key tagged_label plain_dimension
           no_pivot sales_table collapsed_frame [region] [] "$m$sales").
  - by_computation.
  - intros t Ht. apply list_elem_of_singleton in Ht as ->. discriminate.
Defined.

(** Two rows in, two records out. *)
Lemma transform_one_record_per_row_witness :
  ∃ out,
    transform raw_key totals_key dimension_key_format metric_key_format string
      tagged_key tagged_label plain_dimension no_pivot sales_table raw_frame
      [region] [] = Ok out ∧
    length (out_data out) = 2%nat.
Proof.
  assert (wf_frame raw_frame) as Hwf by by_computation.
  assert (transform raw_key totals_key dimension_key_format metric_key_format
            string tagged_key tagged_label plain_dimension no_pivot sales_table
            raw_frame [region] [] = Ok _) as H by (vm_compute; reflexivity).
  eexists. split; [exact H|].
  exact (proj1 (transform_one_record_per_row raw_key totals_key
                  dimension_key_format metric_key_format string tagged_key
                  tagged_label plain_dimension no_pivot sales_table raw_frame
                  [region] [] _ (λ d keys, eq_refl) Hwf H)).
Defined.

(** The entry of the metric under no reference, before the entry under a
    reference. *)
Lemma item_map_entries_witness :
  ∃ it,
    dict_get (make_item_map metric_key_format string tagged_key tagged_label
                sales_table ["yoy"]) "$m$sales" = Some it ∧
    i_label it = "Sales".
Proof.
  destruct (item_map_entries metric_key_format string tagged_key tagged_label
              sales_table ["yoy"]) as (_ & _ & _ & Hlast).
  eexists. split.
  - eapply (Hlast []); [reflexivity|].
    intros Hin. apply list_elem_of_singleton in Hin. discriminate.
  - reflexivity.
Defined.

(** The display column of the countries is taken out of the frame. *)
Lemma display_columns_are_consumed_witness :
  ∃ ddv df',
    map_display_values dimension_key_format display_frame [country] = Ok (ddv, df') ∧
    columns_tuples (df_columns df') = [["$m$sales"]] ∧
    length (df_values df') = 3%nat.
Proof.
  assert (map_display_values dimension_key_format display_frame [country]
          = Ok (_, _)) as H by (vm_compute; reflexivity).
  destruct (display_columns_are_consumed dimension_key_format display_frame
              [country]) as (Hok & _).
  destruct (Hok _ _ H) as (Hc & _ & Hl).
  eexists _, _. split; [exact H|]. split; [exact Hc | exact Hl].
Defined.

(** The display column comes last in the result set and is no column of
    the output; the metric is. *)
Lemma output_columns_follow_the_widget_witness :
  ∃ out dimension_columns metric_columns,
    transform raw_key totals_key dimension_key_format metric_key_format string
      tagged_key tagged_label plain_dimension no_pivot sales_table display_frame
      [country] [] = Ok out ∧
    out_columns out = (dimension_columns ++ metric_columns)%list ∧
    Forall2 (metric_header
               (dict_set (make_item_map metric_key_format string tagged_key
                            tagged_label sales_table [])
                  totals_key (TotalsItem totals_key)))
            ["$m$sales"] metric_columns.
Proof.
  assert (transform raw_key totals_key dimension_key_format metric_key_format
            string tagged_key tagged_label plain_dimension no_pivot sales_table
            display_frame [country] [] = Ok _) as H by (vm_compute; reflexivity).
  assert (NoDup ["$m$sales"; "$d$country_display"]) as Hnd by by_computation.
  assert (∀ k, k ∈ display_columns dimension_key_format [country] →
               k ∉ dict_keys (make_item_map metric_key_format string tagged_key
                                tagged_label sales_table [])) as Hdisjoint.
  { intros k Hk Hin. apply list_elem_of_singleton in Hk as ->.
    apply list_elem_of_singleton in Hin. discriminate. }
  destruct (output_columns_follow_the_widget raw_key totals_key
              dimension_key_format metric_key_format string tagged_key
              tagged_label plain_dimension no_pivot sales_table display_frame
              [country] [] _ None ["$m$sales"; "$d$country_display"]
              (λ d keys, eq_refl) eq_refl Hnd Hdisjoint H)
    as (dimension_columns & metric_columns & Hout & _ & Hmetrics).
  eexists _, dimension_columns, metric_columns.
  split; [exact H|]. split; [exact Hout | exact Hmetrics].
Defined.

(** Both countries have a display value. *)
Lemma display_values_of_a_call_witness :
  ∃ ddv df' entry,
    map_display_values dimension_key_format display_frame [country] = Ok (ddv, df') ∧
    dict_get ddv "$d$country" = Some entry ∧
    is_Some (vdict_get entry (VStr "de")) ∧
    Forall (λ e, isnull e.1 = false ∧ isnull e.2 = false) entry.
Proof.
  assert (map_display_values dimension_key_format display_frame [country]
          = Ok (_, _)) as H by (vm_compute; reflexivity).
  destruct (display_values_of_a_call dimension_key_format display_frame [country]
              _ _ eq_refl H) as (_ & Hentry).
  destruct (Hentry [] country [] eq_refl (Forall_nil_2 _) eq_refl)
    as (entry & level & Hget & Hlevel & Hnn & Hcover).
  injection Hlevel as <-.
  eexists _, _, entry. split; [exact H|]. split; [exact Hget|].
  split; [|exact Hnn].
  apply Hcover; [|reflexivity]. by_computation.
Defined.

(** The leaves of the pivoted table are key paths of its records. *)
Lemma accessor_agreement_without_name_witness :
  ∃ cols rows,
    transform_metric_column_headers totals_key dimension_key_format plain_dimension
      pivoted_frame sales_item_map [] = Ok cols ∧
    transform_data raw_key pivoted_frame sales_item_map [] = Ok rows ∧
    ∀ a row, a ∈ all_leaf_accessors cols → row ∈ rows → has_key_path row a.
Proof.
  assert (wf_frame pivoted_frame) as Hwf by by_computation.
  assert (transform_metric_column_headers totals_key dimension_key_format
            plain_dimension pivoted_frame sales_item_map [] = Ok _) as Hcols
    by (vm_compute; reflexivity).
  assert (transform_data raw_key pivoted_frame sales_item_map [] = Ok _) as Hrows
    by (vm_compute; reflexivity).
  eexists _, _. split; [exact Hcols|]. split; [exact Hrows|].
  exact (accessor_agreement_without_name raw_key totals_key dimension_key_format
           plain_dimension pivoted_frame sales_item_map [] _ _ Hwf eq_refl
           Hcols Hrows).
Defined.

(** The country without display is shown as [NaN]. *)
Lemma display_values_are_filled_cells_witness :
  ∃ filled ddv df' entry,
    select_and_fill display_frame ["$d$country_display"; "$m$sales"] = Ok filled ∧
    map_display_values dimension_key_format filled [country] = Ok (ddv, df') ∧
    dict_get ddv "$d$country" = Some entry ∧
    vdict_get entry (VStr "de") = Some (VStr "NaN") ∧
    Forall (λ e, ∃ row y, row ∈ df_values display_frame ∧ y ∈ row ∧
                          e.2 = fill_cell y) entry.
Proof.
  assert (wf_columns (df_columns display_frame)) as Hwf by exact I.
  assert (aligned display_frame) as Hal by by_computation.
  assert (select_and_fill display_frame ["$d$country_display"; "$m$sales"]
          = Ok _) as Hfill by (vm_compute; reflexivity).
  match type of Hfill with
  | _ = Ok ?f =>
      assert (map_display_values dimension_key_format f [country] = Ok (_, _))
        as H by (vm_compute; reflexivity)
  end.
  destruct (display_values_are_filled_cells dimension_key_format display_frame
              _ _ [country] _ _ Hwf Hal Hfill H [] country [] eq_refl
              (Forall_nil_2 _) eq_refl eq_refl) as (entry & Hget & Hcells).
  injection Hget as <-.
  eexists _, _, _, _. split; [exact Hfill|]. split; [exact H|].
  split; [reflexivity|]. split; [reflexivity | exact Hcells].
Defined.

(** The result set of the countries is a well-formed call. *)
Lemma transform_returns_on_well_formed_call_witness :
  ∃ out,
    transform raw_key totals_key dimension_key_format metric_key_format string
      tagged_key tagged_label plain_dimension no_pivot sales_table display_frame
      [country] [] = Ok out.
Proof.
  apply (transform_returns_on_well_formed_call raw_key totals_key
           dimension_key_format metric_key_format string tagged_key tagged_label
           plain_dimension no_pivot sales_table display_frame [country] []
           None ["$m$sales"; "$d$country_display"]).
  - reflexivity.
  - reflexivity.
  - by_computation.
  - intros k Hk. vm_compute in Hk.
    apply elem_of_cons in Hk as [-> | Hk]; [by_computation|].
    apply list_elem_of_singleton in Hk as ->. by_computation.
  - by_computation.
  - intros k Hk Hin. apply list_elem_of_singleton in Hk as ->.
    apply list_elem_of_singleton in Hin. discriminate.
  - by_computation.
  - intros d Hd _. apply list_elem_of_singleton in Hd as ->. by_computation.
  - by_computation.
  - right. constructor; [|constructor].
    exists country. split; [by left | reflexivity].
  - constructor; [|constructor]. unfold valid_precision, INT_MAX. simpl. lia.
Defined.

(** The headers of the pivoted table: the metric, the display value of
    the year, the totals. *)
Lemma header_texts_hold_witness :
  transform_metric_column_headers totals_key dimension_key_format plain_dimension
    pivoted_frame sales_item_map date_display_values =
    Ok [mkColumn (VStr "Sales")
          (Some [mkColumn (VStr "Year 2019") None (Some "$m$sales.2019") None;
                 mkColumn (VStr "Totals") None (Some "$m$sales.~~totals")
                   (Some "fireant-totals")])
          None None] ∧
  header_texts totals_key dimension_key_format plain_dimension sales_item_map
    date_display_values (columns_names (df_columns pivoted_frame))
    (columns_tuples (df_columns pivoted_frame))
    [mkColumn (VStr "Sales")
       (Some [mkColumn (VStr "Year 2019") None (Some "$m$sales.2019") None;
              mkColumn (VStr "Totals") None (Some "$m$sales.~~totals")
                (Some "fireant-totals")])
       None None].
Proof.
  assert (transform_metric_column_headers totals_key dimension_key_format
            plain_dimension pivoted_frame sales_item_map date_display_values =
            Ok [mkColumn (VStr "Sales")
                  (Some [mkColumn (VStr "Year 2019") None (Some "$m$sales.2019") None;
                         mkColumn (VStr "Totals") None (Some "$m$sales.~~totals")
                           (Some "fireant-totals")])
                  None None]) as H by (vm_compute; reflexivity).
  split; [exact H|].
  exact (header_texts_hold totals_key dimension_key_format plain_dimension
           pivoted_frame sales_item_map date_display_values _ H).
Defined.
